(** * LoL custom-match skill matching: rank scale, rate limiter, retry
      executor, skill score and team balancing.

    A shallow embedding of the Go sources (the command-line collector, the web
    service [backend/cmd/app/main.go] and the [skill] package) together with
    the properties stated about them. *)

From Stdlib Require Import ZArith List Lia Bool String Ascii.
From Stdlib Require Import Sorted Permutation.
From Stdlib Require Import Floats.
Import ListNotations.

Open Scope string_scope.
Open Scope list_scope.
Open Scope Z_scope.

(* ================================================================== *)
(** * Part I. The programs                                              *)
(* ================================================================== *)

(** ** Go's [int]: 64-bit two's complement *)

Module GoInt.

Definition minInt : Z := - 2 ^ 63.
Definition maxInt : Z := 2 ^ 63 - 1.

(** Wrap-around of a mathematical integer into the [int64] range. *)
Definition wrap (x : Z) : Z := (x + 2 ^ 63) mod 2 ^ 64 - 2 ^ 63.

Definition add (x y : Z) : Z := wrap (x + y).
Definition sub (x y : Z) : Z := wrap (x - y).
Definition mul (x y : Z) : Z := wrap (x * y).
Definition neg (x : Z) : Z := wrap (- x).
(** [/] truncates toward zero and [%] takes the sign of the dividend. *)
Definition div (x y : Z) : Z := wrap (Z.quot x y).
Definition rem (x y : Z) : Z := Z.rem x y.

Definition inRange (x : Z) : Prop := minInt <= x <= maxInt.

End GoInt.

(** ** Rank scale: [rankScore] and [scoreToRank] *)

Module RankScale.

(** A Go [map[string]int]: a missing key reads as the zero value. *)
Fixpoint lookupInt (m : list (string * Z)) (k : string) : Z :=
  match m with
  | [] => 0
  | (k', v) :: rest => if String.eqb k k' then v else lookupInt rest k
  end.

(** A Go [map[int]string]: a missing key reads as the empty string. *)
Fixpoint lookupStr (m : list (Z * string)) (k : Z) : string :=
  match m with
  | [] => ""
  | (k', v) :: rest => if Z.eqb k k' then v else lookupStr rest k
  end.

Definition tierToInt : list (string * Z) :=
  [ ("IRON", 1); ("BRONZE", 2); ("SILVER", 3); ("GOLD", 4); ("PLATINUM", 5);
    ("EMERALD", 6); ("DIAMOND", 7); ("MASTER", 8); ("GRANDMASTER", 9);
    ("CHALLENGER", 10) ].

Definition intToTier : list (Z * string) :=
  [ (1, "IRON"); (2, "BRONZE"); (3, "SILVER"); (4, "GOLD"); (5, "PLATINUM");
    (6, "EMERALD"); (7, "DIAMOND"); (8, "MASTER"); (9, "GRANDMASTER");
    (10, "CHALLENGER") ].

Definition rankToInt : list (string * Z) :=
  [ ("IV", 1); ("III", 2); ("II", 3); ("I", 4) ].

Definition intToRank : list (Z * string) :=
  [ (1, "IV"); (2, "III"); (3, "II"); (4, "I") ].

Definition rankScore (tier rank : string) (lp : Z) : Z :=
  let t := lookupInt tierToInt tier in
  let r := lookupInt rankToInt rank in
  GoInt.add
    (GoInt.mul (GoInt.add (GoInt.mul (GoInt.sub t 1) 4) (GoInt.sub r 1)) 100)
    lp.

Definition scoreToRank (score : Z) : string * string * Z :=
  let tierIdx := GoInt.add (GoInt.div score 400) 1 in
  let rankIdx := GoInt.add (GoInt.div (GoInt.rem score 400) 100) 1 in
  let lp := GoInt.rem score 100 in
  (lookupStr intToTier tierIdx, lookupStr intToRank rankIdx, lp).

(** The ten tiers and four divisions of the scale. *)
Definition tiers : list string := map fst tierToInt.
Definition divisions : list string := map fst rankToInt.

End RankScale.

(** ** The monotonic clock *)

Module Clock.

(** [time.Duration] counts nanoseconds in an [int64]; instants of the
    monotonic clock are nanoseconds as well. *)
Definition Millisecond : Z := 1000000.
Definition Second : Z := 1000000000.

(** The part of the environment the programs cannot control: [lag k] is the
    extra time that has gone by when the clock is read for the [k]-th time
    (scheduling, work done between two calls, the network).  A monotonic
    clock makes it non-negative. *)
Definition Lag : Type := nat -> Z.

Definition steady (lag : Lag) : Prop := forall k, 0 <= lag k.

(** [base] is the earliest instant the next reading can show, [reads] the
    number of readings so far. *)
Record Clock : Type := mkClock { base : Z; reads : nat }.

(** [time.Now()] *)
Definition Now (lag : Lag) (c : Clock) : Z * Clock :=
  let t := base c + lag (reads c) in (t, mkClock t (S (reads c))).

(** [time.Sleep(d)]: returns at once when [d] is zero or negative. *)
Definition Sleep (d : Z) (c : Clock) : Clock :=
  mkClock (base c + Z.max 0 d) (reads c).

(** [t.Sub(u)]: the difference, saturated to the range of a Duration. *)
Definition Sub (t u : Z) : Z :=
  Z.max GoInt.minInt (Z.min GoInt.maxInt (t - u)).

End Clock.

(** ** Sliding-window limiter: [RiotLimiter.Wait] *)

Module Limiter.
Import Clock.

Record RiotLimiter : Type := mkLimiter {
  secWin : list Z;
  twoMin : list Z
}.

Definition NewRiotLimiter : RiotLimiter := mkLimiter [] [].

(** [for len(w) > 0 && w[0].Before(cutoff) { w = w[1:] }] *)
Fixpoint prune (cutoff : Z) (w : list Z) : list Z :=
  match w with
  | [] => []
  | t :: rest => if t <? cutoff then prune cutoff rest else w
  end.

Definition len {A : Type} (l : list A) : Z := Z.of_nat (List.length l).

(** The wait owed to one window: zero unless the window is full, else the
    time until its oldest entry leaves it, when that is positive. *)
Definition windowWait (cap span now : Z) (w : list Z) : Z :=
  if cap <=? len w then
    let d := Sub (hd 0 w + span) now in
    if d >? 0 then d else 0
  else 0.

(** One turn of the loop of [Wait], run under the lock at the instant
    [now]: prune both windows, then either record [now] in both ([None]) or
    give the time to sleep before the next turn ([Some sleepFor]). *)
Definition turn (now : Z) (r : RiotLimiter) : RiotLimiter * option Z :=
  let cutoff1 := now - 1 * Second in
  let sw := prune cutoff1 (secWin r) in
  let cutoff2 := now - 120 * Second in
  let tm := prune cutoff2 (twoMin r) in
  if (len sw <? 20) && (len tm <? 100) then
    (mkLimiter (sw ++ [now]) (tm ++ [now]), None)
  else
    let wait1 := windowWait 20 (1 * Second) now sw in
    let wait2 := windowWait 100 (120 * Second) now tm in
    let sleepFor := if wait2 >? wait1 then wait2 else wait1 in
    let sleepFor :=
      if sleepFor <? 10 * Millisecond then 10 * Millisecond else sleepFor in
    (mkLimiter sw tm, Some sleepFor).

(** What a call of [Wait] that returned leaves behind: the limiter, the
    total time slept inside the call (its result) and the clock, whose
    [base] is the instant the call recorded. *)
Record Waited : Type := mkWaited {
  after : RiotLimiter;
  slept : Z;
  clock : Clock
}.

(** [Wait]: the loop runs until a turn records.  [fuel] bounds the number
    of turns; [None] is a call still waiting when the fuel is spent. *)
Fixpoint Wait (fuel : nat) (lag : Lag) (c : Clock) (r : RiotLimiter)
              (sleptSoFar : Z) : option Waited :=
  match fuel with
  | O => None
  | S fuel' =>
    let (now, c1) := Now lag c in
    match turn now r with
    | (r', None) => Some (mkWaited r' sleptSoFar c1)
    | (r', Some sleepFor) =>
      Wait fuel' lag (Sleep sleepFor c1) r' (GoInt.add sleptSoFar sleepFor)
    end
  end.

(** State of a run of successive calls on one limiter.  Besides the limiter
    and the clock it keeps [log], the list of every instant ever recorded
    (the limiter itself forgets the pruned ones). *)
Record Run : Type := mkRun {
  lim : RiotLimiter;
  clk : Clock;
  log : list Z
}.

(** [n] successive calls of [Wait]; the run stops at a call that is still
    waiting when its fuel is spent. *)
Fixpoint calls (fuel : nat) (lag : Lag) (n : nat) (s : Run) : Run :=
  match n with
  | O => s
  | S n' =>
    match Wait fuel lag (clk s) (lim s) 0 with
    | Some w =>
      calls fuel lag n' (mkRun (after w) (clock w) (log s ++ [base (clock w)]))
    | None => s
    end
  end.

Definition fresh : Run := mkRun NewRiotLimiter (mkClock 0 0) [].

(** Number of recorded instants inside the closed window [[lo, lo + span]]. *)
Definition inWindow (lo span : Z) (l : list Z) : Z :=
  len (filter (fun t => (lo <=? t) && (t <=? lo + span)) l).

End Limiter.

(** ** Resilient request executor: [doRequestWithRetry] *)

Module Executor.
Import Clock Limiter.

(** *** [strconv.Atoi]

    An optional sign followed by one or more decimal digits, whose value
    fits an [int]; anything else is an error ([None]). *)
Definition digit (c : ascii) : option Z :=
  let n := Z.of_N (N_of_ascii c) in
  if (48 <=? n) && (n <=? 57) then Some (n - 48) else None.

Fixpoint digits (s : string) (acc : Z) : option Z :=
  match s with
  | EmptyString => Some acc
  | String c rest =>
    match digit c with
    | Some d => digits rest (acc * 10 + d)
    | None => None
    end
  end.

Definition Atoi (s : string) : option Z :=
  let '(negative, body) :=
    match s with
    | String "-"%char rest => (true, rest)
    | String "+"%char rest => (false, rest)
    | _ => (false, s)
    end in
  match body with
  | EmptyString => None
  | _ =>
    match digits body 0 with
    | Some n =>
      let v := if negative then - n else n in
      if (GoInt.minInt <=? v) && (v <=? GoInt.maxInt) then Some v else None
    | None => None
    end
  end.

(** *** What [client.Do] gives back *)

(** Of a response the executor reads the status code and the Retry-After
    header; [RetryAfter] is [strings.TrimSpace(resp.Header.Get("Retry-After"))],
    the empty string when the header is absent. *)
Record Response : Type := mkResponse {
  StatusCode : Z;
  RetryAfter : string
}.

(** The pair [(resp, err)] of [client.Do]; [failed] stands for [err != nil]. *)
Record Reply : Type := mkReply {
  resp : option Response;
  failed : bool
}.

(** *** Progress counters *)

Record Counters : Type := mkCounters {
  players : Z;
  planned : Z;
  attempts : Z;
  completed : Z;
  retries : Z;
  waitRL : Z;
  wait429 : Z
}.

Definition NewCounters (n : Z) : Counters := mkCounters n 0 0 0 0 0 0.

Definition RecordAttempt (c : Counters) : Counters :=
  mkCounters (players c) (planned c) (GoInt.add (attempts c) 1) (completed c)
             (retries c) (waitRL c) (wait429 c).
Definition RecordCompleted (c : Counters) : Counters :=
  mkCounters (players c) (planned c) (attempts c) (GoInt.add (completed c) 1)
             (retries c) (waitRL c) (wait429 c).
Definition RecordRetry (c : Counters) : Counters :=
  mkCounters (players c) (planned c) (attempts c) (completed c)
             (GoInt.add (retries c) 1) (waitRL c) (wait429 c).
Definition AddRateWait (d : Z) (c : Counters) : Counters :=
  if d >? 0 then
    mkCounters (players c) (planned c) (attempts c) (completed c)
               (retries c) (GoInt.add (waitRL c) d) (wait429 c)
  else c.
Definition Add429Wait (d : Z) (c : Counters) : Counters :=
  if d >? 0 then
    mkCounters (players c) (planned c) (attempts c) (completed c)
               (retries c) (waitRL c) (GoInt.add (wait429 c) d)
  else c.

(** *** The world the executor acts on *)

(** The two places where the executor itself sleeps. *)
Inductive Nap : Type :=
| RateLimited (d : Z)   (* [time.Sleep(wait)] after a 429 *)
| BackOff (d : Z).      (* [time.Sleep(backoff)] *)

Definition napTime (n : Nap) : Z :=
  match n with RateLimited d => d | BackOff d => d end.

Record World : Type := mkWorld {
  wclock : Clock;
  limiter : RiotLimiter;
  counters : Counters;
  naps : list Nap       (* every sleep of the executor, oldest first *)
}.

Definition newWorld (n : Z) : World :=
  mkWorld (mkClock 0 0) NewRiotLimiter (NewCounters n) [].

Definition count (f : Counters -> Counters) (w : World) : World :=
  mkWorld (wclock w) (limiter w) (f (counters w)) (naps w).

Definition nap (n : Nap) (w : World) : World :=
  mkWorld (Sleep (napTime n) (wclock w)) (limiter w) (counters w)
          (naps w ++ [n]).

(** *** The loop of [doRequestWithRetry] *)

Record Loop : Type := mkLoop {
  backoff : Z;
  lastStatus : Z;
  tries : Z
}.

(** How a turn of the loop ends: it goes round again, or the function
    returns the pair [(resp, err)].  [Some status] for [err] is the error
    built from [lastStatus]. *)
Inductive Step : Type :=
| Again (st : Loop) (w : World)
| Exit (r : option Response) (e : option Z) (w : World).

(** The wait after a 429, from the trimmed Retry-After header [ra]. *)
Definition retryAfterWait (ra : string) : Z :=
  let wait :=
    if String.eqb ra "" then 0
    else match Atoi ra with
         | Some v => GoInt.mul v Second
         | None => 0
         end in
  if wait =? 0 then 2 * Second else wait.

(** [if backoff < 30*time.Second { backoff *= 2 }] *)
Definition nextBackoff (b : Z) : Z :=
  if b <? 30 * Second then GoInt.mul b 2 else b.

(** The same three statements end the 5xx branch and the fall-through for
    network failures and for every other status: give up when in best-effort
    mode, [break] when the attempts are used up, else sleep the backoff. *)
Definition giveUpOrBackOff (skipOnLimit : bool) (maxRetry : Z)
           (st : Loop) (w : World) : Step :=
  if skipOnLimit then Exit None None w
  else if (maxRetry >? 0) && (tries st >=? maxRetry)
  then Exit None (Some (lastStatus st)) w
  else Again (mkLoop (nextBackoff (backoff st)) (lastStatus st) (tries st))
             (nap (BackOff (backoff st)) w).

(** The body of the loop from [counters.RecordAttempt()] on, given the
    reply of [client.Do]. *)
Definition attempt (skipOnLimit : bool) (maxRetry : Z) (reply : Reply)
           (st : Loop) (w : World) : Step :=
  let w := count RecordAttempt w in
  let st := mkLoop (backoff st) (lastStatus st) (GoInt.add (tries st) 1) in
  match resp reply with
  | Some r =>
    if negb (failed reply) && (StatusCode r =? 200)
    then Exit (Some r) None (count RecordCompleted w)
    else
      let st := mkLoop (backoff st) (StatusCode r) (tries st) in
      if StatusCode r =? 404
      then Exit (Some r) None (count RecordCompleted w)
      else if StatusCode r =? 429 then
        let w := count RecordRetry w in
        let wait := retryAfterWait (RetryAfter r) in
        let w := count (Add429Wait wait) w in
        if skipOnLimit then Exit None None w
        else Again st (nap (RateLimited wait) w)
      else if (500 <=? StatusCode r) && (StatusCode r <? 600)
      then giveUpOrBackOff skipOnLimit maxRetry st w
      else giveUpOrBackOff skipOnLimit maxRetry st w
  | None => giveUpOrBackOff skipOnLimit maxRetry st w
  end.

(** What is known of a call once the scripted replies are used up. *)
Inductive Outcome : Type :=
| Done (r : option Response) (e : option Z)  (* returned [(r, e)] *)
| Running                    (* the loop is still asking for replies *)
| Waiting.                   (* the limiter has not let the call through *)

(** [slept := limiter.Wait(); counters.AddRateWait(slept)] *)
Definition enter (fuel : nat) (lag : Lag) (w : World) : option World :=
  match Wait fuel lag (wclock w) (limiter w) 0 with
  | None => None
  | Some wt =>
    Some (mkWorld (clock wt) (after wt)
                  (AddRateWait (slept wt) (counters w)) (naps w))
  end.

Fixpoint retryLoop (fuel : nat) (lag : Lag) (skipOnLimit : bool)
         (maxRetry : Z) (script : list Reply) (st : Loop) (w : World)
  : Outcome * World :=
  match script with
  | [] => (Running, w)
  | reply :: rest =>
    match enter fuel lag w with
    | None => (Waiting, w)
    | Some w1 =>
      match attempt skipOnLimit maxRetry reply st w1 with
      | Exit r e w' => (Done r e, w')
      | Again st' w' => retryLoop fuel lag skipOnLimit maxRetry rest st' w'
      end
    end
  end.

(** [doRequestWithRetry], as in the command-line collector; the web service
    has the same function without the counters.  [SKIP] is the value of the
    environment variable of that name, [script] the successive replies of
    [client.Do]. *)
Definition doRequestWithRetry (fuel : nat) (lag : Lag) (SKIP : string)
           (maxRetry : Z) (script : list Reply) (w : World)
  : Outcome * World :=
  let skipOnLimit := String.eqb SKIP "true" in
  retryLoop fuel lag skipOnLimit maxRetry script (mkLoop (1 * Second) 0 0) w.

(** *** The earlier executor, without limiter

    [for i := 0; i < maxRetry; i++]: 429 and 5xx share one branch that
    doubles the wait, everything else sleeps the current wait. *)
Inductive LegacyOutcome : Type :=
| LDone (r : option Response) (e : option Z)
| LRunning
| LPanic.                    (* [resp.StatusCode] on a nil response *)

Fixpoint legacyLoop (skipOnLimit : bool) (maxRetry : Z) (script : list Reply)
         (i wait lastSt : Z) (slept : list Z) : LegacyOutcome * list Z :=
  if i <? maxRetry then
    match script with
    | [] => (LRunning, slept)
    | reply :: rest =>
      match resp reply with
      | None =>
        if negb (failed reply) then (LPanic, slept)
        else legacyLoop skipOnLimit maxRetry rest (GoInt.add i 1) wait lastSt
                        (slept ++ [wait])
      | Some r =>
        let s := StatusCode r in
        if negb (failed reply) && (s =? 200) then (LDone (Some r) None, slept)
        else if s =? 404 then (LDone (Some r) None, slept)
        else if (s =? 429) || ((500 <=? s) && (s <? 600)) then
          if skipOnLimit then (LDone None None, slept)
          else legacyLoop skipOnLimit maxRetry rest (GoInt.add i 1)
                          (GoInt.mul wait 2) s (slept ++ [wait])
        else legacyLoop skipOnLimit maxRetry rest (GoInt.add i 1) wait s
                        (slept ++ [wait])
      end
    end
  else if skipOnLimit then (LDone None None, slept)
  else (LDone None (Some lastSt), slept).

Definition legacyDoRequestWithRetry (SKIP : string) (maxRetry : Z)
           (script : list Reply) : LegacyOutcome * list Z :=
  legacyLoop (String.eqb SKIP "true") maxRetry script 0 (1 * Second) 0 [].

(** *** What the callers do with the pair [(resp, err)] *)

Inductive Disposition : Type :=
| Proceed       (* decode the body and go on *)
| SkipPlayer    (* [continue] of the loop over players *)
| SkipItem      (* [continue] of a loop over matches or participants *)
| Defaulted     (* keep the zero value and go on with the player *)
| Fatal         (* [log.Fatalf]: the program exits *)
| Failed.       (* [analyze] returns an error *)

Definition is200 (r : option Response) : bool :=
  match r with Some x => StatusCode x =? 200 | None => false end.

(** Command-line collector: account, match list, rank and mastery. *)
Definition cliPlayerSite (r : option Response) (e : option Z) : Disposition :=
  match e with
  | Some _ => Fatal
  | None =>
    match r with
    | None => SkipPlayer
    | Some x => if StatusCode x =? 200 then Proceed else Fatal
    end
  end.

(** Command-line collector: the two first passes over match details. *)
Definition cliDetailSite (r : option Response) (e : option Z) : Disposition :=
  match e with
  | Some _ => Fatal
  | None =>
    match r with
    | None => SkipItem
    | Some x => if StatusCode x =? 200 then Proceed else SkipItem
    end
  end.

(** Command-line collector: participant ranks and the lane pass. *)
Definition cliLenientSite (r : option Response) (e : option Z) : Disposition :=
  match e with
  | Some _ => SkipItem
  | None =>
    match r with
    | None => SkipItem
    | Some x => if StatusCode x =? 200 then Proceed else SkipItem
    end
  end.

(** Web service: account lookup. *)
Definition webAccountSite (r : option Response) (e : option Z) : Disposition :=
  match e, r with
  | Some _, _ => Failed
  | None, None => Failed
  | None, Some x =>
    if negb (StatusCode x =? 200) && negb (StatusCode x =? 404) then Failed
    else if StatusCode x =? 200 then Proceed else SkipPlayer
  end.

(** Web service: match list. *)
Definition webMatchListSite (r : option Response) (e : option Z)
  : Disposition :=
  match e, r with
  | Some _, _ => Failed
  | None, None => Failed
  | None, Some x => if StatusCode x =? 200 then Proceed else Failed
  end.

(** Web service: match details and participant ranks. *)
Definition webItemSite (r : option Response) (e : option Z) : Disposition :=
  match e, r with
  | Some _, _ => SkipItem
  | None, None => SkipItem
  | None, Some x => if StatusCode x =? 200 then Proceed else SkipItem
  end.

(** Web service: current rank and the two mastery lookups. *)
Definition webOptionalSite (r : option Response) (e : option Z)
  : Disposition :=
  match e with
  | None => if is200 r then Proceed else Defaulted
  | Some _ => Defaulted
  end.

(** The unit of work at hand is dropped and the run goes on. *)
Definition skips (d : Disposition) : bool :=
  match d with
  | SkipPlayer | SkipItem | Defaulted => true
  | _ => false
  end.

Definition cliSites : list (option Response -> option Z -> Disposition) :=
  [ cliPlayerSite; cliPlayerSite; cliDetailSite; cliPlayerSite; cliPlayerSite;
    cliDetailSite; cliLenientSite; cliLenientSite ].

Definition webSites : list (option Response -> option Z -> Disposition) :=
  [ webAccountSite; webMatchListSite; webItemSite; webOptionalSite;
    webOptionalSite; webOptionalSite; webItemSite ].


End Executor.

(** ** Feature aggregation: the skill score of a player *)

Module Aggregator.

Record RankEntry : Type := mkRankEntry {
  QueueType : string;
  Tier : string;
  Rank : string;
  LeaguePoints : Z
}.

Record Mastery : Type := mkMastery {
  ChampionID : Z;
  ChampionLevel : Z;
  ChampionPoints : Z
}.

(** [rankScore(entry.Tier, entry.Rank, entry.LeaguePoints)] *)
Definition entryScore (entry : RankEntry) : Z :=
  RankScale.rankScore (Tier entry) (Rank entry) (LeaguePoints entry).

(** [for _, entry := range rankData { if entry.QueueType ==
    "RANKED_SOLO_5x5" { ... rankScore(...); break } }] *)
Fixpoint soloRankScore (rankData : list RankEntry) : option Z :=
  match rankData with
  | [] => None
  | entry :: rest =>
    if String.eqb (QueueType entry) "RANKED_SOLO_5x5"
    then Some (entryScore entry)
    else soloRankScore rest
  end.

Definition currentRankScore (rankData : list RankEntry) : Z :=
  match soloRankScore rankData with
  | Some score => score
  | None => 0
  end.

(** One turn of the loop over the participants met in the recent matches.
    [lookup] is the decoded rank data of the participant, [None] when the
    request or the decoding failed (the loop [continue]s). *)
Definition tally (acc : Z * Z) (lookup : option (list RankEntry)) : Z * Z :=
  match lookup with
  | None => acc
  | Some rdata =>
    match soloRankScore rdata with
    | Some score => (GoInt.add (fst acc) score, GoInt.add (snd acc) 1)
    | None => acc
    end
  end.

Definition avgRankScore (lookups : list (option (list RankEntry))) : Z :=
  let '(totalScore, count) := fold_left tally lookups (0, 0) in
  if count >? 0 then GoInt.div totalScore count else 0.

(** The comparison handed to [sort.Slice]. *)
Definition morePoints (a b : Mastery) : bool :=
  ChampionPoints a >? ChampionPoints b.

(** [sort.Slice] is library code; [sortSlice] stands for it, instantiated
    with [morePoints].  The three first entries are then added up. *)
Definition topMastery (sortSlice : list Mastery -> list Mastery)
           (masteries : list Mastery) : Z :=
  fold_left (fun acc m => GoInt.add acc (ChampionPoints m))
            (firstn 3 (sortSlice masteries)) 0.

Definition skillScore (sortSlice : list Mastery -> list Mastery)
           (rankData : list RankEntry)
           (lookups : list (option (list RankEntry)))
           (masteries : list Mastery) : Z :=
  let currentRankScore := currentRankScore rankData in
  let avgRankScore := avgRankScore lookups in
  let topMastery := topMastery sortSlice masteries in
  GoInt.add (GoInt.add (GoInt.mul currentRankScore 2) avgRankScore)
            (GoInt.div topMastery 1000).

(** What [sort.Slice] promises for [morePoints]: the same entries, no entry
    with more points after one with fewer. *)
Definition sortsByPoints (sortSlice : list Mastery -> list Mastery) : Prop :=
  forall l, Permutation (sortSlice l) l /\
            StronglySorted (fun a b => morePoints b a = false) (sortSlice l).

(** *** The score in the words of the specification *)

Definition sumZ (l : list Z) : Z := fold_right Z.add 0 l.

(** The player's ranked-solo entry, if any. *)
Definition soloEntry (rankData : list RankEntry) : option RankEntry :=
  find (fun e => String.eqb (QueueType e) "RANKED_SOLO_5x5") rankData.

(** The rank scores collected from the participants that have one. *)
Definition collectedScores (lookups : list (option (list RankEntry)))
  : list Z :=
  flat_map (fun lookup =>
              match lookup with
              | Some rdata =>
                match soloEntry rdata with
                | Some e => [entryScore e]
                | None => []
                end
              | None => []
              end) lookups.

(** Truncating integer mean, 0 for no score at all. *)
Definition truncMean (scores : list Z) : Z :=
  match scores with
  | [] => 0
  | _ => Z.quot (sumZ scores) (Z.of_nat (List.length scores))
  end.

(** The same mean in Go's [int]: sum and count wrap around at 64 bits. *)
Definition goMean (scores : list Z) : Z :=
  let total := GoInt.wrap (sumZ scores) in
  let count := GoInt.wrap (Z.of_nat (List.length scores)) in
  if count >? 0 then GoInt.div total count else 0.

(** Points in descending order. *)
Fixpoint insertDesc (x : Z) (l : list Z) : list Z :=
  match l with
  | [] => [x]
  | y :: rest => if y <? x then x :: l else y :: insertDesc x rest
  end.

Definition descending (l : list Z) : list Z := fold_right insertDesc [] l.

(** Sum of the points of the top three entries by points. *)
Definition top3Sum (masteries : list Mastery) : Z :=
  sumZ (firstn 3 (descending (map ChampionPoints masteries))).

End Aggregator.

(** ** [sort.Slice] on short slices *)

Module GoSort.

Section Insertion.
Context {A : Type}.
Variable less : A -> A -> bool.

(** [for j := i; j > a && less(j, j-1); j-- { swap(j, j-1) }]: the new
    element moves towards the front while it is less than its left
    neighbour.  [before] is the part already sorted, nearest neighbour
    first. *)
Fixpoint sink (x : A) (before : list A) : list A :=
  match before with
  | [] => [x]
  | y :: rest => if less x y then y :: sink x rest else x :: before
  end.

(** The insertion sort that [sort.Slice] runs on slices of at most 12
    elements. *)
Definition insertionSort (l : list A) : list A :=
  rev (fold_left (fun before x => sink x before) l []).

End Insertion.

End GoSort.

(** ** Team balancing on predicted scores: [BalanceTeams] *)

Module Skill.

Definition MaxFloat64 : float := 0x1.fffffffffffffp+1023%float.

Section Balance.
(** [Predict] stands for [model.Predict]: the model does not change
    during a call, so the score is a function of the player. *)
Context {Player : Type}.
Variable Predict : Player -> float.
(** [sort.Slice(arr, func(i, j int) bool { return arr[i].s > arr[j].s })] *)
Variable sortSlice : list (Player * float) -> list (Player * float).

Record Split : Type := mkSplit {
  teamA : list Player;
  teamB : list Player;
  sumA : float;
  sumB : float
}.

Definition toA (p : Player) (t : Split) : Split :=
  mkSplit (teamA t ++ [p]) (teamB t) (PrimFloat.add (sumA t) (Predict p))
          (sumB t).
Definition toB (p : Player) (t : Split) : Split :=
  mkSplit (teamA t) (teamB t ++ [p]) (sumA t)
          (PrimFloat.add (sumB t) (Predict p)).

Definition empty : Split := mkSplit [] [] 0%float 0%float.

(** The loop over the players for one choice of team A; [sel i] tells
    whether the player at position [i] is chosen. *)
Fixpoint splitFrom (sel : Z -> bool) (i : Z) (players : list Player)
         (t : Split) : Split :=
  match players with
  | [] => t
  | p :: rest =>
    splitFrom sel (i + 1) rest (if sel i then toA p t else toB p t)
  end.

Definition splitWith (sel : Z -> bool) (players : list Player) : Split :=
  splitFrom sel 0 players empty.

(** [mask&(1<<i) != 0] *)
Definition splitBy (mask : Z) (players : list Player) : Split :=
  splitWith (Z.testbit mask) players.

Definition sameSize (t : Split) : bool :=
  Nat.eqb (List.length (teamA t)) (List.length (teamB t)).

(** [math.Abs(sumA - sumB)] *)
Definition diffOf (t : Split) : float :=
  PrimFloat.abs (PrimFloat.sub (sumA t) (sumB t)).

(** The body of the loop over the masks. *)
Definition consider (players : list Player)
           (best : float * list Player * list Player) (mask : Z)
  : float * list Player * list Player :=
  let '(bestDiff, bestA, bestB) := best in
  let t := splitBy mask players in
  if negb (sameSize t) then best
  else
    let diff := diffOf t in
    if PrimFloat.ltb diff bestDiff then (diff, teamA t, teamB t) else best.

(** [for mask := 0; mask < 1<<n; mask++] *)
Definition masks (n : nat) : list Z := map Z.of_nat (seq 0 (2 ^ n)).

Definition exactSearch (players : list Player)
  : float * list Player * list Player :=
  fold_left (consider players) (masks (List.length players))
            (MaxFloat64, [], []).

(** The second half of [BalanceTeams]: sort by score, highest first, then
    hand each player to team A when [sumA <= sumB] and to team B
    otherwise. *)
Definition hand (t : Split) (a : Player * float) : Split :=
  if PrimFloat.leb (sumA t) (sumB t)
  then mkSplit (teamA t ++ [fst a]) (teamB t)
               (PrimFloat.add (sumA t) (snd a)) (sumB t)
  else mkSplit (teamA t) (teamB t ++ [fst a]) (sumA t)
               (PrimFloat.add (sumB t) (snd a)).

Definition greedySplit (players : list Player) : Split :=
  let arr := sortSlice (map (fun p => (p, Predict p)) players) in
  fold_left hand arr empty.

Definition BalanceTeams (players : list Player)
  : list Player * list Player :=
  let n := List.length players in
  let greedy := greedySplit players in
  if (n <=? 10)%nat then
    let '(_, bestA, bestB) := exactSearch players in
    if (0 <? List.length bestA)%nat then (bestA, bestB)
    else (teamA greedy, teamB greedy)
  else (teamA greedy, teamB greedy).

End Balance.

(** The comparison handed to [sort.Slice]. *)
Definition higherScore {Player : Type} (a b : Player * float) : bool :=
  PrimFloat.ltb (snd b) (snd a).

(** A player reduced to a name and a predicted score. *)
Record Rated : Type := mkRated { ident : string; rating : float }.

(** *** The greedy strategy in the words of the specification *)

Section Greedy.
Context {Player : Type}.
Variable Predict : Player -> float.

(** The score sum of a team: the scores of its members, added up from
    zero in the order in which they joined. *)
Definition scoreSum (team : list Player) : float :=
  fold_left (fun s p => PrimFloat.add s (Predict p)) team 0%float.

(** Each successive player of [sorted] goes to the team whose score sum is
    lower at that moment, and to team A when the two sums are level. *)
Fixpoint lowerSumFirst (sorted A B : list Player)
  : list Player * list Player :=
  match sorted with
  | [] => (A, B)
  | p :: rest =>
    if PrimFloat.ltb (scoreSum A) (scoreSum B)
       || PrimFloat.eqb (scoreSum A) (scoreSum B)
    then lowerSumFirst rest (A ++ [p]) B
    else lowerSumFirst rest A (B ++ [p])
  end.

End Greedy.

End Skill.

(** ** Team split of the collector and of the web service *)

Module TeamSplit.

(** The entries of [allPlayerData] the split reads. *)
Record PlayerData : Type := mkPlayerData {
  name : string;
  skill_score : Z;
  main_lanes : list string
}.

(** The comparison handed to [sort.Slice]. *)
Definition higherSkill (a b : PlayerData) : bool :=
  skill_score a >? skill_score b.

Record Teams : Type := mkTeams {
  teamA : list PlayerData;
  teamB : list PlayerData;
  sumA : Z;
  sumB : Z
}.

(** [for i, p := range allPlayerData { if i%2 == 0 { ... } else { ... } }] *)
Fixpoint alternate (i : Z) (sorted : list PlayerData) (t : Teams) : Teams :=
  match sorted with
  | [] => t
  | p :: rest =>
    alternate (i + 1) rest
      (if GoInt.rem i 2 =? 0
       then mkTeams (teamA t ++ [p]) (teamB t)
                    (GoInt.add (sumA t) (skill_score p)) (sumB t)
       else mkTeams (teamA t) (teamB t ++ [p]) (sumA t)
                    (GoInt.add (sumB t) (skill_score p)))
  end.

(** Sort by skill, highest first, then deal the players out in turn. *)
Definition teamSplit (sortSlice : list PlayerData -> list PlayerData)
           (allPlayerData : list PlayerData) : Teams :=
  alternate 0 (sortSlice allPlayerData) (mkTeams [] [] 0 0).

(** Every other player of a list, from the first one on ([true]) or from
    the second one on ([false]). *)
Fixpoint deal (first : bool) (l : list PlayerData) : list PlayerData :=
  match l with
  | [] => []
  | p :: rest => if first then p :: deal false rest else deal true rest
  end.

Definition skillSum (l : list PlayerData) (from : Z) : Z :=
  fold_left (fun s p => GoInt.add s (skill_score p)) l from.

(** *** Lane-unique split of ten players *)

Definition nobody : PlayerData := mkPlayerData "" 0 [].

Definition playerAt (all : list PlayerData) (idx : nat) : PlayerData :=
  nth idx all nobody.

(** [used[lane]] on a [map[string]bool] kept as the list of its true keys. *)
Definition used (lane : string) (m : list string) : bool :=
  existsb (String.eqb lane) m.

(** [for _, lane := range playerLanes[idx] { if !used[lane] { ...; break } }] *)
Fixpoint firstFree (lanes : list string) (m : list string) : option string :=
  match lanes with
  | [] => None
  | lane :: rest => if used lane m then firstFree rest m else Some lane
  end.

(** [roles[i] = lane] *)
Fixpoint setAt (i : nat) (lane : string) (roles : list string) : list string :=
  match roles, i with
  | [], _ => []
  | _ :: rest, O => lane :: rest
  | r :: rest, S i' => r :: setAt i' lane rest
  end.

(** The lane assignment of one team: its members in order, each taking the
    first of its lanes not yet used in the team; the loop breaks at the
    first member left without a lane.  Gives back [ok] and the roles. *)
Fixpoint assign (all : list PlayerData) (members : list nat) (i : nat)
         (m : list string) (roles : list string) : bool * list string :=
  match members with
  | [] => (true, roles)
  | idx :: rest =>
    match firstFree (main_lanes (playerAt all idx)) m with
    | Some lane => assign all rest (S i) (lane :: m) (setAt i lane roles)
    | None => (false, roles)
    end
  end.

(** [inA]: the linear search of [idx] in [acc]. *)
Definition inA (idx : nat) (acc : list nat) : bool :=
  existsb (Nat.eqb idx) acc.

(** The members of [arr] that are not in [acc]. *)
Definition others (arr acc : list nat) : list nat :=
  filter (fun idx => negb (inA idx acc)) arr.

Definition total (all : list PlayerData) (members : list nat) : Z :=
  fold_left (fun s idx => GoInt.add s (skill_score (playerAt all idx)))
            members 0.

Record Best : Type := mkBest {
  minDiff : Z;
  bestA : list nat;
  bestB : list nat;
  bestAroles : list string;
  bestBroles : list string
}.

(** What [comb] does once [acc] holds five players.  Team B is read off
    [arr], the argument of this very call. *)
Definition leaf (all : list PlayerData) (arr acc : list nat) (best : Best)
  : Best :=
  let '(okA, rolesA) := assign all acc 0 [] (repeat "" 5) in
  let '(okB, rolesB) := assign all (others arr acc) 0 [] (repeat "" 5) in
  if okA && okB then
    let sumA := total all acc in
    let sumB := total all (others arr acc) in
    let diff := GoInt.sub sumA sumB in
    let diff := if diff <? 0 then GoInt.neg diff else diff in
    if diff <? minDiff best
    then mkBest diff acc (others arr acc) rolesA rolesB
    else best
  else best.

Fixpoint comb (all : list PlayerData) (arr : list nat) (n : Z)
         (acc : list nat) (best : Best) : Best :=
  if Nat.eqb (List.length acc) 5 then leaf all arr acc best
  else if n =? 0 then best
  else
    match arr with
    | [] => best
    | x :: rest =>
      let best := comb all rest (n - 1) (acc ++ [x]) best in
      comb all rest n acc best
    end.

(** [comb] as the earlier collector has it, without the test for an empty
    [arr]: there [arr[1:]] panics ([None]). *)
Fixpoint combEarlier (all : list PlayerData) (arr : list nat) (n : Z)
         (acc : list nat) (best : Best) : option Best :=
  if Nat.eqb (List.length acc) 5 then Some (leaf all arr acc best)
  else if n =? 0 then Some best
  else
    match arr with
    | [] => None
    | x :: rest =>
      match combEarlier all rest (n - 1) (acc ++ [x]) best with
      | Some best' => combEarlier all rest n acc best'
      | None => None
      end
    end.

Record Entry : Type := mkEntry {
  Name : string;
  Role : string;
  Skill : Z
}.

Inductive LaneUnique : Type :=
| NotTen                                   (* the roster is not of ten *)
| NoSplit                                  (* nothing to show *)
| Found (outA outB : list Entry) (sumA sumB : Z).

Definition entries (all : list PlayerData) (members : list nat)
           (roles : list string) : list Entry :=
  map (fun ir => mkEntry (name (playerAt all (fst ir))) (snd ir)
                         (skill_score (playerAt all (fst ir))))
      (combine members roles).

(** The lane-unique block, on the roster as sorted for the team split. *)
Definition laneUnique (all : list PlayerData) : LaneUnique :=
  if Nat.eqb (List.length all) 10 then
    let indices := seq 0 10 in
    let best := comb all indices 5 [] (mkBest (2 ^ 30) [] [] [] []) in
    if Nat.eqb (List.length (bestA best)) 5
       && Nat.eqb (List.length (bestB best)) 5
    then Found (entries all (bestA best) (bestAroles best))
               (entries all (bestB best) (bestBroles best))
               (total all (bestA best)) (total all (bestB best))
    else NoSplit
  else NotTen.

(** *** The lane-unique split in the words of the specification

    Team A ranges over all choices of five of the ten players and team B
    is the other five. *)
Fixpoint choose (k : nat) (l : list nat) : list (list nat) :=
  match k, l with
  | O, _ => [[]]
  | S _, [] => []
  | S k', x :: rest => map (cons x) (choose k' rest) ++ choose k rest
  end.

Definition absDiff (all : list PlayerData) (a b : list nat) : Z :=
  Z.abs (total all a - total all b).

Definition feasible (all : list PlayerData) (a b : list nat) : bool :=
  fst (assign all a 0 [] (repeat "" 5))
  && fst (assign all b 0 [] (repeat "" 5)).

(** The feasible splits of the ten players. *)
Definition feasibleSplits (all : list PlayerData)
  : list (list nat * list nat) :=
  filter (fun ab => feasible all (fst ab) (snd ab))
         (map (fun a => (a, others (seq 0 10) a)) (choose 5 (seq 0 10))).

End TeamSplit.

(** ** The linear model of the [skill] package *)

Module SkillModel.

(** [float64(x)] for an [int]: the nearest [float64], ties to even. *)
Definition ofInt (x : Z) : float :=
  if x =? GoInt.minInt then (-0x1p63)%float
  else if x <? 0 then PrimFloat.opp (PrimFloat.of_uint63 (Uint63.of_Z (- x)))
  else PrimFloat.of_uint63 (Uint63.of_Z x).

Record PlayerFeatures : Type := mkPlayerFeatures {
  Tier : Z;
  Rank : Z;
  LP : Z;
  WinRate : float;
  SummonerLevel : Z;
  AvgKDA : float;
  CSPerMin : float;
  GoldPerMin : float;
  VisionPerMin : float;
  DamagePerMin : float;
  KillParticipation : float;
  TeamDamagePct : float;
  ObjectiveRate : float;
  TakedownsFirst25 : float;
  SoloKills : float;
  MasteryScores : float * float * float;             (* [3]float64 *)
  LaneDistribution : float * float * float * float * float  (* [5]float64 *)
}.

Definition Vector (p : PlayerFeatures) : list float :=
  let '(m0, m1, m2) := MasteryScores p in
  let '(d0, d1, d2, d3, d4) := LaneDistribution p in
  [ ofInt (Tier p); ofInt (Rank p); ofInt (LP p); WinRate p;
    ofInt (SummonerLevel p); AvgKDA p; CSPerMin p; GoldPerMin p;
    VisionPerMin p; DamagePerMin p; KillParticipation p; TeamDamagePct p;
    ObjectiveRate p; TakedownsFirst25 p; SoloKills p ]
  ++ [m0; m1; m2] ++ [d0; d1; d2; d3; d4].

Record SkillModel : Type := mkSkillModel {
  Weights : list float;
  Bias : float
}.

(** [for i := range a { s += a[i] * b[i] }]: reading [b[i]] past the end of
    [b] panics ([None]).  Product and sum are rounded one after the other. *)
Fixpoint dotFrom (s : float) (a b : list float) : option float :=
  match a with
  | [] => Some s
  | x :: a' =>
    match b with
    | [] => None
    | y :: b' => dotFrom (PrimFloat.add s (PrimFloat.mul x y)) a' b'
    end
  end.

Definition dot (a b : list float) : option float := dotFrom 0%float a b.

Definition Predict (m : SkillModel) (p : PlayerFeatures) : option float :=
  if Nat.eqb (List.length (Weights m)) 0 then Some 0%float
  else match dot (Weights m) (Vector p) with
       | Some s => Some (PrimFloat.add s (Bias m))
       | None => None
       end.

(** [for j := 0; j < dim; j++ { gradW[j] += diff * x[j] }], with
    [dim = len(gradW)]. *)
Fixpoint addScaled (diff : float) (gradW x : list float)
  : option (list float) :=
  match gradW with
  | [] => Some []
  | g :: gradW' =>
    match x with
    | [] => None
    | xj :: x' =>
      match addScaled diff gradW' x' with
      | Some rest => Some (PrimFloat.add g (PrimFloat.mul diff xj) :: rest)
      | None => None
      end
    end
  end.

(** The loop over the players of one epoch; [labels[idx]] past the end
    panics. *)
Fixpoint gradients (w : list float) (b : float)
         (players : list PlayerFeatures) (labels : list float)
         (grad : list float * float) : option (list float * float) :=
  match players with
  | [] => Some grad
  | p :: players' =>
    match labels with
    | [] => None
    | y :: labels' =>
      let x := Vector p in
      match dot w x with
      | None => None
      | Some d =>
        let pred := PrimFloat.add d b in
        let diff := PrimFloat.sub pred y in
        match addScaled diff (fst grad) x with
        | None => None
        | Some gradW =>
          gradients w b players' labels'
                    (gradW, PrimFloat.add (snd grad) diff)
        end
      end
    end
  end.

Definition lr : float := 0x1.0c6f7a0b5ed8dp-20%float.   (* 0.000001 *)

(** [for j := 0; j < dim; j++ { w[j] -= lr * gradW[j] / n }] *)
Fixpoint descend (n : float) (w gradW : list float) : option (list float) :=
  match w with
  | [] => Some []
  | wj :: w' =>
    match gradW with
    | [] => None
    | g :: gradW' =>
      match descend n w' gradW' with
      | Some rest =>
        Some (PrimFloat.sub wj (PrimFloat.div (PrimFloat.mul lr g) n) :: rest)
      | None => None
      end
    end
  end.

Definition epoch (dim : nat) (n : float) (players : list PlayerFeatures)
           (labels : list float) (wb : list float * float)
  : option (list float * float) :=
  let '(w, b) := wb in
  match gradients w b players labels (repeat 0%float dim, 0%float) with
  | None => None
  | Some (gradW, gradB) =>
    match descend n w gradW with
    | None => None
    | Some w' =>
      Some (w', PrimFloat.sub b (PrimFloat.div (PrimFloat.mul lr gradB) n))
    end
  end.

Fixpoint runEpochs (k : nat) (dim : nat) (n : float)
         (players : list PlayerFeatures) (labels : list float)
         (wb : list float * float) : option (list float * float) :=
  match k with
  | O => Some wb
  | S k' =>
    match epoch dim n players labels wb with
    | None => None
    | Some wb' => runEpochs k' dim n players labels wb'
    end
  end.

(** [TrainLinear]; [None] is a panic. *)
Definition TrainLinear (players : list PlayerFeatures) (labels : list float)
  : option SkillModel :=
  match players with
  | [] => Some (mkSkillModel [] 0%float)
  | first :: _ =>
    if negb (Nat.eqb (List.length players) (List.length labels))
    then Some (mkSkillModel [] 0%float)
    else
      let dim := List.length (Vector first) in
      let n := ofInt (Z.of_nat (List.length players)) in
      match runEpochs 1000 dim n players labels (repeat 0%float dim, 0%float) with
      | Some (w, b) => Some (mkSkillModel w b)
      | None => None
      end
  end.

End SkillModel.

(** ** The pass over the match details: champions, lanes, ranked games *)

Module Collector.

Record Participant : Type := mkParticipant {
  PUUID : string;
  ChampionID : Z;
  TeamPosition : string;
  Win : bool
}.

Record MatchDetail : Type := mkMatchDetail {
  QueueID : Z;
  Participants : list Participant
}.

(** [m[k]++] on a Go map kept as the list of its entries: a missing key
    starts from the zero value. *)
Fixpoint bump {K : Type} (eqb : K -> K -> bool) (k : K) (m : list (K * Z))
  : list (K * Z) :=
  match m with
  | [] => [(k, GoInt.add 0 1)]
  | (k', v) :: rest =>
    if eqb k k' then (k', GoInt.add v 1) :: rest
    else (k', v) :: bump eqb k rest
  end.

Record Tally : Type := mkTally {
  championCount : list (Z * Z);
  laneCount : list (string * Z);
  rankedCount : Z;
  rankedWin : Z
}.

Definition noTally : Tally := mkTally [] [] 0 0.

(** The two tests on the queue that end in [continue]: the match counts
    when neither fires. *)
Definition counted (q : Z) : bool :=
  negb ((q =? 1700) || (q =? 490) || (q =? 450))
  && negb (negb (q =? 400) && negb (q =? 430) && negb (q =? 420)).

(** The body of the loop over the participants of a counted match. *)
Definition tallyParticipant (puuid : string) (q : Z) (t : Tally)
           (p : Participant) : Tally :=
  if String.eqb (PUUID p) puuid then
    let lane := if String.eqb (TeamPosition p) "" then "UNKNOWN"
                else TeamPosition p in
    let cc := bump Z.eqb (ChampionID p) (championCount t) in
    let lc := bump String.eqb lane (laneCount t) in
    if q =? 420 then
      mkTally cc lc (GoInt.add (rankedCount t) 1)
              (if Win p then GoInt.add (rankedWin t) 1 else rankedWin t)
    else mkTally cc lc (rankedCount t) (rankedWin t)
  else t.

(** One turn of the loop over the match ids; [None] is a match whose
    details could not be had (the loop [continue]s). *)
Definition tallyMatch (puuid : string) (t : Tally)
           (detail : option MatchDetail) : Tally :=
  match detail with
  | None => t
  | Some d =>
    if counted (QueueID d)
    then fold_left (tallyParticipant puuid (QueueID d)) (Participants d) t
    else t
  end.

Definition firstPass (puuid : string) (details : list (option MatchDetail))
  : Tally :=
  fold_left (tallyMatch puuid) details noTally.

(** *** Main lanes and sub lanes *)

(** The comparison handed to [sort.Slice]. *)
Definition moreGames {K : Type} (a b : K * Z) : bool := snd a >? snd b.

(** [range] stands for the order in which Go walks the map, [sortSlice]
    for [sort.Slice] with [moreGames]. *)
Definition laneStats (range sortSlice : list (string * Z) -> list (string * Z))
           (t : Tally) : list (string * Z) :=
  sortSlice (range (laneCount t)).

(** [for i := 0; i < 2 && i < len(laneStats); i++] *)
Definition mainLanes (stats : list (string * Z)) : list string :=
  map fst (firstn 2 stats).

(** [for i := 2; i < 4 && i < len(laneStats); i++] *)
Definition subLanes (stats : list (string * Z)) : list string :=
  map fst (firstn 2 (skipn 2 stats)).

(** *** Number of matches looked at *)

(** [MATCH_LIMIT]: 10 unless the variable holds a positive integer. *)
Definition envLimit (ml : string) : Z :=
  if String.eqb ml "" then 10
  else match Executor.Atoi ml with
       | Some n => if n >? 0 then n else 10
       | None => 10
       end.

(** Command-line collector: [if len(matchIDs) < maxMatches { maxMatches =
    len(matchIDs) }]. *)
Definition maxMatches (ml : string) (matchIDs : Z) : Z :=
  let maxMatches := envLimit ml in
  if matchIDs <? maxMatches then matchIDs else maxMatches.

(** Web service: [if matchLimit <= 0 || matchLimit > len(matchIDs)
    { matchLimit = len(matchIDs) }]; the variable is the parameter of
    [analyze] and lives on from one player to the next. *)
Definition clampLimit (matchLimit matchIDs : Z) : Z :=
  if (matchLimit <=? 0) || (matchLimit >? matchIDs) then matchIDs
  else matchLimit.

(** The limit each player of a request is analysed with, given the lengths
    of their match lists. *)
Fixpoint limitsUsed (matchLimit : Z) (lengths : list Z) : list Z :=
  match lengths with
  | [] => []
  | n :: rest =>
    let matchLimit := clampLimit matchLimit n in
    matchLimit :: limitsUsed matchLimit rest
  end.

(** The [/analyze] handler: [if req.MatchLimit > 0 { matchLimit =
    req.MatchLimit }].  [matchLimit] is a variable of [main] captured by the
    handler, so what a request sets is still there for the next one. *)
Definition serveLimit (matchLimit reqLimit : Z) : Z :=
  if reqLimit >? 0 then reqLimit else matchLimit.

(** The limits successive requests are analysed with. *)
Fixpoint served (matchLimit : Z) (reqLimits : list Z) : list Z :=
  match reqLimits with
  | [] => []
  | r :: rest =>
    let matchLimit := serveLimit matchLimit r in
    matchLimit :: served matchLimit rest
  end.

(** *** Main champions (web service) *)

(** [_, ok := champSet[name]]: the set always holds the names appended so
    far. *)
Definition seen (name : string) (acc : list string) : bool :=
  existsb (String.eqb name) acc.

(** [for i := 0; i < len(ids) && len(acc) < cap; i++ { name :=
    championIDToName[ids[i]]; if name != "" { if _, ok := champSet[name];
    !ok { acc = append(acc, name); champSet[name] = struct{}{} } } }] *)
Fixpoint collect (championIDToName : list (Z * string)) (cap : nat)
         (ids : list Z) (acc : list string) : list string :=
  match ids with
  | [] => acc
  | id :: rest =>
    if (List.length acc <? cap)%nat then
      let name := RankScale.lookupStr championIDToName id in
      collect championIDToName cap rest
              (if negb (String.eqb name "") && negb (seen name acc)
               then acc ++ [name] else acc)
    else acc
  end.

(** [masteries] is [None] when the mastery request or its decoding failed;
    [sortMastery] and [sortUsage] stand for the two calls of [sort.Slice],
    [range] for the walk over the map [championCount]. *)
Definition mainChamps
           (sortMastery : list Aggregator.Mastery -> list Aggregator.Mastery)
           (range sortUsage : list (Z * Z) -> list (Z * Z))
           (championIDToName : list (Z * string))
           (masteries : option (list Aggregator.Mastery))
           (championCount : list (Z * Z)) : list string :=
  let fromMastery :=
    match masteries with
    | Some ms =>
      collect championIDToName 3
              (map Aggregator.ChampionID (sortMastery ms)) []
    | None => []
    end in
  if (List.length fromMastery <? 6)%nat
  then collect championIDToName 6 (map fst (sortUsage (range championCount)))
               fromMastery
  else fromMastery.

(** [getLaneChampions(lane)]; [laneChamps] is [laneChampCount[lane]] and
    [masteries] the slice filled by the first mastery request (empty when
    it failed). *)
Definition getLaneChampions
           (sortMastery : list Aggregator.Mastery -> list Aggregator.Mastery)
           (range sortUsage : list (Z * Z) -> list (Z * Z))
           (championIDToName : list (Z * string))
           (masteries : list Aggregator.Mastery)
           (laneChamps : list (Z * Z)) : list string :=
  let result :=
    collect championIDToName 3 (map fst (sortUsage (range laneChamps))) [] in
  if (List.length result <? 3)%nat && (0 <? List.length masteries)%nat
  then collect championIDToName 3
               (map Aggregator.ChampionID (sortMastery masteries)) result
  else result.

End Collector.

(** ** The web service around [analyze] *)

Module WebService.

(** *** [clientIP] *)

(** Of a request the function reads two headers ([Header.Get] gives the
    empty string for an absent header) and the remote address. *)
Record Request : Type := mkRequest {
  XForwardedFor : string;
  XRealIP : string;
  RemoteAddr : string
}.

(** [strings.Split(s, ",")[0]]: what comes before the first comma. *)
Fixpoint beforeComma (s : string) : string :=
  match s with
  | EmptyString => EmptyString
  | String c rest =>
    if Ascii.eqb c ","%char then EmptyString else String c (beforeComma rest)
  end.

Definition clientIP (r : Request) : string :=
  if negb (String.eqb (XForwardedFor r) "") then beforeComma (XForwardedFor r)
  else if negb (String.eqb (XRealIP r) "") then XRealIP r
  else RemoteAddr r.

(** *** [loggingResponseWriter] *)

Record loggingResponseWriter : Type := mkLogging {
  status : Z;
  nbytes : Z
}.

(** What a handler does with the writer; [n] is the count the wrapped
    [ResponseWriter] gives back. *)
Inductive Call : Type :=
| WriteHeader (code : Z)
| Write (n : Z).

Definition call (lw : loggingResponseWriter) (c : Call)
  : loggingResponseWriter :=
  match c with
  | WriteHeader code => mkLogging code (nbytes lw)
  | Write n =>
    mkLogging (if status lw =? 0 then 200 else status lw)
              (GoInt.add (nbytes lw) n)
  end.

(** [lw := &loggingResponseWriter{ResponseWriter: w}], then the calls of
    the handler. *)
Definition logged (calls : list Call) : loggingResponseWriter :=
  fold_left call calls (mkLogging 0 0).

(** *** The roster in [analyze] *)

(** [type Player struct { GameName, TagLine string }], an entry of the
    request. *)
Record Player : Type := mkPlayer {
  GameName : string;
  TagLine : string
}.

(** The URLs [analyze] builds with [fmt.Sprintf] from the names of the
    request and from what the replies hold. *)
Definition accountURL (p : Player) : string :=
  ("https://asia.api.riotgames.com/riot/account/v1/accounts/by-riot-id/"
   ++ GameName p ++ "/" ++ TagLine p)%string.
Definition matchListURL (puuid : string) : string :=
  ("https://asia.api.riotgames.com/lol/match/v5/matches/by-puuid/"
   ++ puuid ++ "/ids?start=0&count=100")%string.
Definition detailURL (mid : string) : string :=
  ("https://asia.api.riotgames.com/lol/match/v5/matches/" ++ mid)%string.
Definition rankURL (puuid : string) : string :=
  ("https://jp1.api.riotgames.com/lol/league/v4/entries/by-puuid/"
   ++ puuid)%string.
Definition masteryURL (puuid : string) : string :=
  ("https://jp1.api.riotgames.com/lol/champion-mastery/v4/"
   ++ "champion-masteries/by-puuid/" ++ puuid)%string.

(** What the body of the loop over the players reads: the entry of the
    request, the two requests that can end the analysis with an error, and
    what decides which later requests are built. *)
Record PlayerRun : Type := mkPlayerRun {
  player : Player;
  account : option Executor.Response * option Z;
  accountDecodes : bool;
  puuid : string;                 (* [account.PUUID] *)
  matchList : option Executor.Response * option Z;
  matchListDecodes : bool;
  matchIDs : list string;
  (* for each match id in turn, the details decoded from a 200; [None]
     where the loop [continue]s *)
  details : list (option Collector.MatchDetail);
  data : TeamSplit.PlayerData     (* the entry appended to [allPlayerData] *)
}.

Inductive PlayerOutcome : Type :=
| Missing                              (* account 404: [continue] *)
| Broken                               (* [return nil, err] *)
| Panics                               (* [req.Header.Set] on a nil request *)
| Analysed (pd : TeamSplit.PlayerData).

(** [puuidSet]: the participants of the counted matches among those looked
    at. *)
Definition puuidSet (looked : list (option Collector.MatchDetail))
  : list string :=
  flat_map (fun detail =>
              match detail with
              | Some d =>
                if Collector.counted (Collector.QueueID d)
                then map Collector.PUUID (Collector.Participants d)
                else []
              | None => []
              end) looked.

Inductive Gathered : Type :=
| Returned                             (* the loop returned an error *)
| Panicked
| Collected (allPlayerData : list TeamSplit.PlayerData).

Inductive Result : Type :=
| Error
| Panic
| Ok (teams : TeamSplit.Teams) (lane_unique : TeamSplit.LaneUnique).

Section Analyze.
(** [req, _ := http.NewRequestWithContext(ctx, "GET", url, nil)] gives a nil
    request when [url] does not parse, as with a name that holds a control
    character or a percent sign that starts no escape.  [analyze] drops the
    error and calls [req.Header.Set], which panics on a nil request.
    [newRequest url] tells whether a request comes back.  The URL of the
    champion names is a constant that parses. *)
Variable newRequest : string -> bool.
Variable sortSlice : list TeamSplit.PlayerData -> list TeamSplit.PlayerData.

(** The body of the loop over the players, entered with [matchLimit]. *)
Definition outcome (matchLimit : Z) (run : PlayerRun) : PlayerOutcome :=
  if negb (newRequest (accountURL (player run))) then Panics
  else
    match Executor.webAccountSite (fst (account run)) (snd (account run)) with
    | Executor.SkipPlayer => Missing
    | Executor.Proceed =>
      if negb (accountDecodes run) then Broken
      else if negb (newRequest (matchListURL (puuid run))) then Panics
      else
        match Executor.webMatchListSite (fst (matchList run))
                                        (snd (matchList run)) with
        | Executor.Proceed =>
          if negb (matchListDecodes run) then Broken
          else
            let matchLimit :=
              Collector.clampLimit matchLimit
                                   (Z.of_nat (List.length (matchIDs run))) in
            let asked := firstn (Z.to_nat matchLimit) (matchIDs run) in
            let looked := firstn (Z.to_nat matchLimit) (details run) in
            if negb (forallb newRequest (map detailURL asked)) then Panics
            else if negb (newRequest (rankURL (puuid run))) then Panics
            else if negb (newRequest (masteryURL (puuid run))) then Panics
            else if negb (forallb newRequest (map rankURL (puuidSet looked)))
            then Panics
            else Analysed (data run)
        | _ => Broken
        end
    | _ => Broken
    end.

(** The loop over the players; [matchLimit] is the parameter of [analyze],
    which the body of a player overwrites once the match list is decoded. *)
Fixpoint gather (matchLimit : Z) (runs : list PlayerRun)
         (allPlayerData : list TeamSplit.PlayerData) : Gathered :=
  match runs with
  | [] => Collected allPlayerData
  | run :: rest =>
    match outcome matchLimit run with
    | Missing => gather matchLimit rest allPlayerData
    | Broken => Returned
    | Panics => Panicked
    | Analysed pd =>
      gather (Collector.clampLimit matchLimit
                                   (Z.of_nat (List.length (matchIDs run))))
             rest (allPlayerData ++ [pd])
    end
  end.

Definition analyze (matchLimit : Z) (runs : list PlayerRun) : Result :=
  if (List.length runs <? 2)%nat then Error
  else
    match gather matchLimit runs [] with
    | Returned => Error
    | Panicked => Panic
    | Collected allPlayerData =>
      Ok (TeamSplit.teamSplit sortSlice allPlayerData)
         (TeamSplit.laneUnique (sortSlice allPlayerData))
    end.

End Analyze.

End WebService.

(* ================================================================== *)
(** * Part II. Properties                                               *)
(* ================================================================== *)

Section GoIntFacts.
Import GoInt.

Lemma wrap_inRange (x : Z) : inRange x -> wrap x = x.
Proof.
  unfold inRange, minInt, maxInt, wrap. intros H.
  rewrite Z.mod_small by lia. lia.
Qed.

Lemma wrap_range (x : Z) : inRange (wrap x).
Proof.
  unfold inRange, minInt, maxInt, wrap.
  pose proof (Z.mod_pos_bound (x + 2 ^ 63) (2 ^ 64) ltac:(lia)). lia.
Qed.

End GoIntFacts.

(** Removes the innermost wrap-arounds whose argument is provably in range. *)
Ltac unwrap_with tac :=
  repeat match goal with
  | |- context [GoInt.wrap ?x] =>
    lazymatch x with
    | context [GoInt.wrap _] => fail
    | _ => rewrite (wrap_inRange x)
             by (unfold GoInt.inRange, GoInt.minInt, GoInt.maxInt; tac)
    end
  end.

Section RankFacts.
Import RankScale.

Example rankScore_gold_ii_50 : rankScore "GOLD" "II" 50 = 1450.
Proof. reflexivity. Qed.

Example scoreToRank_1450 : scoreToRank 1450 = ("GOLD", "II", 50).
Proof. reflexivity. Qed.

(** On a valid tier and division the score is the closed formula, without
    any wrap-around. *)
Lemma rankScore_valid (t d : string) (lp : Z) :
  In t tiers -> In d divisions -> 0 <= lp <= 99 ->
  exists ti di, 1 <= ti <= 10 /\ 1 <= di <= 4 /\
    lookupStr intToTier ti = t /\ lookupStr intToRank di = d /\
    rankScore t d lp = ((ti - 1) * 4 + (di - 1)) * 100 + lp.
Proof.
  intros Ht Hd Hlp. unfold rankScore.
  assert (Hw : forall ti di, 1 <= ti <= 10 -> 1 <= di <= 4 ->
    GoInt.add (GoInt.mul (GoInt.add (GoInt.mul (GoInt.sub ti 1) 4)
                                    (GoInt.sub di 1)) 100) lp
    = ((ti - 1) * 4 + (di - 1)) * 100 + lp).
  { intros ti di Hti Hdi. unfold GoInt.add, GoInt.mul, GoInt.sub.
    unwrap_with nia. reflexivity. }
  simpl in Ht, Hd.
  repeat (destruct Ht as [Ht | Ht]; [subst t |]); try contradiction;
  repeat (destruct Hd as [Hd | Hd]; [subst d |]); try contradiction;
  cbn [lookupInt tierToInt rankToInt String.eqb Ascii.eqb Bool.eqb];
  match goal with
  | |- context [GoInt.sub ?a 1] =>
    match goal with
    | |- context [GoInt.add (GoInt.mul (GoInt.sub a 1) 4) (GoInt.sub ?b 1)] =>
      exists a, b; rewrite Hw by lia;
      repeat split; try lia; reflexivity
    end
  end.
Qed.

Lemma scoreToRank_formula (ti di lp : Z) :
  1 <= ti <= 10 -> 1 <= di <= 4 -> 0 <= lp <= 99 ->
  scoreToRank (((ti - 1) * 4 + (di - 1)) * 100 + lp)
  = (lookupStr intToTier ti, lookupStr intToRank di, lp).
Proof.
  intros Hti Hdi Hlp. unfold scoreToRank.
  set (s := ((ti - 1) * 4 + (di - 1)) * 100 + lp).
  assert (Hs : 0 <= s < 4000) by (unfold s; nia).
  assert (Hq : Z.quot s 400 = ti - 1).
  { rewrite Z.quot_div_nonneg by lia. symmetry.
    apply (Z.div_unique s 400 (ti - 1) ((di - 1) * 100 + lp));
      [left | unfold s]; lia. }
  assert (Hr : Z.rem s 400 = (di - 1) * 100 + lp).
  { rewrite Z.rem_mod_nonneg by lia. symmetry.
    apply (Z.mod_unique s 400 (ti - 1) ((di - 1) * 100 + lp));
      [left | unfold s]; lia. }
  assert (Hq2 : Z.quot ((di - 1) * 100 + lp) 100 = di - 1).
  { rewrite Z.quot_div_nonneg by lia. symmetry.
    apply (Z.div_unique _ 100 (di - 1) lp); [left |]; lia. }
  assert (Hr2 : Z.rem s 100 = lp).
  { rewrite Z.rem_mod_nonneg by lia. symmetry.
    apply (Z.mod_unique s 100 ((ti - 1) * 4 + (di - 1)) lp);
      [left | unfold s]; lia. }
  unfold GoInt.add, GoInt.div, GoInt.rem.
  rewrite Hr2, Hr, Hq, Hq2.
  unwrap_with lia.
  replace (ti - 1 + 1) with ti by lia.
  replace (di - 1 + 1) with di by lia.
  reflexivity.
Qed.

(** C2. For every valid input (one of the ten tiers IRON..CHALLENGER, one of
    the divisions I, II, III, IV, and league points between 0 and 99),
    [scoreToRank (rankScore tier division lp)] is exactly
    [(tier, division, lp)]; in particular [rankScore "GOLD" "II" 50 = 1450]
    and [scoreToRank 1450 = ("GOLD", "II", 50)]. *)
Theorem C2_scoreToRank_rankScore_roundtrip (tier division : string) (lp : Z) :
  In tier tiers -> In division divisions -> 0 <= lp <= 99 ->
  scoreToRank (rankScore tier division lp) = (tier, division, lp)
  /\ rankScore "GOLD" "II" 50 = 1450
  /\ scoreToRank 1450 = ("GOLD", "II", 50).
Proof.
  intros Ht Hd Hlp. split; [| split; reflexivity].
  destruct (rankScore_valid tier division lp Ht Hd Hlp)
    as (ti & di & Hti & Hdi & Et & Ed & Es).
  rewrite Es, scoreToRank_formula by assumption.
  now rewrite Et, Ed.
Qed.

Lemma C2_roundtrip_witness :
  scoreToRank (rankScore "CHALLENGER" "I" 99) = ("CHALLENGER", "I", 99)
  /\ rankScore "GOLD" "II" 50 = 1450
  /\ scoreToRank 1450 = ("GOLD", "II", 50).
Proof.
  apply (C2_scoreToRank_rankScore_roundtrip "CHALLENGER" "I" 99).
  - simpl. repeat (first [left; reflexivity | right]).
  - simpl. repeat (first [left; reflexivity | right]).
  - lia.
Defined.

End RankFacts.

Section LimiterFacts.
Import Clock Limiter.

(** Twenty-one calls arriving together on an otherwise idle clock: twenty
    are recorded at once, the last one only after the first second has
    fully passed. *)
Example burst_of_21 :
  log (calls 3 (fun _ => 0) 21 fresh)
  = repeat 0 20 ++ [1 * Second + 10 * Millisecond].
Proof. vm_compute. reflexivity. Qed.

Lemma prune_split (cutoff : Z) (w : list Z) :
  exists old, w = old ++ prune cutoff w /\ Forall (fun t => t < cutoff) old.
Proof.
  induction w as [| t w IH]; simpl.
  - exists []. split; [reflexivity | constructor].
  - destruct (Z.ltb_spec t cutoff) as [Hlt | Hge].
    + destruct IH as (old & E & Hold). exists (t :: old). split.
      * simpl. now rewrite <- E.
      * now constructor.
    + exists []. split; [reflexivity | constructor].
Qed.

Lemma inWindow_app (lo span : Z) (l1 l2 : list Z) :
  inWindow lo span (l1 ++ l2) = inWindow lo span l1 + inWindow lo span l2.
Proof.
  unfold inWindow, len. rewrite filter_app, length_app. lia.
Qed.

Lemma inWindow_le_len (lo span : Z) (l : list Z) :
  0 <= inWindow lo span l <= len l.
Proof.
  unfold inWindow, len. pose proof (filter_length_le
    (fun t => (lo <=? t) && (t <=? lo + span)) l). lia.
Qed.

Lemma inWindow_old (lo span : Z) (l : list Z) :
  Forall (fun t => t < lo) l -> inWindow lo span l = 0.
Proof.
  unfold inWindow, len. induction 1 as [| t l Ht _ IH]; simpl.
  - reflexivity.
  - destruct (Z.leb_spec lo t); [lia | simpl; exact IH].
Qed.

(** The invariant kept by every turn: at the last reading [m], every logged
    instant is at most [m]; each window still holds every logged instant
    that is not older than its span; and both caps hold on every closed
    window of the log. *)
Record Inv (m : Z) (r : RiotLimiter) (l : list Z) : Prop := mkInv {
  inv_past : Forall (fun t => t <= m) l;
  inv_sec : exists old, l = old ++ secWin r /\
                        Forall (fun t => t < m - 1 * Second) old;
  inv_two : exists old, l = old ++ twoMin r /\
                        Forall (fun t => t < m - 120 * Second) old;
  inv_cap1 : forall lo, inWindow lo (1 * Second) l <= 20;
  inv_cap2 : forall lo, inWindow lo (120 * Second) l <= 100
}.

Lemma Inv_init (m : Z) : Inv m NewRiotLimiter [].
Proof.
  constructor; simpl; try (exists []; split; [reflexivity | constructor]);
    try constructor; intros lo; unfold inWindow, len; simpl; lia.
Qed.

(** Adding the instant [now] to a log whose part inside the span before
    [now] is held by a window [w] shorter than the cap keeps the cap. *)
Lemma cap_after_record (cap span now : Z) (l old w : list Z) :
  0 <= span ->
  l = old ++ w ->
  Forall (fun t => t < now - span) old ->
  Forall (fun t => t <= now) l ->
  len w < cap ->
  (forall lo, inWindow lo span l <= cap) ->
  forall lo, inWindow lo span (l ++ [now]) <= cap.
Proof.
  intros Hspan E Hold Hpast Hlen Hcap lo.
  rewrite inWindow_app.
  assert (Hone : inWindow lo span [now] = 0 \/
                 (inWindow lo span [now] = 1 /\ now <= lo + span)).
  { unfold inWindow, len. simpl.
    destruct (Z.leb_spec lo now); destruct (Z.leb_spec now (lo + span));
      simpl; auto. }
  destruct Hone as [H0 | [H1 Hin]].
  - rewrite H0. specialize (Hcap lo). lia.
  - rewrite H1, E, inWindow_app.
    rewrite (inWindow_old lo span old).
    + pose proof (inWindow_le_len lo span w). lia.
    + eapply Forall_impl; [| exact Hold]. simpl. intros t Ht. lia.
Qed.

Lemma Forall_le_trans (m m' : Z) (l : list Z) :
  m <= m' -> Forall (fun t => t <= m) l -> Forall (fun t => t <= m') l.
Proof. intros H. apply Forall_impl. intros t Ht. lia. Qed.

Lemma Inv_later (m m' : Z) (r : RiotLimiter) (l : list Z) :
  m <= m' -> Inv m r l -> Inv m' r l.
Proof.
  intros Hm [Hpast (o1 & E1 & Ho1) (o2 & E2 & Ho2) Hc1 Hc2].
  constructor; try assumption.
  - eapply Forall_le_trans; eassumption.
  - exists o1. split; [exact E1 |].
    eapply Forall_impl; [| exact Ho1]. simpl. intros t Ht. lia.
  - exists o2. split; [exact E2 |].
    eapply Forall_impl; [| exact Ho2]. simpl. intros t Ht. lia.
Qed.

Lemma turn_Inv (m now : Z) (r : RiotLimiter) (l : list Z) :
  m <= now -> Inv m r l ->
  match turn now r with
  | (r', None) => Inv now r' (l ++ [now])
  | (r', Some _) => Inv now r' l
  end.
Proof.
  intros Hm [Hpast (o1 & E1 & Ho1) (o2 & E2 & Ho2) Hc1 Hc2].
  unfold turn.
  destruct (prune_split (now - 1 * Second) (secWin r)) as (d1 & F1 & Hd1).
  destruct (prune_split (now - 120 * Second) (twoMin r)) as (d2 & F2 & Hd2).
  set (sw := prune (now - 1 * Second) (secWin r)) in *.
  set (tm := prune (now - 120 * Second) (twoMin r)) in *.
  assert (Hpast' : Forall (fun t => t <= now) l)
    by (eapply Forall_le_trans; eassumption).
  assert (G1 : l = (o1 ++ d1) ++ sw)
    by (rewrite <- app_assoc, <- F1; exact E1).
  assert (G2 : l = (o2 ++ d2) ++ tm)
    by (rewrite <- app_assoc, <- F2; exact E2).
  assert (K1 : Forall (fun t => t < now - 1 * Second) (o1 ++ d1)).
  { apply Forall_app. split; [| exact Hd1].
    eapply Forall_impl; [| exact Ho1]. simpl. intros t Ht. lia. }
  assert (K2 : Forall (fun t => t < now - 120 * Second) (o2 ++ d2)).
  { apply Forall_app. split; [| exact Hd2].
    eapply Forall_impl; [| exact Ho2]. simpl. intros t Ht. lia. }
  destruct ((len sw <? 20) && (len tm <? 100)) eqn:Hroom.
  - apply andb_true_iff in Hroom. destruct Hroom as [R1 R2].
    apply Z.ltb_lt in R1. apply Z.ltb_lt in R2.
    constructor; simpl.
    + apply Forall_app. split; [exact Hpast' |].
      constructor; [lia | constructor].
    + exists (o1 ++ d1). split; [| exact K1].
      now rewrite app_assoc, <- G1.
    + exists (o2 ++ d2). split; [| exact K2].
      now rewrite app_assoc, <- G2.
    + eapply (cap_after_record 20 (1 * Second) now l (o1 ++ d1) sw);
        try eassumption. unfold Second; lia.
    + eapply (cap_after_record 100 (120 * Second) now l (o2 ++ d2) tm);
        try eassumption. unfold Second; lia.
  - constructor; simpl; try assumption.
    + exists (o1 ++ d1). now split.
    + exists (o2 ++ d2). now split.
Qed.

Lemma Wait_Inv (lag : Lag) (Hlag : steady lag) (fuel : nat) :
  forall (c : Clock) (r : RiotLimiter) (l : list Z) (s : Z) (w : Waited),
  Inv (base c) r l ->
  Wait fuel lag c r s = Some w ->
  Inv (base (clock w)) (after w) (l ++ [base (clock w)]).
Proof.
  induction fuel as [| fuel IH]; intros c r l s w HI HW; simpl in HW.
  - discriminate.
  - pose proof (Hlag (reads c)) as Hk.
    pose proof (turn_Inv (base c) (base c + lag (reads c)) r l
                  ltac:(lia) HI) as Ht.
    destruct (turn (base c + lag (reads c)) r) as [r' [d |]].
    + eapply IH; [| exact HW].
      eapply Inv_later; [| exact Ht]. simpl. lia.
    + inversion HW; subst; simpl. exact Ht.
Qed.

Lemma calls_Inv (lag : Lag) (Hlag : steady lag) (fuel n : nat) :
  forall s : Run,
  Inv (base (clk s)) (lim s) (log s) ->
  let s' := calls fuel lag n s in
  Inv (base (clk s')) (lim s') (log s').
Proof.
  induction n as [| n IH]; intros s HI; simpl.
  - exact HI.
  - destruct (Wait fuel lag (clk s) (lim s) 0) as [w |] eqn:HW.
    + apply IH. simpl. eapply Wait_Inv; eassumption.
    + exact HI.
Qed.

(** C1. For every sequence of calls of [Wait] on a limiter, whatever the
    arrival pattern (the lags of a monotonic clock), no closed window of one
    second ever holds more than 20 recorded instants and no closed window of
    120 seconds more than 100, both at once; the windows are closed, so the
    bound holds at their boundaries too. *)
Theorem C1_limiter_window_caps (lag : Lag) (fuel n : nat) (lo : Z) :
  steady lag ->
  let l := log (calls fuel lag n fresh) in
  inWindow lo (1 * Second) l <= 20 /\ inWindow lo (120 * Second) l <= 100.
Proof.
  intros Hlag l.
  destruct (calls_Inv lag Hlag fuel n fresh (Inv_init 0)). split; auto.
Qed.

Lemma C1_limiter_witness :
  let l := log (calls 3 (fun _ => 0) 21 fresh) in
  inWindow 0 (1 * Second) l <= 20 /\ inWindow 0 (120 * Second) l <= 100.
Proof.
  apply (C1_limiter_window_caps (fun _ => 0) 3 21 0).
  unfold steady. intros k. lia.
Defined.

(** *** The call returns: at most three turns on any steady clock *)

Record LimOK (m : Z) (r : RiotLimiter) : Prop := mkLimOK {
  ok_sec_past : Forall (fun t => t <= m) (secWin r);
  ok_two_past : Forall (fun t => t <= m) (twoMin r);
  ok_sec_len : len (secWin r) <= 20;
  ok_two_len : len (twoMin r) <= 100
}.

Lemma LimOK_new (m : Z) : LimOK m NewRiotLimiter.
Proof. constructor; simpl; try constructor; unfold len; simpl; lia. Qed.

Lemma LimOK_later (m m' : Z) (r : RiotLimiter) :
  m <= m' -> LimOK m r -> LimOK m' r.
Proof.
  intros Hm [H1 H2 H3 H4].
  constructor; try assumption; eapply Forall_le_trans; eassumption.
Qed.

Lemma prune_len (c : Z) (w : list Z) : len (prune c w) <= len w.
Proof.
  unfold len. induction w as [| t w IH]; simpl; [lia |].
  destruct (t <? c); simpl in *; lia.
Qed.

Lemma prune_Forall (P : Z -> Prop) (c : Z) (w : list Z) :
  Forall P w -> Forall P (prune c w).
Proof.
  induction 1 as [| t w Ht Hw IH]; simpl; [constructor |].
  destruct (t <? c); [exact IH | now constructor].
Qed.

Lemma prune_prune (c c' : Z) (w : list Z) :
  c <= c' -> prune c' (prune c w) = prune c' w.
Proof.
  intros Hc. induction w as [| t w IH]; simpl; [reflexivity |].
  destruct (Z.ltb_spec t c) as [Hlt | Hge].
  - rewrite IH. destruct (Z.ltb_spec t c'); [reflexivity | lia].
  - reflexivity.
Qed.

(** Once the wait owed to a window has gone by, and a moment more, the
    window has room. *)
Lemma window_ready_after (cap span t d : Z) (w : list Z) :
  0 < cap -> 0 <= span <= GoInt.maxInt -> len w <= cap ->
  Forall (fun u => u <= t) w ->
  windowWait cap span t w <= d ->
  forall t', t + d < t' -> len (prune (t' - span) w) < cap.
Proof.
  intros Hcap Hspan Hlen Hpast Hd t' Ht'.
  unfold windowWait in Hd.
  destruct (Z.leb_spec cap (len w)) as [Hfull | Hroom].
  - destruct w as [| h rest].
    + unfold len in *. simpl in *. lia.
    + inversion Hpast as [| ? ? Hh Hrest]; subst. simpl in Hd.
      assert (Hx : h + span - t <= d).
      { unfold Sub, GoInt.minInt, GoInt.maxInt in *.
        destruct (Z.gtb_spec
          (Z.max (- 2 ^ 63) (Z.min (2 ^ 63 - 1) (h + span - t))) 0); lia. }
      simpl. destruct (Z.ltb_spec h (t' - span)); [| lia].
      pose proof (prune_len (t' - span) rest).
      unfold len in *. simpl in *. lia.
  - pose proof (prune_len (t' - span) w). lia.
Qed.

Lemma turn_cases (t : Z) (r : RiotLimiter) :
  let sw := prune (t - 1 * Second) (secWin r) in
  let tm := prune (t - 120 * Second) (twoMin r) in
  (len sw < 20 /\ len tm < 100 /\
   turn t r = (mkLimiter (sw ++ [t]) (tm ++ [t]), None))
  \/ (exists d, turn t r = (mkLimiter sw tm, Some d) /\
        10 * Millisecond <= d /\
        windowWait 20 (1 * Second) t sw <= d /\
        windowWait 100 (120 * Second) t tm <= d).
Proof.
  intros sw tm. unfold turn. fold sw tm.
  destruct ((len sw <? 20) && (len tm <? 100)) eqn:Hroom.
  - left. apply andb_true_iff in Hroom. destruct Hroom as [R1 R2].
    apply Z.ltb_lt in R1. apply Z.ltb_lt in R2. auto.
  - right. eexists. split; [reflexivity |].
    set (w1 := windowWait 20 (1 * Second) t sw).
    set (w2 := windowWait 100 (120 * Second) t tm).
    destruct (Z.gtb_spec w2 w1);
      match goal with
      | |- context [?x <? 10 * Millisecond] =>
        destruct (Z.ltb_spec x (10 * Millisecond))
      end; lia.
Qed.

Lemma turn_LimOK (m t : Z) (r : RiotLimiter) :
  m <= t -> LimOK m r -> LimOK t (fst (turn t r)).
Proof.
  intros Hm HO. apply (LimOK_later m t r Hm) in HO.
  destruct HO as [H1 H2 H3 H4].
  pose proof (prune_len (t - 1 * Second) (secWin r)) as L1.
  pose proof (prune_len (t - 120 * Second) (twoMin r)) as L2.
  destruct (turn_cases t r) as [(R1 & R2 & E) | (d & E & _)]; rewrite E;
    cbn [fst]; constructor; cbn [secWin twoMin].
  - apply Forall_app. split; [now apply prune_Forall |].
    constructor; [lia | constructor].
  - apply Forall_app. split; [now apply prune_Forall |].
    constructor; [lia | constructor].
  - unfold len in *. rewrite length_app. cbn [List.length]. lia.
  - unfold len in *. rewrite length_app. cbn [List.length]. lia.
  - now apply prune_Forall.
  - now apply prune_Forall.
  - lia.
  - lia.
Qed.

Lemma Wait_returns (lag : Lag) (c : Clock) (r : RiotLimiter) (s : Z) :
  steady lag -> LimOK (base c) r ->
  exists w, Wait 3 lag c r s = Some w /\ LimOK (base (clock w)) (after w).
Proof.
  intros Hlag HO.
  assert (HS : 0 <= 1 * Second <= GoInt.maxInt /\
               0 <= 120 * Second <= GoInt.maxInt)
    by (unfold Second, GoInt.maxInt; lia).
  destruct HS as [HS1 HS2].
  cbn [Wait Now].
  set (t0 := base c + lag (reads c)).
  assert (Ht0 : base c <= t0) by (pose proof (Hlag (reads c)); lia).
  pose proof (turn_LimOK _ _ _ Ht0 HO) as HO1.
  destruct (turn_cases t0 r) as [(_ & _ & E0) | (d0 & E0 & Hd0 & Wa & Wb)];
    rewrite E0 in *; cbn [fst] in HO1.
  { eexists. split; [reflexivity | exact HO1]. }
  cbn [Sleep base reads].
  set (t1 := t0 + Z.max 0 d0 + lag (S (reads c))).
  assert (Ht1 : t0 + d0 <= t1)
    by (pose proof (Hlag (S (reads c))); unfold t1; lia).
  assert (Ht01 : t0 <= t1) by (unfold Millisecond in *; lia).
  pose proof (turn_LimOK _ _ _ Ht01 HO1) as HO2.
  destruct HO1 as [P1 P2 L1 L2]. cbn [secWin twoMin] in P1, P2, L1, L2.
  pose proof (window_ready_after 20 _ t0 d0 _ ltac:(lia) HS1 L1 P1 Wa) as Ra.
  pose proof (window_ready_after 100 _ t0 d0 _ ltac:(lia) HS2 L2 P2 Wb) as Rb.
  destruct (turn_cases t1 (mkLimiter (prune (t0 - 1 * Second) (secWin r))
                                     (prune (t0 - 120 * Second) (twoMin r))))
    as [(_ & _ & E1) | (d1 & E1 & Hd1 & _ & _)];
    rewrite E1 in *; cbn [fst] in HO2.
  { eexists. split; [reflexivity | exact HO2]. }
  cbn [Sleep base reads secWin twoMin] in *.
  set (t2 := t1 + Z.max 0 d1 + lag (S (S (reads c)))).
  assert (Ht2 : t0 + d0 < t2 /\ t1 <= t2)
    by (pose proof (Hlag (S (S (reads c)))); unfold t2, Millisecond in *; lia).
  destruct Ht2 as [Ht2 Ht12].
  pose proof (turn_LimOK _ _ _ Ht12 HO2) as HO3.
  match type of HO3 with
  | LimOK _ (fst (turn t2 ?r2)) =>
    destruct (turn_cases t2 r2) as [(_ & _ & E2) | (d2 & E2 & _ & _ & _)];
      [ rewrite E2 in *; eexists; split; [reflexivity | exact HO3] |]
  end.
  exfalso. clear HO3.
  unfold turn in E2. cbn [secWin twoMin] in E2.
  rewrite !prune_prune in E2 by lia.
  specialize (Ra t2 Ht2). specialize (Rb t2 Ht2).
  rewrite prune_prune in Ra, Rb by lia.
  apply Z.ltb_lt in Ra. apply Z.ltb_lt in Rb.
  rewrite Ra, Rb in E2. simpl in E2. discriminate.
Qed.

Lemma Wait_more_fuel (lag : Lag) (fuel : nat) :
  forall (c : Clock) (r : RiotLimiter) (s : Z) (w : Waited),
  Wait fuel lag c r s = Some w -> Wait (S fuel) lag c r s = Some w.
Proof.
  induction fuel as [| fuel IH]; intros c r s w H; [discriminate |].
  cbn [Wait] in H. cbn [Wait]. destruct (Now lag c) as [now c1].
  destruct (turn now r) as [r' [d |]]; [| exact H].
  apply IH in H. exact H.
Qed.

(** Under a single caller [Wait] never starves: with fuel for three turns
    or more it returns, and leaves a well-formed limiter. *)
Lemma Wait_total (lag : Lag) (fuel : nat) (c : Clock) (r : RiotLimiter)
      (s : Z) :
  steady lag -> (3 <= fuel)%nat -> LimOK (base c) r ->
  exists w, Wait fuel lag c r s = Some w /\ LimOK (base (clock w)) (after w).
Proof.
  intros Hlag Hfuel HO.
  destruct (Wait_returns lag c r s Hlag HO) as (w & E & HO').
  exists w. split; [| exact HO'].
  replace fuel with ((fuel - 3) + 3)%nat by lia.
  induction (fuel - 3)%nat as [| k IH]; [exact E |].
  simpl plus. now apply Wait_more_fuel.
Qed.

End LimiterFacts.

Section ExecutorFacts.
Import Clock Limiter Executor.

Variable lag : Lag.
Variable fuel : nat.
Hypothesis lag_steady : steady lag.
Hypothesis fuel_enough : (3 <= fuel)%nat.

(** The limiter of a world is well formed. *)
Definition WOK (w : World) : Prop := LimOK (base (wclock w)) (limiter w).

Lemma WOK_new (n : Z) : WOK (newWorld n).
Proof. apply LimOK_new. Qed.

Lemma attempts_AddRateWait (d : Z) (c : Counters) :
  attempts (AddRateWait d c) = attempts c.
Proof. unfold AddRateWait. now destruct (d >? 0). Qed.

Lemma attempts_Add429Wait (d : Z) (c : Counters) :
  attempts (Add429Wait d c) = attempts c.
Proof. unfold Add429Wait. now destruct (d >? 0). Qed.

(** The limiter always lets the call through, and touches neither the
    sleeps of the executor nor its attempt counter. *)
Lemma enter_total (w : World) :
  WOK w ->
  exists w1, enter fuel lag w = Some w1 /\ WOK w1 /\
             naps w1 = naps w /\
             attempts (counters w1) = attempts (counters w).
Proof.
  intros HO. unfold enter.
  destruct (Wait_total lag fuel (wclock w) (limiter w) 0
              lag_steady fuel_enough HO) as (wt & E & HO').
  rewrite E. eexists. split; [reflexivity |].
  split; [exact HO' |]. split; [reflexivity |].
  cbn [counters]. apply attempts_AddRateWait.
Qed.

Lemma WOK_nap (n : Nap) (w : World) : WOK w -> WOK (nap n w).
Proof.
  unfold WOK, nap. cbn [wclock limiter Sleep base].
  apply LimOK_later. lia.
Qed.

Lemma WOK_count (f : Counters -> Counters) (w : World) :
  WOK w -> WOK (count f w).
Proof. exact (fun H => H). Qed.

Definition stepWorld (s : Step) : World :=
  match s with Again _ w => w | Exit _ _ w => w end.

Lemma giveUpOrBackOff_WOK (skip : bool) (maxRetry : Z) (st : Loop)
      (w : World) :
  WOK w -> WOK (stepWorld (giveUpOrBackOff skip maxRetry st w)).
Proof.
  intros HO. unfold giveUpOrBackOff.
  destruct skip; [exact HO |].
  destruct ((maxRetry >? 0) && (tries st >=? maxRetry)); [exact HO |].
  now apply WOK_nap.
Qed.

Lemma attempt_WOK (skip : bool) (maxRetry : Z) (reply : Reply) (st : Loop)
      (w : World) :
  WOK w -> WOK (stepWorld (attempt skip maxRetry reply st w)).
Proof.
  intros HO. unfold attempt.
  destruct (resp reply) as [r |]; [| now apply giveUpOrBackOff_WOK].
  destruct (negb (failed reply) && (StatusCode r =? 200)); [exact HO |].
  destruct (StatusCode r =? 404); [exact HO |].
  destruct (StatusCode r =? 429).
  - destruct skip; [exact HO |]. now apply WOK_nap.
  - destruct ((500 <=? StatusCode r) && (StatusCode r <? 600));
      now apply giveUpOrBackOff_WOK.
Qed.

(** A reply carrying a 5xx status. *)
Definition serverError (reply : Reply) : Prop :=
  exists r, resp reply = Some r /\ 500 <= StatusCode r < 600.

Definition statusOf (reply : Reply) : Z :=
  match resp reply with Some r => StatusCode r | None => 0 end.

Lemma attempt_5xx (skip : bool) (maxRetry : Z) (reply : Reply) (st : Loop)
      (w : World) :
  serverError reply ->
  attempt skip maxRetry reply st w
  = giveUpOrBackOff skip maxRetry
      (mkLoop (backoff st) (statusOf reply) (GoInt.add (tries st) 1))
      (count RecordAttempt w).
Proof.
  intros (r & E & Hs). unfold attempt, statusOf. rewrite E. cbn [backoff tries].
  replace (StatusCode r =? 200) with false by (symmetry; apply Z.eqb_neq; lia).
  replace (StatusCode r =? 404) with false by (symmetry; apply Z.eqb_neq; lia).
  replace (StatusCode r =? 429) with false by (symmetry; apply Z.eqb_neq; lia).
  rewrite andb_false_r.
  now destruct ((500 <=? StatusCode r) && (StatusCode r <? 600)).
Qed.

Lemma skip_off (SKIP : string) : SKIP <> "true" -> String.eqb SKIP "true" = false.
Proof. intros H. now apply String.eqb_neq. Qed.

Lemma backOff_step (maxRetry : Z) (reply : Reply) (rest : list Reply)
      (st : Loop) (w w1 : World) :
  serverError reply ->
  enter fuel lag w = Some w1 ->
  (maxRetry >? 0) && (GoInt.add (tries st) 1 >=? maxRetry) = false ->
  retryLoop fuel lag false maxRetry (reply :: rest) st w
  = retryLoop fuel lag false maxRetry rest
      (mkLoop (nextBackoff (backoff st)) (statusOf reply)
              (GoInt.add (tries st) 1))
      (nap (BackOff (backoff st)) (count RecordAttempt w1)).
Proof.
  intros Hr E Hc. cbn [retryLoop]. rewrite E, attempt_5xx by exact Hr.
  unfold giveUpOrBackOff. cbn [tries backoff lastStatus]. now rewrite Hc.
Qed.

Lemma break_step (maxRetry : Z) (reply : Reply) (rest : list Reply)
      (st : Loop) (w w1 : World) :
  serverError reply ->
  enter fuel lag w = Some w1 ->
  (maxRetry >? 0) && (GoInt.add (tries st) 1 >=? maxRetry) = true ->
  retryLoop fuel lag false maxRetry (reply :: rest) st w
  = (Done None (Some (statusOf reply)), count RecordAttempt w1).
Proof.
  intros Hr E Hc. cbn [retryLoop]. rewrite E, attempt_5xx by exact Hr.
  unfold giveUpOrBackOff. cbn [tries backoff lastStatus]. now rewrite Hc.
Qed.

(** C6 (best-effort mode off).  With a maximum attempt count of
    3 and a 5xx response to every attempt, [doRequestWithRetry] makes
    exactly three attempts (it is still running after two replies, and
    never asks for a fourth), sleeps the backoff twice, and then fails with
    an error that carries the status of the last response. *)
Theorem C6_three_attempts_then_error
        (SKIP : string) (r1 r2 r3 : Reply) (more : list Reply) (w : World) :
  SKIP <> "true" -> WOK w ->
  serverError r1 -> serverError r2 -> serverError r3 ->
  exists w2 w3,
    doRequestWithRetry fuel lag SKIP 3 [r1; r2] w = (Running, w2)
    /\ doRequestWithRetry fuel lag SKIP 3 (r1 :: r2 :: r3 :: more) w
       = (Done None (Some (statusOf r3)), w3)
    /\ attempts (counters w3)
       = GoInt.add (GoInt.add (GoInt.add (attempts (counters w)) 1) 1) 1
    /\ naps w3 = naps w ++ [BackOff (1 * Second); BackOff (2 * Second)].
Proof.
  intros HS HO H1 H2 H3. unfold doRequestWithRetry.
  rewrite (skip_off SKIP HS).
  destruct (enter_total w HO) as (wa & Ea & HOa & Na & Aa).
  rewrite !(backOff_step 3 r1 _ _ w wa H1 Ea) by reflexivity.
  cbn [tries backoff].
  set (wb := nap (BackOff (1 * Second)) (count RecordAttempt wa)).
  assert (HOb : WOK wb) by (apply WOK_nap, WOK_count, HOa).
  destruct (enter_total wb HOb) as (wc & Ec & HOc & Nc & Ac).
  rewrite !(backOff_step 3 r2 _ _ wb wc H2 Ec) by reflexivity.
  cbn [tries backoff].
  set (wd := nap (BackOff (nextBackoff (1 * Second))) (count RecordAttempt wc)).
  assert (HOd : WOK wd) by (apply WOK_nap, WOK_count, HOc).
  destruct (enter_total wd HOd) as (we & Ee & HOe & Ne & Ae).
  rewrite (break_step 3 r3 more _ wd we H3 Ee) by reflexivity.
  exists wd, (count RecordAttempt we).
  split; [reflexivity |]. split; [reflexivity |]. split.
  - cbn [count RecordAttempt counters attempts]. rewrite Ae.
    unfold wd. cbn [nap count RecordAttempt counters attempts]. rewrite Ac.
    unfold wb. cbn [nap count RecordAttempt counters attempts].
    now rewrite Aa.
  - cbn [count naps]. rewrite Ne.
    unfold wd. cbn [nap count naps]. rewrite Nc.
    unfold wb. cbn [nap count naps]. rewrite Na.
    now rewrite <- app_assoc.
Qed.

(** *** Rate-limited replies *)

(** A reply carrying the status 429. *)
Definition tooMany (reply : Reply) : Prop :=
  exists r, resp reply = Some r /\ StatusCode r = 429.

Definition hintOf (reply : Reply) : string :=
  match resp reply with Some r => RetryAfter r | None => "" end.

(** The world once a 429 has been booked: an attempt, a retry and the wait. *)
Definition booked429 (reply : Reply) (w : World) : World :=
  count (Add429Wait (retryAfterWait (hintOf reply)))
        (count RecordRetry (count RecordAttempt w)).

Lemma attempt_429 (skip : bool) (maxRetry : Z) (reply : Reply) (st : Loop)
      (w : World) :
  tooMany reply ->
  attempt skip maxRetry reply st w
  = if skip then Exit None None (booked429 reply w)
    else Again (mkLoop (backoff st) 429 (GoInt.add (tries st) 1))
               (nap (RateLimited (retryAfterWait (hintOf reply)))
                    (booked429 reply w)).
Proof.
  intros (r & E & Hs). unfold attempt, booked429, hintOf. rewrite E, Hs.
  cbn [backoff tries Z.eqb Pos.eqb]. rewrite andb_false_r.
  reflexivity.
Qed.

Lemma naps_booked429 (reply : Reply) (w : World) :
  naps (booked429 reply w) = naps w.
Proof. reflexivity. Qed.

(** However many 429 replies come in a row, and whatever [maxRetry] is, the
    loop sleeps after each of them and goes round again. *)
Lemma retry_every_429 (maxRetry : Z) (limited : list Reply) :
  forall (rest : list Reply) (st : Loop) (w : World),
  WOK w -> Forall tooMany limited ->
  exists st' w',
    retryLoop fuel lag false maxRetry (limited ++ rest) st w
    = retryLoop fuel lag false maxRetry rest st' w'
    /\ WOK w'
    /\ naps w' = naps w ++
         map (fun rp => RateLimited (retryAfterWait (hintOf rp))) limited.
Proof.
  induction limited as [| rp limited IH]; intros rest st w HO HF.
  - exists st, w. cbn [app map]. rewrite app_nil_r. auto.
  - inversion HF as [| ? ? Hrp HF']; subst.
    destruct (enter_total w HO) as (w1 & E1 & HO1 & N1 & _).
    cbn [app retryLoop]. rewrite E1, (attempt_429 false) by exact Hrp.
    set (w2 := nap _ _).
    assert (HO2 : WOK w2) by (apply WOK_nap; exact HO1).
    destruct (IH rest (mkLoop (backoff st) 429 (GoInt.add (tries st) 1))
                w2 HO2 HF') as (st' & w' & E' & HO' & N').
    exists st', w'. split; [exact E' |]. split; [exact HO' |].
    rewrite N'. unfold w2. cbn [nap naps map].
    rewrite naps_booked429, N1, <- app_assoc. reflexivity.
Qed.

Lemma Atoi_empty : Atoi "" = None.
Proof. reflexivity. Qed.

Lemma retryAfterWait_hint (ra : string) (v : Z) :
  Atoi ra = Some v -> 1 <= v <= 9223372036 ->
  retryAfterWait ra = v * Second.
Proof.
  intros Ha Hv. unfold retryAfterWait.
  destruct (String.eqb_spec ra "") as [-> | _]; [discriminate |].
  rewrite Ha. unfold GoInt.mul.
  rewrite wrap_inRange
    by (unfold GoInt.inRange, GoInt.minInt, GoInt.maxInt, Second; lia).
  destruct (Z.eqb_spec (v * Second) 0) as [E | _]; [| reflexivity].
  unfold Second in E. lia.
Qed.

Lemma retryAfterWait_fallback (ra : string) :
  ra = "" \/ Atoi ra = None \/ Atoi ra = Some 0 ->
  retryAfterWait ra = 2 * Second.
Proof.
  unfold retryAfterWait. intros [-> | [H | H]].
  - reflexivity.
  - rewrite H. now destruct (String.eqb ra "").
  - rewrite H. now destruct (String.eqb ra "").
Qed.

Definition totalNap (l : list Nap) : Z :=
  fold_right (fun n acc => napTime n + acc) 0 l.

(** C7 (the hint is used when it parses as 1 to 9223372036
    seconds; an absent, empty, unparsable or zero hint gives the fallback).
    After a 429 the executor always goes round again, sleeping the
    Retry-After hint in seconds or else the fixed 2 seconds, however many
    429 replies come and whatever the attempt bound is; in best-effort mode
    it gives up at the first 429 and returns the empty result without
    sleeping.  So for the replies [429 with Retry-After 1, 429 without hint,
    200] it returns the 200 response and no error, having slept 1 second
    plus the fallback. *)
Theorem C7_rate_limited_always_retried
        (SKIP : string) (maxRetry : Z) (limited : list Reply) (ok : Reply)
        (r200 : Response) (more : list Reply) (w : World) :
  WOK w -> Forall tooMany limited ->
  ok = mkReply (Some r200) false -> StatusCode r200 = 200 ->
  (SKIP <> "true" ->
     exists w',
       doRequestWithRetry fuel lag SKIP maxRetry (limited ++ ok :: more) w
       = (Done (Some r200) None, w')
       /\ naps w' = naps w ++
            map (fun rp => RateLimited (retryAfterWait (hintOf rp))) limited)
  /\ (forall first, tooMany first ->
        exists w',
          doRequestWithRetry fuel lag "true" maxRetry (first :: more) w
          = (Done None None, w')
          /\ naps w' = naps w)
  /\ (forall ra v, Atoi ra = Some v -> 1 <= v <= 9223372036 ->
        retryAfterWait ra = v * Second)
  /\ (forall ra, ra = "" \/ Atoi ra = None \/ Atoi ra = Some 0 ->
        retryAfterWait ra = 2 * Second)
  /\ (SKIP <> "true" ->
      exists w',
        doRequestWithRetry fuel lag SKIP maxRetry
          [ mkReply (Some (mkResponse 429 "1")) false;
            mkReply (Some (mkResponse 429 "")) false; ok ] w
        = (Done (Some r200) None, w')
        /\ naps w' = naps w ++ [RateLimited (1 * Second);
                                RateLimited (2 * Second)]
        /\ totalNap (naps w') >= totalNap (naps w) + 1 * Second + 2 * Second).
Proof.
  intros HO HF Hok H200.
  assert (General : forall lim tl, Forall tooMany lim -> SKIP <> "true" ->
    exists w',
      doRequestWithRetry fuel lag SKIP maxRetry (lim ++ ok :: tl) w
      = (Done (Some r200) None, w')
      /\ naps w' = naps w ++
           map (fun rp => RateLimited (retryAfterWait (hintOf rp))) lim).
  { intros lim tl Hlim HS. unfold doRequestWithRetry.
    rewrite (skip_off SKIP HS).
    destruct (retry_every_429 maxRetry lim (ok :: tl)
                (mkLoop (1 * Second) 0 0) w HO Hlim)
      as (st' & w1 & E1 & HO1 & N1).
    rewrite E1.
    destruct (enter_total w1 HO1) as (w2 & E2 & HO2 & N2 & _).
    cbn [retryLoop]. rewrite E2. unfold attempt. rewrite Hok.
    cbn [resp failed negb andb]. rewrite H200. cbn [Z.eqb Pos.eqb].
    eexists. split; [reflexivity |].
    cbn [count naps]. now rewrite N2, N1. }
  split; [exact (General limited more HF) |].
  split.
  { intros first Hfirst. unfold doRequestWithRetry. cbn [String.eqb].
    replace ("true" =? "true")%string with true by reflexivity.
    destruct (enter_total w HO) as (w1 & E1 & HO1 & N1 & _).
    cbn [retryLoop]. rewrite E1, (attempt_429 true) by exact Hfirst.
    eexists. split; [reflexivity |]. now rewrite naps_booked429. }
  split; [exact retryAfterWait_hint |].
  split; [exact retryAfterWait_fallback |].
  intros HS.
  assert (Htwo : Forall tooMany
                   [ mkReply (Some (mkResponse 429 "1")) false;
                     mkReply (Some (mkResponse 429 "")) false ])
    by (repeat constructor; eexists; split; reflexivity).
  destruct (General _ [] Htwo HS) as (w' & E & N).
  exists w'. split; [exact E |]. split; [exact N |].
  rewrite N. unfold totalNap. rewrite fold_right_app.
  cbn [map fold_right napTime hintOf resp RetryAfter].
  generalize (naps w). intros l.
  replace (retryAfterWait "") with (2 * Second) by reflexivity.
  replace (retryAfterWait "1") with (1 * Second) by reflexivity.
  induction l as [| n l IH]; cbn [fold_right]; unfold Second in *; lia.
Qed.

(** *** Best-effort mode *)

Lemma attempt_skip_gives_up (maxRetry : Z) (reply : Reply) (st : Loop)
      (w : World) :
  tooMany reply \/ serverError reply \/ resp reply = None ->
  exists w', attempt true maxRetry reply st w = Exit None None w' /\
             naps w' = naps w /\
             attempts (counters w')
             = GoInt.add (attempts (counters w)) 1.
Proof.
  intros [H | [H | H]].
  - rewrite (attempt_429 true) by exact H. eexists.
    split; [reflexivity |]. split; [reflexivity |].
    unfold booked429. cbn [count counters].
    now rewrite attempts_Add429Wait.
  - rewrite attempt_5xx by exact H. unfold giveUpOrBackOff.
    eexists. split; [reflexivity |]. split; reflexivity.
  - unfold attempt. rewrite H. unfold giveUpOrBackOff.
    eexists. split; [reflexivity |]. split; reflexivity.
Qed.

(** C10 (the web service's account and match-list callers fail
    the analysis instead of skipping; the earlier executor is only claimed
    for 429 and 5xx).  With SKIP set to "true", [doRequestWithRetry] returns
    a nil response with a nil error after a single attempt and without
    sleeping, for a 429, for a 5xx and for a transport failure alike; the
    earlier executor does so for 429 and 5xx.  Every caller in the
    command-line collector skips the unit of work at hand on that outcome,
    and so do the web service's callers for match details, participant
    ranks, rank and mastery; its account and match-list callers return an
    error. *)
Theorem C10_best_effort_returns_nil_nil
        (maxRetry : Z) (reply : Reply) (more : list Reply) (w : World) :
  WOK w ->
  tooMany reply \/ serverError reply \/ resp reply = None ->
  (exists w',
     doRequestWithRetry fuel lag "true" maxRetry (reply :: more) w
     = (Done None None, w')
     /\ naps w' = naps w
     /\ attempts (counters w') = GoInt.add (attempts (counters w)) 1)
  /\ (0 < maxRetry -> tooMany reply \/ serverError reply ->
      legacyDoRequestWithRetry "true" maxRetry (reply :: more)
      = (LDone None None, []))
  /\ Forall (fun site => skips (site None None) = true) cliSites
  /\ skips (webItemSite None None) = true
  /\ skips (webOptionalSite None None) = true
  /\ webAccountSite None None = Failed
  /\ webMatchListSite None None = Failed.
Proof.
  intros HO Hreply. split; [| split].
  - unfold doRequestWithRetry.
    replace ("true" =? "true")%string with true by reflexivity.
    destruct (enter_total w HO) as (w1 & E1 & HO1 & N1 & A1).
    cbn [retryLoop]. rewrite E1.
    destruct (attempt_skip_gives_up maxRetry reply (mkLoop (1 * Second) 0 0)
                w1 Hreply) as (w' & E & N & A).
    rewrite E. exists w'. split; [reflexivity |].
    split; [now rewrite N | now rewrite A, A1].
  - intros Hmax Hclass. unfold legacyDoRequestWithRetry.
    replace ("true" =? "true")%string with true by reflexivity.
    cbn [legacyLoop].
    replace (0 <? maxRetry) with true by (symmetry; apply Z.ltb_lt; lia).
    destruct Hclass as [(r & E & Hs) | (r & E & Hs)]; rewrite E.
    + rewrite Hs. cbn [Z.eqb Pos.eqb orb]. rewrite andb_false_r. reflexivity.
    + replace (StatusCode r =? 200) with false
        by (symmetry; apply Z.eqb_neq; lia).
      replace (StatusCode r =? 404) with false
        by (symmetry; apply Z.eqb_neq; lia).
      replace (500 <=? StatusCode r) with true
        by (symmetry; apply Z.leb_le; lia).
      replace (StatusCode r <? 600) with true
        by (symmetry; apply Z.ltb_lt; lia).
      rewrite andb_false_r, orb_true_r. reflexivity.
  - repeat split; repeat constructor.
Qed.

End ExecutorFacts.

(** C6 does not hold in best-effort mode: with SKIP set to "true" the
    first 500 ends the call after one attempt, with neither response nor
    error. *)
Lemma C6_fails_in_best_effort_mode :
  let run := Executor.doRequestWithRetry 3 (fun _ => 0) "true" 3
               (repeat (Executor.mkReply
                          (Some (Executor.mkResponse 500 "")) false) 3)
               (Executor.newWorld 1) in
  fst run = Executor.Done None None
  /\ fst run <> Executor.Done None (Some 500)
  /\ Executor.attempts (Executor.counters (snd run)) = 1.
Proof. vm_compute. repeat split; discriminate. Qed.

Lemma C6_three_attempts_witness :
  let r500 := Executor.mkReply (Some (Executor.mkResponse 500 "")) false in
  exists w2 w3,
    Executor.doRequestWithRetry 3 (fun _ => 0) "" 3 [r500; r500]
      (Executor.newWorld 1) = (Executor.Running, w2)
    /\ Executor.doRequestWithRetry 3 (fun _ => 0) "" 3 [r500; r500; r500]
         (Executor.newWorld 1)
       = (Executor.Done None (Some (statusOf r500)), w3)
    /\ Executor.attempts (Executor.counters w3)
       = GoInt.add (GoInt.add (GoInt.add
           (Executor.attempts (Executor.counters (Executor.newWorld 1))) 1) 1) 1
    /\ Executor.naps w3
       = Executor.naps (Executor.newWorld 1)
         ++ [Executor.BackOff (1 * Clock.Second);
             Executor.BackOff (2 * Clock.Second)].
Proof.
  intros r500.
  apply (C6_three_attempts_then_error (fun _ => 0) 3
           ltac:(intros k; lia) ltac:(lia) "" r500 r500 r500 []
           (Executor.newWorld 1)).
  - discriminate.
  - apply WOK_new.
  - exists (Executor.mkResponse 500 ""). split; [reflexivity | simpl; lia].
  - exists (Executor.mkResponse 500 ""). split; [reflexivity | simpl; lia].
  - exists (Executor.mkResponse 500 ""). split; [reflexivity | simpl; lia].
Defined.

(** C7 does not hold for a hint of zero seconds: the hint is present, yet
    the executor sleeps the 2-second fallback. *)
Lemma C7_zero_hint_waits_the_fallback :
  let run := Executor.doRequestWithRetry 3 (fun _ => 0) "" 3
               [ Executor.mkReply (Some (Executor.mkResponse 429 "0")) false;
                 Executor.mkReply (Some (Executor.mkResponse 200 "")) false ]
               (Executor.newWorld 1) in
  Executor.Atoi "0" = Some 0
  /\ Executor.naps (snd run) = [Executor.RateLimited (2 * Clock.Second)]
  /\ Executor.naps (snd run) <> [Executor.RateLimited (0 * Clock.Second)].
Proof. vm_compute. repeat split; discriminate. Qed.

Lemma C7_rate_limited_witness :
  let ok := Executor.mkReply (Some (Executor.mkResponse 200 "")) false in
  exists w',
    Executor.doRequestWithRetry 3 (fun _ => 0) "" 3
      [ Executor.mkReply (Some (Executor.mkResponse 429 "1")) false;
        Executor.mkReply (Some (Executor.mkResponse 429 "")) false; ok ]
      (Executor.newWorld 1)
    = (Executor.Done (Some (Executor.mkResponse 200 "")) None, w')
    /\ Executor.naps w'
       = Executor.naps (Executor.newWorld 1)
         ++ [Executor.RateLimited (1 * Clock.Second);
             Executor.RateLimited (2 * Clock.Second)]
    /\ totalNap (Executor.naps w')
       >= totalNap (Executor.naps (Executor.newWorld 1))
          + 1 * Clock.Second + 2 * Clock.Second.
Proof.
  intros ok.
  destruct (C7_rate_limited_always_retried (fun _ => 0) 3
              ltac:(intros k; lia) ltac:(lia) "" 3
              [Executor.mkReply (Some (Executor.mkResponse 429 "7")) false]
              ok (Executor.mkResponse 200 "") [] (Executor.newWorld 1))
    as (_ & _ & _ & _ & H).
  - apply WOK_new.
  - repeat constructor. eexists. split; reflexivity.
  - reflexivity.
  - reflexivity.
  - apply H. discriminate.
Defined.

(** ** The backoff sleeps of a call *)

Section BackoffFacts.
Import Clock Limiter Executor.

Variable lag : Lag.
Variable fuel : nat.








End BackoffFacts.



(** The bound on the budget cannot be dropped: with seven attempts allowed
    and a 500 every time the sleeps are 1, 2, 4, 8, 16 and then 32 seconds,
    since the doubling is only stopped once the backoff has passed 30
    seconds.  No caller passes such a budget. *)
Remark budget_of_seven_sleeps_32_seconds :
  let run := Executor.doRequestWithRetry 3 (fun _ => 0) "" 7
               (repeat (Executor.mkReply
                          (Some (Executor.mkResponse 500 "")) false) 7)
               (Executor.newWorld 1) in
  fst run = Executor.Done None (Some 500)
  /\ Executor.naps (snd run)
     = map (fun s => Executor.BackOff (s * Clock.Second)) [1; 2; 4; 8; 16; 32]
  /\ 32 * Clock.Second > 30 * Clock.Second.
Proof. vm_compute. repeat split. Qed.

(** C10 does not hold at the web service's account lookup, which turns
    the nil response into an error for the whole analysis; and the earlier
    executor sleeps three times on transport failures before it returns the
    nil pair. *)
Lemma C10_web_account_caller_does_not_skip :
  let run := Executor.doRequestWithRetry 3 (fun _ => 0) "true" 3
               [Executor.mkReply (Some (Executor.mkResponse 429 "")) false]
               (Executor.newWorld 1) in
  fst run = Executor.Done None None
  /\ Executor.webAccountSite None None = Executor.Failed
  /\ Executor.skips (Executor.webAccountSite None None) = false
  /\ Executor.legacyDoRequestWithRetry "true" 3
       (repeat (Executor.mkReply None true) 3)
     = (Executor.LDone None None,
        [1 * Clock.Second; 1 * Clock.Second; 1 * Clock.Second]).
Proof. vm_compute. repeat split. Qed.

Lemma C10_best_effort_witness :
  let reply := Executor.mkReply None true in
  let w := Executor.newWorld 1 in
  (exists w',
     Executor.doRequestWithRetry 3 (fun _ => 0) "true" 3 [reply] w
     = (Executor.Done None None, w')
     /\ Executor.naps w' = Executor.naps w
     /\ Executor.attempts (Executor.counters w')
        = GoInt.add (Executor.attempts (Executor.counters w)) 1)
  /\ (0 < 3 -> tooMany reply \/ serverError reply ->
      Executor.legacyDoRequestWithRetry "true" 3 [reply]
      = (Executor.LDone None None, []))
  /\ Forall (fun site => Executor.skips (site None None) = true)
            Executor.cliSites
  /\ Executor.skips (Executor.webItemSite None None) = true
  /\ Executor.skips (Executor.webOptionalSite None None) = true
  /\ Executor.webAccountSite None None = Executor.Failed
  /\ Executor.webMatchListSite None None = Executor.Failed.
Proof.
  intros reply w.
  apply (C10_best_effort_returns_nil_nil (fun _ => 0) 3
           ltac:(intros k; lia) ltac:(lia) 3 reply [] w).
  - apply WOK_new.
  - right. right. reflexivity.
Defined.

(** ** The insertion sort of [sort.Slice] *)

Section GoSortFacts.
Import GoSort.

Context {A : Type}.
Variable less : A -> A -> bool.

Lemma sink_perm (x : A) (before : list A) :
  Permutation (sink less x before) (x :: before).
Proof.
  induction before as [| y rest IH]; cbn [sink]; [reflexivity |].
  destruct (less x y); [| reflexivity].
  rewrite IH. apply perm_swap.
Qed.

Lemma insertionSort_perm (l : list A) :
  Permutation (insertionSort less l) l.
Proof.
  unfold insertionSort. rewrite <- Permutation_rev.
  assert (G : forall acc,
    Permutation (fold_left (fun before x => sink less x before) l acc)
                (acc ++ l)).
  { induction l as [| x rest IH]; intros acc; cbn [fold_left].
    - now rewrite app_nil_r.
    - rewrite IH, sink_perm. apply Permutation_middle. }
  exact (G []).
Qed.

(** [P] singles out the elements the comparison orders properly and
    [R a b] reads: [a] may stand before [b]. *)
Variable P : A -> Prop.
Variable R : A -> A -> Prop.
Hypothesis stays : forall x y, P x -> P y -> less x y = false -> R y x.
Hypothesis moves : forall x y, P x -> P y -> less x y = true -> R x y.
Hypothesis R_trans :
  forall x y z, P x -> P y -> P z -> R x y -> R y z -> R x z.

Lemma sink_sorted (x : A) (before : list A) :
  P x -> Forall P before ->
  StronglySorted (fun a b => R b a) before ->
  StronglySorted (fun a b => R b a) (sink less x before).
Proof.
  intros Px HP HS. induction HS as [| y rest Hs IH Hy]; cbn [sink].
  - repeat constructor.
  - inversion HP as [| ? ? Py HP']; subst.
    destruct (less x y) eqn:E.
    + constructor; [now apply IH |].
      eapply Permutation_Forall; [symmetry; apply sink_perm |].
      constructor; [now apply moves | exact Hy].
    + constructor; [now constructor |].
      constructor; [now apply stays |].
      rewrite Forall_forall in *. intros b Hb.
      apply (R_trans b y x); auto.
Qed.

Lemma sorted_snoc (l : list A) (a : A) :
  StronglySorted R l -> Forall (fun b => R b a) l ->
  StronglySorted R (l ++ [a]).
Proof.
  induction 1 as [| x rest Hs IH Hx]; intros Ha; cbn [app].
  - repeat constructor.
  - inversion Ha as [| ? ? Hxa Ha']; subst.
    constructor; [now apply IH |].
    apply Forall_app. split; [exact Hx | now constructor].
Qed.

Lemma sorted_rev (l : list A) :
  StronglySorted (fun a b => R b a) l -> StronglySorted R (rev l).
Proof.
  induction 1 as [| x rest Hs IH Hx]; cbn [rev]; [constructor |].
  apply sorted_snoc; [exact IH |]. now apply Forall_rev.
Qed.

Lemma insertionSort_sorted (l : list A) :
  Forall P l -> StronglySorted R (insertionSort less l).
Proof.
  intros HP. unfold insertionSort. apply sorted_rev.
  assert (G : forall acc,
    Forall P acc -> StronglySorted (fun a b => R b a) acc ->
    Forall P l ->
    StronglySorted (fun a b => R b a)
      (fold_left (fun before x => sink less x before) l acc)).
  { clear HP. induction l as [| x rest IH]; intros acc Hacc HS Hl;
      cbn [fold_left]; [exact HS |].
    inversion Hl as [| ? ? Px Hl']; subst.
    apply IH; [| now apply sink_sorted | exact Hl'].
    eapply Permutation_Forall; [symmetry; apply sink_perm |].
    now constructor. }
  apply G; [constructor | constructor | exact HP].
Qed.

End GoSortFacts.

Section AggregatorFacts.
Import Aggregator.

Definition small (x : Z) : Prop := - 2 ^ 40 <= x <= 2 ^ 40.

Lemma soloRankScore_entry (rankData : list RankEntry) :
  soloRankScore rankData = option_map entryScore (soloEntry rankData).
Proof.
  induction rankData as [| e rest IH];
    cbn [soloRankScore soloEntry find option_map]; [reflexivity |].
  destruct (QueueType e =? "RANKED_SOLO_5x5")%string; [reflexivity | exact IH].
Qed.

(** The loop over the participants adds up exactly the collected scores. *)
Lemma tally_collected (lookups : list (option (list RankEntry))) :
  forall acc,
  fold_left tally lookups acc
  = fold_left (fun a s => (GoInt.add (fst a) s, GoInt.add (snd a) 1))
              (collectedScores lookups) acc.
Proof.
  induction lookups as [| lk rest IH]; intros acc;
    cbn [collectedScores flat_map fold_left]; [reflexivity |].
  fold (collectedScores rest). rewrite fold_left_app, IH. f_equal.
  unfold tally. destruct lk as [rdata |]; [| reflexivity].
  rewrite soloRankScore_entry.
  destruct (soloEntry rdata); reflexivity.
Qed.

Lemma sumZ_small (l : list Z) :
  Forall small l ->
  Z.abs (sumZ l) <= 2 ^ 40 * Z.of_nat (List.length l).
Proof.
  induction 1 as [| x l Hx _ IH]; cbn [sumZ fold_right List.length].
  - lia.
  - fold (sumZ l). unfold small in Hx. rewrite Nat2Z.inj_succ. lia.
Qed.

Lemma sum_count_no_wrap (scores : list Z) :
  forall t c,
  Forall small scores ->
  Z.abs t + 2 ^ 40 * Z.of_nat (List.length scores) <= 2 ^ 62 ->
  0 <= c -> c + Z.of_nat (List.length scores) <= 2 ^ 62 ->
  fold_left (fun a s => (GoInt.add (fst a) s, GoInt.add (snd a) 1)) scores
            (t, c)
  = (t + sumZ scores, c + Z.of_nat (List.length scores)).
Proof.
  induction scores as [| x rest IH]; intros t c HF Ht Hc Hn.
  - cbn [fold_left sumZ fold_right List.length]. f_equal; lia.
  - inversion HF as [| ? ? Hx HF']; subst. unfold small in Hx.
    cbn [fold_left fst snd sumZ fold_right List.length] in *.
    fold (sumZ rest). rewrite Nat2Z.inj_succ in *.
    replace (GoInt.add t x) with (t + x)
      by (unfold GoInt.add; rewrite wrap_inRange; [reflexivity |];
          unfold GoInt.inRange, GoInt.minInt, GoInt.maxInt; lia).
    replace (GoInt.add c 1) with (c + 1)
      by (unfold GoInt.add; rewrite wrap_inRange; [reflexivity |];
          unfold GoInt.inRange, GoInt.minInt, GoInt.maxInt; lia).
    rewrite IH by (try assumption; lia). f_equal; lia.
Qed.

Lemma add_points_no_wrap (l : list Mastery) :
  forall acc,
  Forall (fun m => small (ChampionPoints m)) l ->
  Z.abs acc + 2 ^ 40 * Z.of_nat (List.length l) <= 2 ^ 62 ->
  fold_left (fun a m => GoInt.add a (ChampionPoints m)) l acc
  = acc + sumZ (map ChampionPoints l).
Proof.
  induction l as [| m rest IH]; intros acc HF Hacc.
  - cbn [fold_left map sumZ fold_right]. lia.
  - inversion HF as [| ? ? Hm HF']; subst. unfold small in Hm.
    cbn [fold_left map sumZ fold_right List.length] in *.
    fold (sumZ (map ChampionPoints rest)). rewrite Nat2Z.inj_succ in *.
    replace (GoInt.add acc (ChampionPoints m)) with (acc + ChampionPoints m)
      by (unfold GoInt.add; rewrite wrap_inRange; [reflexivity |];
          unfold GoInt.inRange, GoInt.minInt, GoInt.maxInt; lia).
    rewrite IH by (try assumption; lia). lia.
Qed.

(** *** The order of the points does not depend on the sort *)

Lemma insertDesc_perm (x : Z) (l : list Z) :
  Permutation (insertDesc x l) (x :: l).
Proof.
  induction l as [| y rest IH]; cbn [insertDesc]; [reflexivity |].
  destruct (y <? x); [reflexivity |].
  rewrite IH. apply perm_swap.
Qed.

Lemma descending_perm (l : list Z) : Permutation (descending l) l.
Proof.
  induction l as [| x rest IH]; cbn [descending fold_right]; [reflexivity |].
  fold (descending rest). rewrite insertDesc_perm. now constructor.
Qed.

Lemma insertDesc_sorted (x : Z) (l : list Z) :
  StronglySorted Z.ge l -> StronglySorted Z.ge (insertDesc x l).
Proof.
  induction 1 as [| y rest Hs IH Hy]; cbn [insertDesc].
  - repeat constructor.
  - destruct (Z.ltb_spec y x) as [Hlt | Hge].
    + constructor; [now constructor |].
      constructor; [lia |].
      eapply Forall_impl; [| exact Hy]. simpl. intros z Hz. lia.
    + constructor; [exact IH |].
      eapply Permutation_Forall; [symmetry; apply insertDesc_perm |].
      constructor; [lia | exact Hy].
Qed.

Lemma descending_sorted (l : list Z) : StronglySorted Z.ge (descending l).
Proof.
  induction l as [| x rest IH]; cbn [descending fold_right].
  - constructor.
  - now apply insertDesc_sorted.
Qed.

Lemma sorted_perm_unique (l1 : list Z) :
  forall l2,
  StronglySorted Z.ge l1 -> StronglySorted Z.ge l2 -> Permutation l1 l2 ->
  l1 = l2.
Proof.
  induction l1 as [| x l1 IH]; intros l2 H1 H2 HP.
  - apply Permutation_nil in HP. now subst.
  - destruct l2 as [| y l2].
    + symmetry in HP. apply Permutation_nil in HP. discriminate.
    + inversion H1 as [| ? ? H1' Hx]; subst.
      inversion H2 as [| ? ? H2' Hy]; subst.
      assert (x = y).
      { assert (Ix : In x (y :: l2))
          by (eapply Permutation_in; [exact HP | now left]).
        assert (Iy : In y (x :: l1))
          by (eapply Permutation_in; [symmetry; exact HP | now left]).
        rewrite Forall_forall in Hx, Hy.
        destruct Ix as [-> | Ix]; [reflexivity |].
        destruct Iy as [-> | Iy]; [reflexivity |].
        specialize (Hx _ Iy). specialize (Hy _ Ix). lia. }
      subst y. f_equal. apply IH; try assumption.
      eapply Permutation_cons_inv. exact HP.
Qed.

Lemma sorted_points (sortSlice : list Mastery -> list Mastery)
      (masteries : list Mastery) :
  sortsByPoints sortSlice ->
  map ChampionPoints (sortSlice masteries)
  = descending (map ChampionPoints masteries).
Proof.
  intros Hsort. destruct (Hsort masteries) as [HP HS].
  apply sorted_perm_unique.
  - clear HP. induction HS as [| m l Hs IH Hm]; cbn [map]; constructor.
    + exact IH.
    + rewrite Forall_map. eapply Forall_impl; [| exact Hm].
      simpl. unfold morePoints. intros b Hb.
      destruct (Z.gtb_spec (ChampionPoints b) (ChampionPoints m)); 
        [discriminate | lia].
  - apply descending_sorted.
  - rewrite descending_perm. now apply Permutation_map.
Qed.

(** The insertion sort of [sort.Slice] keeps the promise. *)
Lemma insertionSort_sorts :
  sortsByPoints (GoSort.insertionSort morePoints).
Proof.
  intros l. split; [apply insertionSort_perm |].
  apply (insertionSort_sorted morePoints (fun _ => True)
           (fun a b => morePoints b a = false)).
  - intros x y _ _ H. exact H.
  - unfold morePoints. intros x y _ _ H.
    apply Z.gtb_lt in H. rewrite Z.gtb_ltb. apply Z.ltb_ge. lia.
  - unfold morePoints. intros x y z _ _ _ H1 H2.
    rewrite Z.gtb_ltb, Z.ltb_ge in *. lia.
  - apply Forall_forall. intros; exact I.
Qed.

Lemma quot_abs_le (a n : Z) : 0 < n -> Z.abs (Z.quot a n) <= Z.abs a.
Proof.
  intros Hn. destruct (Z.le_gt_cases 0 a) as [Ha | Ha].
  - rewrite Z.quot_div_nonneg by lia.
    pose proof (Z.div_pos a n Ha Hn).
    pose proof (Z.div_le_upper_bound a n a Hn ltac:(nia)). lia.
  - replace a with (- (- a)) by lia. rewrite Z.quot_opp_l by lia.
    rewrite Z.quot_div_nonneg by lia.
    pose proof (Z.div_pos (- a) n ltac:(lia) Hn).
    pose proof (Z.div_le_upper_bound (- a) n (- a) Hn ltac:(nia)). lia.
Qed.

Lemma collectedScores_length (lookups : list (option (list RankEntry))) :
  (List.length (collectedScores lookups) <= List.length lookups)%nat.
Proof.
  induction lookups as [| lk rest IH]; cbn [collectedScores flat_map];
    [apply le_n |].
  fold (collectedScores rest). rewrite length_app. cbn [List.length].
  destruct lk as [rdata |]; [destruct (soloEntry rdata) |];
    cbn [List.length]; lia.
Qed.

Lemma avgRankScore_mean (lookups : list (option (list RankEntry))) :
  Forall small (collectedScores lookups) ->
  Z.of_nat (List.length lookups) <= 2 ^ 20 ->
  avgRankScore lookups = truncMean (collectedScores lookups)
  /\ Z.abs (truncMean (collectedScores lookups)) <= 2 ^ 60.
Proof.
  intros HF Hn. unfold avgRankScore.
  pose proof (collectedScores_length lookups) as Hlen.
  pose proof (sumZ_small _ HF) as Hsum.
  rewrite tally_collected, sum_count_no_wrap by (try assumption; lia).
  cbn [Z.add]. unfold truncMean.
  destruct (collectedScores lookups) as [| x rest] eqn:E.
  - cbn [List.length Z.of_nat Z.gtb Z.compare]. split; [reflexivity | lia].
  - set (n := Z.of_nat (List.length (x :: rest))) in *.
    assert (Hpos : 0 < n) by (unfold n; cbn [List.length]; lia).
    replace (n >? 0) with true by (symmetry; apply Z.gtb_lt; lia).
    pose proof (quot_abs_le (sumZ (x :: rest)) n Hpos) as Hq.
    unfold GoInt.div.
    rewrite wrap_inRange
      by (unfold GoInt.inRange, GoInt.minInt, GoInt.maxInt; lia).
    split; [reflexivity | lia].
Qed.

Lemma topMastery_top3 (sortSlice : list Mastery -> list Mastery)
      (masteries : list Mastery) :
  sortsByPoints sortSlice ->
  Forall (fun m => small (ChampionPoints m)) masteries ->
  topMastery sortSlice masteries = top3Sum masteries
  /\ Z.abs (top3Sum masteries) <= 2 ^ 42.
Proof.
  intros Hsort HF. unfold topMastery, top3Sum.
  destruct (Hsort masteries) as [HP _].
  assert (HF3 : Forall (fun m => small (ChampionPoints m))
                       (firstn 3 (sortSlice masteries))).
  { apply Forall_forall. intros m Hm.
    assert (In m (sortSlice masteries)).
    { rewrite <- (firstn_skipn 3 (sortSlice masteries)).
      apply in_or_app. now left. }
    rewrite Forall_forall in HF. apply HF.
    eapply Permutation_in; eassumption. }
  pose proof (firstn_le_length 3 (sortSlice masteries)) as H3.
  rewrite add_points_no_wrap by (try assumption; lia).
  rewrite <- firstn_map, sorted_points by assumption.
  split; [lia |].
  rewrite <- (sorted_points sortSlice) by assumption.
  rewrite firstn_map.
  assert (HS : Forall small (map ChampionPoints
                                 (firstn 3 (sortSlice masteries))))
    by (rewrite Forall_map; exact HF3).
  pose proof (sumZ_small _ HS) as Hb. rewrite length_map in Hb. lia.
Qed.

Lemma skillScore_small
      (sortSlice : list Mastery -> list Mastery)
      (rankData : list RankEntry)
      (lookups : list (option (list RankEntry)))
      (masteries : list Mastery) :
  sortsByPoints sortSlice ->
  Forall (fun m => small (ChampionPoints m)) masteries ->
  Forall small (collectedScores lookups) ->
  Z.of_nat (List.length lookups) <= 2 ^ 20 ->
  Forall (fun e => small (entryScore e)) rankData ->
  let currentRankScore :=
    match soloEntry rankData with Some e => entryScore e | None => 0 end in
  let avgMatchRankScore := truncMean (collectedScores lookups) in
  let topMasterySum := top3Sum masteries in
  skillScore sortSlice rankData lookups masteries
  = 2 * currentRankScore + avgMatchRankScore + Z.quot topMasterySum 1000.
Proof.
  intros Hsort HM HC Hn HR cur avg top. unfold skillScore.
  destruct (avgRankScore_mean lookups HC Hn) as [Eavg Bavg].
  destruct (topMastery_top3 sortSlice masteries Hsort HM) as [Etop Btop].
  rewrite Eavg, Etop. fold avg top.
  assert (Ecur : Aggregator.currentRankScore rankData = cur /\ small cur).
  { unfold Aggregator.currentRankScore, cur.
    rewrite soloRankScore_entry.
    destruct (soloEntry rankData) as [e |] eqn:E; cbn [option_map].
    - split; [reflexivity |].
      apply find_some in E. destruct E as [Hin _].
      rewrite Forall_forall in HR. now apply HR.
    - split; [reflexivity | unfold small; lia]. }
  destruct Ecur as [Ecur Bcur]. rewrite Ecur. unfold small in Bcur.
  pose proof (quot_abs_le top 1000 ltac:(lia)) as Hq.
  fold avg in Bavg. fold top in Btop.
  unfold GoInt.add, GoInt.mul, GoInt.div.
  unwrap_with lia. lia.
Qed.

(** *** The same, whatever the magnitudes *)

Lemma wrap_add_l (a b : Z) : GoInt.wrap (GoInt.wrap a + b) = GoInt.wrap (a + b).
Proof.
  unfold GoInt.wrap. f_equal.
  replace ((a + 2 ^ 63) mod 2 ^ 64 - 2 ^ 63 + b + 2 ^ 63)
    with ((a + 2 ^ 63) mod 2 ^ 64 + b) by lia.
  rewrite Zplus_mod_idemp_l. f_equal. lia.
Qed.

Lemma tally_wraps (scores : list Z) :
  forall t c,
  fold_left (fun a s => (GoInt.add (fst a) s, GoInt.add (snd a) 1)) scores
            (GoInt.wrap t, GoInt.wrap c)
  = (GoInt.wrap (t + sumZ scores),
     GoInt.wrap (c + Z.of_nat (List.length scores))).
Proof.
  induction scores as [| x rest IH]; intros t c.
  - cbn [fold_left sumZ fold_right List.length Z.of_nat].
    now rewrite !Z.add_0_r.
  - cbn [fold_left fst snd sumZ fold_right List.length].
    fold (sumZ rest).
    change (GoInt.add (GoInt.wrap t) x) with (GoInt.wrap (GoInt.wrap t + x)).
    change (GoInt.add (GoInt.wrap c) 1) with (GoInt.wrap (GoInt.wrap c + 1)).
    rewrite !wrap_add_l, IH, Nat2Z.inj_succ.
    f_equal; f_equal; lia.
Qed.

Lemma add_points_wraps (l : list Mastery) :
  forall acc,
  fold_left (fun a m => GoInt.add a (ChampionPoints m)) l (GoInt.wrap acc)
  = GoInt.wrap (acc + sumZ (map ChampionPoints l)).
Proof.
  induction l as [| m rest IH]; intros acc.
  - cbn [fold_left map sumZ fold_right]. now rewrite Z.add_0_r.
  - cbn [fold_left map sumZ fold_right].
    fold (sumZ (map ChampionPoints rest)).
    change (GoInt.add (GoInt.wrap acc) (ChampionPoints m))
      with (GoInt.wrap (GoInt.wrap acc + ChampionPoints m)).
    rewrite wrap_add_l, IH. f_equal. lia.
Qed.

Lemma skillScore_go
      (sortSlice : list Mastery -> list Mastery)
      (rankData : list RankEntry)
      (lookups : list (option (list RankEntry)))
      (masteries : list Mastery) :
  sortsByPoints sortSlice ->
  skillScore sortSlice rankData lookups masteries
  = GoInt.add
      (GoInt.add
         (GoInt.mul
            match soloEntry rankData with Some e => entryScore e | None => 0 end
            2)
         (goMean (collectedScores lookups)))
      (GoInt.div (GoInt.wrap (top3Sum masteries)) 1000).
Proof.
  intros Hsort. unfold skillScore. f_equal; [f_equal; [f_equal |] | f_equal].
  - unfold Aggregator.currentRankScore. rewrite soloRankScore_entry.
    now destruct (soloEntry rankData).
  - unfold avgRankScore, goMean. rewrite tally_collected.
    change (0, 0) with (GoInt.wrap 0, GoInt.wrap 0).
    rewrite tally_wraps. reflexivity.
  - unfold topMastery, top3Sum.
    change 0 with (GoInt.wrap 0) at 1.
    rewrite add_points_wraps, <- firstn_map, sorted_points by assumption.
    reflexivity.
Qed.

(** C9. For every aggregated player the skill score is
    [2 * currentRankScore + avgMatchRankScore + topMasterySum / 1000] in
    truncating integer arithmetic, where [topMasterySum] adds up the points
    of the top three mastery entries by points (whatever order the sort
    leaves entries of equal points in), [currentRankScore] is the rank score
    of the ranked-solo entry, 0 without one, and [avgMatchRankScore] is the
    truncating mean of the collected participant rank scores, 0 without
    any.  This holds in Go's 64-bit arithmetic for every player, and with
    the magnitudes of real data, far from the 64-bit limits, in plain
    integer arithmetic. *)
Theorem C9_skill_score_formula
        (sortSlice : list Mastery -> list Mastery)
        (rankData : list RankEntry)
        (lookups : list (option (list RankEntry)))
        (masteries : list Mastery) :
  sortsByPoints sortSlice ->
  let currentRankScore :=
    match soloEntry rankData with Some e => entryScore e | None => 0 end in
  let scores := collectedScores lookups in
  let topMasterySum := top3Sum masteries in
  skillScore sortSlice rankData lookups masteries
  = GoInt.add (GoInt.add (GoInt.mul currentRankScore 2) (goMean scores))
              (GoInt.div (GoInt.wrap topMasterySum) 1000)
  /\ (Forall (fun m => small (ChampionPoints m)) masteries ->
      Forall small scores ->
      Z.of_nat (List.length lookups) <= 2 ^ 20 ->
      Forall (fun e => small (entryScore e)) rankData ->
      skillScore sortSlice rankData lookups masteries
      = 2 * currentRankScore + truncMean scores + Z.quot topMasterySum 1000).
Proof.
  intros Hsort cur scores top. split.
  - now apply skillScore_go.
  - intros HM HC Hn HR. now apply skillScore_small.
Qed.

End AggregatorFacts.

Lemma C9_skill_score_witness :
  let rankData :=
    [ Aggregator.mkRankEntry "RANKED_FLEX_SR" "SILVER" "I" 10;
      Aggregator.mkRankEntry "RANKED_SOLO_5x5" "GOLD" "II" 50 ] in
  let lookups :=
    [ Some [Aggregator.mkRankEntry "RANKED_SOLO_5x5" "GOLD" "IV" 1];
      None; Some [];
      Some [Aggregator.mkRankEntry "RANKED_SOLO_5x5" "PLATINUM" "I" 0] ] in
  let masteries :=
    [ Aggregator.mkMastery 1 5 1200; Aggregator.mkMastery 2 7 90000;
      Aggregator.mkMastery 3 4 700; Aggregator.mkMastery 4 6 30999 ] in
  Aggregator.skillScore (GoSort.insertionSort Aggregator.morePoints)
    rankData lookups masteries
  = 2 * 1450 + 1550 + 122.
Proof.
  intros rankData lookups masteries.
  rewrite (proj2 (C9_skill_score_formula
                    (GoSort.insertionSort Aggregator.morePoints)
                    rankData lookups masteries insertionSort_sorts)).
  - reflexivity.
  - repeat constructor; vm_compute; intro H; discriminate H.
  - match goal with
    | |- Forall ?P ?l =>
      let l' := eval vm_compute in l in change (Forall P l')
    end.
    repeat constructor; vm_compute; intro H; discriminate H.
  - vm_compute. intro H; discriminate H.
  - repeat constructor; vm_compute; intro H; discriminate H.
Defined.

(** ** Comparisons of [float64] *)

Section FloatFacts.

Lemma cmp_cont_eq (p q : positive) :
  Pos.compare_cont Eq p q = Pos.compare p q.
Proof. reflexivity. Qed.

Ltac cmp_cases :=
  repeat match goal with
  | H : context [Z.compare ?a ?b] |- _ =>
    destruct (Z.compare_spec a b); try discriminate H
  | |- context [Z.compare ?a ?b] => destruct (Z.compare_spec a b)
  | H : context [Pos.compare_cont Eq ?a ?b] |- _ =>
    rewrite (cmp_cont_eq a b) in H
  | |- context [Pos.compare_cont Eq ?a ?b] => rewrite (cmp_cont_eq a b)
  | H : context [Pos.compare ?a ?b] |- _ =>
    destruct (Pos.compare_spec a b); try discriminate H
  | |- context [Pos.compare ?a ?b] => destruct (Pos.compare_spec a b)
  end.

Lemma SFltb_trans (x y z : spec_float) :
  SFltb x y = true -> SFltb y z = true -> SFltb x z = true.
Proof.
  unfold SFltb.
  destruct x as [sx | sx | | sx mx ex], y as [sy | sy | | sy my ey],
           z as [sz | sz | | sz mz ez];
    try destruct sx; try destruct sy; try destruct sz;
    cbn [SFcompare]; intros H1 H2; try discriminate; try reflexivity;
    cmp_cases; subst; simpl in *; try reflexivity; try discriminate; try lia.
Qed.

Lemma SFltb_irrefl (x : spec_float) : SFltb x x = false.
Proof.
  unfold SFltb. destruct x as [sx | sx | | sx mx ex]; try destruct sx;
    cbn [SFcompare]; try reflexivity;
    rewrite Z.compare_refl, cmp_cont_eq, Pos.compare_refl; reflexivity.
Qed.

Lemma SFleb_trans (x y z : spec_float) :
  SFleb x y = true -> SFleb y z = true -> SFleb x z = true.
Proof.
  unfold SFleb.
  destruct x as [sx | sx | | sx mx ex], y as [sy | sy | | sy my ey],
           z as [sz | sz | | sz mz ez];
    try destruct sx; try destruct sy; try destruct sz;
    cbn [SFcompare]; intros H1 H2; try discriminate; try reflexivity;
    cmp_cases; subst; simpl in *; try reflexivity; try discriminate; try lia.
Qed.

Lemma SFleb_total (x y : spec_float) :
  SFeqb x x = true -> SFeqb y y = true ->
  SFltb y x = false -> SFleb x y = true.
Proof.
  unfold SFeqb, SFltb, SFleb.
  destruct x as [sx | sx | | sx mx ex], y as [sy | sy | | sy my ey];
    try destruct sx; try destruct sy;
    cbn [SFcompare]; intros Hx Hy H1; try discriminate; try reflexivity;
    clear Hx Hy;
    cmp_cases; subst; simpl in *; try reflexivity; try discriminate; try lia.
Qed.

(** [<] on [float64] is transitive and irreflexive, NaN included. *)
Lemma ltb_trans (x y z : float) :
  PrimFloat.ltb x y = true -> PrimFloat.ltb y z = true ->
  PrimFloat.ltb x z = true.
Proof. rewrite !ltb_spec. apply SFltb_trans. Qed.

Lemma ltb_irrefl (x : float) : PrimFloat.ltb x x = false.
Proof. rewrite ltb_spec. apply SFltb_irrefl. Qed.

Lemma ltb_leb (x y : float) :
  PrimFloat.ltb x y = true -> PrimFloat.leb x y = true.
Proof.
  rewrite ltb_spec, leb_spec. unfold SFltb, SFleb.
  now destruct (SFcompare (Prim2SF x) (Prim2SF y)) as [[] |].
Qed.

Lemma leb_trans (x y z : float) :
  PrimFloat.leb x y = true -> PrimFloat.leb y z = true ->
  PrimFloat.leb x z = true.
Proof. rewrite !leb_spec. apply SFleb_trans. Qed.

(** Two numbers (not NaN) always compare. *)
Lemma leb_total (x y : float) :
  PrimFloat.eqb x x = true -> PrimFloat.eqb y y = true ->
  PrimFloat.ltb y x = false -> PrimFloat.leb x y = true.
Proof. rewrite !eqb_spec, ltb_spec, leb_spec. apply SFleb_total. Qed.

(** Nothing seen so far beats [b], and [d] beats [b]: nothing seen so far
    beats [d] either. *)
Lemma ltb_false_below (x d b : float) :
  PrimFloat.ltb x b = false -> PrimFloat.ltb d b = true ->
  PrimFloat.ltb x d = false.
Proof.
  intros Hx Hd. destruct (PrimFloat.ltb x d) eqn:E; [| reflexivity].
  rewrite (ltb_trans x d b E Hd) in Hx. discriminate.
Qed.

End FloatFacts.

(** ** [BalanceTeams] *)

Section SkillFacts.
Import Skill.

Context {Player : Type}.
Variable Predict : Player -> float.
Variable sortSlice : list (Player * float) -> list (Player * float).
(** A sort only moves the elements around. *)
Hypothesis sortSlice_perm : forall l, Permutation (sortSlice l) l.

Lemma splitFrom_ext (players : list Player) :
  forall (sel sel' : Z -> bool) (i : Z) (t : Split),
  (forall j, i <= j < i + Z.of_nat (List.length players) -> sel j = sel' j) ->
  splitFrom Predict sel i players t = splitFrom Predict sel' i players t.
Proof.
  induction players as [| p rest IH]; intros sel sel' i t H; [reflexivity |].
  cbn [splitFrom]. cbn [List.length] in H. rewrite Nat2Z.inj_succ in H.
  rewrite (H i) by lia. apply IH. intros j Hj. apply H. lia.
Qed.

(** Whatever the choice, the two teams are the roster, dealt in two. *)
Lemma splitFrom_parts (players : list Player) :
  forall (sel : Z -> bool) (i : Z) (t : Split),
  Permutation (teamA (splitFrom Predict sel i players t)
               ++ teamB (splitFrom Predict sel i players t))
              ((teamA t ++ teamB t) ++ players).
Proof.
  induction players as [| p rest IH]; intros sel i t; cbn [splitFrom].
  - now rewrite app_nil_r.
  - rewrite IH. destruct (sel i); cbn [toA toB teamA teamB].
    + rewrite <- !app_assoc. apply Permutation_app_head.
      cbn [app]. apply Permutation_middle.
    + rewrite <- !app_assoc. reflexivity.
Qed.

Lemma splitWith_parts (sel : Z -> bool) (players : list Player) :
  Permutation (teamA (splitWith Predict sel players)
               ++ teamB (splitWith Predict sel players)) players.
Proof. unfold splitWith. now rewrite splitFrom_parts. Qed.

Lemma splitWith_lengths (sel : Z -> bool) (players : list Player) :
  (List.length (teamA (splitWith Predict sel players))
   + List.length (teamB (splitWith Predict sel players))
   = List.length players)%nat.
Proof.
  rewrite <- length_app. apply Permutation_length, splitWith_parts.
Qed.

(** Every choice of positions is the bit pattern of some mask of the loop. *)
Lemma mask_exists (n : nat) :
  forall sel : Z -> bool,
  exists mask, 0 <= mask < 2 ^ Z.of_nat n /\
               forall i, 0 <= i < Z.of_nat n -> Z.testbit mask i = sel i.
Proof.
  induction n as [| n IH]; intros sel.
  - exists 0. split; [simpl; lia | intros i Hi; simpl in Hi; lia].
  - destruct (IH (fun i => sel (i + 1))) as (m & Hm & Hb).
    exists (2 * m + Z.b2z (sel 0)). split.
    + rewrite Nat2Z.inj_succ, Z.pow_succ_r by lia.
      destruct (sel 0); simpl Z.b2z; lia.
    + intros i Hi. rewrite Nat2Z.inj_succ in Hi.
      destruct (Z.eq_dec i 0) as [-> | Hne].
      * apply Z.testbit_0_r.
      * replace i with (Z.succ (i - 1)) at 1 by lia.
        rewrite Z.testbit_succ_r by lia. rewrite Hb by lia.
        f_equal. lia.
Qed.

Lemma in_masks (n : nat) (m : Z) :
  0 <= m < 2 ^ Z.of_nat n -> In m (masks n).
Proof.
  intros Hm. unfold masks. apply in_map_iff.
  exists (Z.to_nat m). split; [lia |].
  apply in_seq. split; [lia |]. cbn [plus].
  apply Nat2Z.inj_lt. rewrite Z2Nat.id by lia.
  rewrite Nat2Z.inj_pow. exact (proj2 Hm).
Qed.

Lemma splitWith_as_mask (sel : Z -> bool) (players : list Player) :
  exists mask, In mask (masks (List.length players)) /\
               splitBy Predict mask players = splitWith Predict sel players.
Proof.
  destruct (mask_exists (List.length players) sel) as (m & Hm & Hb).
  exists m. split; [now apply in_masks |].
  unfold splitBy, splitWith. apply splitFrom_ext.
  intros j Hj. apply Hb. lia.
Qed.

(** *** The search over the masks *)

Definition beats (players : list Player) (m m' : Z) : bool :=
  PrimFloat.ltb (diffOf (splitBy Predict m players))
                (diffOf (splitBy Predict m' players)).

(** What the search holds after the masks [seen]: either nothing yet,
    and no split of equal sizes seen was below [MaxFloat64]; or the split of
    a mask seen, of equal sizes, which no split of equal sizes seen beats. *)
Definition SearchInv (players : list Player) (seen : list Z)
           (best : float * list Player * list Player) : Prop :=
  (best = (MaxFloat64, [], []) /\
   forall m, In m seen -> sameSize (splitBy Predict m players) = true ->
             PrimFloat.ltb (diffOf (splitBy Predict m players)) MaxFloat64
             = false)
  \/ (exists m0, In m0 seen /\
        sameSize (splitBy Predict m0 players) = true /\
        best = (diffOf (splitBy Predict m0 players),
                teamA (splitBy Predict m0 players),
                teamB (splitBy Predict m0 players)) /\
        forall m, In m seen -> sameSize (splitBy Predict m players) = true ->
                  beats players m m0 = false).

Lemma consider_inv (players : list Player) (seen : list Z)
      (best : float * list Player * list Player) (mask : Z) :
  SearchInv players seen best ->
  SearchInv players (seen ++ [mask]) (consider Predict players best mask).
Proof.
  intros HI. unfold consider.
  destruct best as [[bestDiff bestA] bestB].
  set (t := splitBy Predict mask players).
  destruct (sameSize t) eqn:Hsz; cbn [negb].
  - destruct (PrimFloat.ltb (diffOf t) bestDiff) eqn:Hlt.
    + right. exists mask. split; [apply in_or_app; right; now left |].
      split; [exact Hsz |]. split; [reflexivity |].
      intros m Hin Hm. unfold beats. fold t.
      apply in_app_or in Hin. destruct Hin as [Hin | [<- | []]].
      * destruct HI as [[E Hall] | (m0 & Hm0 & Sm0 & E & Hall)];
          inversion E; subst.
        -- eapply ltb_false_below; [apply Hall; assumption | exact Hlt].
        -- eapply ltb_false_below; [apply (Hall m Hin Hm) | exact Hlt].
      * apply ltb_irrefl.
    + destruct HI as [[E Hall] | (m0 & Hm0 & Sm0 & E & Hall)].
      * left. split; [exact E |]. inversion E; subst.
        intros m Hin Hm. apply in_app_or in Hin.
        destruct Hin as [Hin | [<- | []]]; [now apply Hall | exact Hlt].
      * right. exists m0. split; [apply in_or_app; now left |].
        split; [exact Sm0 |]. split; [exact E |]. inversion E; subst.
        intros m Hin Hm. apply in_app_or in Hin.
        destruct Hin as [Hin | [<- | []]]; [now apply Hall | exact Hlt].
  - destruct HI as [[E Hall] | (m0 & Hm0 & Sm0 & E & Hall)].
    + left. split; [exact E |].
      intros m Hin Hm. apply in_app_or in Hin.
      destruct Hin as [Hin | [<- | []]]; [now apply Hall |].
      fold t in Hm. congruence.
    + right. exists m0. split; [apply in_or_app; now left |].
      split; [exact Sm0 |]. split; [exact E |].
      intros m Hin Hm. apply in_app_or in Hin.
      destruct Hin as [Hin | [<- | []]]; [now apply Hall |].
      fold t in Hm. congruence.
Qed.

Lemma search_inv (players : list Player) (todo : list Z) :
  forall seen best,
  SearchInv players seen best ->
  SearchInv players (seen ++ todo)
            (fold_left (consider Predict players) todo best).
Proof.
  induction todo as [| m rest IH]; intros seen best HI; cbn [fold_left].
  - now rewrite app_nil_r.
  - replace (seen ++ m :: rest) with ((seen ++ [m]) ++ rest)
      by (rewrite <- app_assoc; reflexivity).
    apply IH. now apply consider_inv.
Qed.

Lemma exactSearch_inv (players : list Player) :
  SearchInv players (masks (List.length players))
            (exactSearch Predict players).
Proof.
  unfold exactSearch. apply (search_inv players _ []).
  left. split; [reflexivity | intros m []].
Qed.

Lemma search_idle (players : list Player) (todo : list Z) :
  forall best,
  (forall m, sameSize (splitBy Predict m players) = false) ->
  fold_left (consider Predict players) todo best = best.
Proof.
  induction todo as [| m rest IH]; intros best H; cbn [fold_left];
    [reflexivity |].
  rewrite IH by exact H. unfold consider.
  destruct best as [[d a] b]. now rewrite H.
Qed.

Lemma greedy_of_nobody :
  greedySplit Predict sortSlice [] = empty.
Proof.
  unfold greedySplit. cbn [map].
  now rewrite (Permutation_nil (Permutation_sym (sortSlice_perm []))).
Qed.

(** C4 (the exact search answers when some split of equal
    sizes has a difference below the largest finite [float64], as it has
    whenever the scores are ordinary numbers).  For a roster of even size
    [n <= 10] [BalanceTeams] then returns a partition of the roster into two
    teams of [n/2] players each, chosen among all ways to pick team A, and
    no partition into teams of equal sizes has a smaller difference of score
    sums; for a roster of odd size or of more than 10 players it returns
    what the greedy strategy returns. *)
Theorem C4_exact_search_minimal_else_greedy (players : list Player) :
  let n := List.length players in
  (Nat.even n = true -> (n <= 10)%nat ->
   (exists sel,
      sameSize (splitWith Predict sel players) = true /\
      PrimFloat.ltb (diffOf (splitWith Predict sel players)) MaxFloat64
      = true) ->
   exists best : Z -> bool,
     let t := splitWith Predict best players in
     BalanceTeams Predict sortSlice players = (teamA t, teamB t)
     /\ Permutation (teamA t ++ teamB t) players
     /\ List.length (teamA t) = Nat.div2 n
     /\ List.length (teamB t) = Nat.div2 n
     /\ forall sel,
          sameSize (splitWith Predict sel players) = true ->
          PrimFloat.ltb (diffOf (splitWith Predict sel players)) (diffOf t)
          = false)
  /\ (Nat.even n = false \/ (10 < n)%nat ->
      BalanceTeams Predict sortSlice players
      = (teamA (greedySplit Predict sortSlice players),
         teamB (greedySplit Predict sortSlice players))).
Proof.
  intros n. split.
  - intros Heven Hn (sel0 & S0 & L0).
    destruct (splitWith_as_mask sel0 players) as (m0 & Hin0 & E0).
    destruct (exactSearch_inv players)
      as [[E Hall] | (mb & Hmb & Smb & E & Hall)].
    { specialize (Hall m0 Hin0). rewrite E0 in Hall.
      rewrite (Hall S0) in L0. discriminate. }
    exists (Z.testbit mb). cbn zeta.
    change (splitWith Predict (Z.testbit mb) players)
      with (splitBy Predict mb players).
    set (t := splitBy Predict mb players) in *.
    pose proof (splitWith_lengths (Z.testbit mb) players) as Hlen.
    change (splitWith Predict (Z.testbit mb) players) with t in Hlen.
    assert (Hsame : List.length (teamA t) = List.length (teamB t))
      by (apply Nat.eqb_eq; exact Smb).
    assert (Hhalf : List.length (teamA t) = Nat.div2 n).
    { fold n in Hlen. replace n with (2 * List.length (teamA t))%nat by lia.
      now rewrite Nat.div2_double. }
    split; [| split; [apply splitWith_parts | split; [exact Hhalf |
              split; [now rewrite <- Hsame |]]]].
    + unfold BalanceTeams. fold n.
      replace (n <=? 10)%nat with true by (symmetry; apply Nat.leb_le; lia).
      rewrite E.
      destruct (0 <? List.length (teamA t))%nat eqn:Hpos; [reflexivity |].
      apply Nat.ltb_ge in Hpos.
      assert (Hn0 : n = 0%nat) by lia.
      assert (players = []) by (now apply length_zero_iff_nil).
      subst players. rewrite greedy_of_nobody. reflexivity.
    + intros sel Hsel.
      destruct (splitWith_as_mask sel players) as (m & Hin & Em).
      rewrite <- Em in *. exact (Hall m Hin Hsel).
  - intros Hcase. unfold BalanceTeams. fold n.
    destruct (n <=? 10)%nat eqn:Hle; [| reflexivity].
    apply Nat.leb_le in Hle. destruct Hcase as [Hodd | Hbig]; [| lia].
    unfold exactSearch. rewrite search_idle; [reflexivity |].
    intros m. apply Nat.eqb_neq. intros Hsame.
    pose proof (splitWith_lengths (Z.testbit m) players) as Hlen.
    change (splitWith Predict (Z.testbit m) players)
      with (splitBy Predict m players) in Hlen.
    fold n in Hlen.
    assert (En : n = (2 * List.length (teamB (splitBy Predict m players)))%nat)
      by lia.
    rewrite En, Nat.even_mul in Hodd. discriminate.
Qed.

End SkillFacts.

(** ** The team split of the collector and of the web service *)

Section TeamSplitFacts.
Import TeamSplit.

Lemma rem2_even (i : Z) : 0 <= i -> (GoInt.rem i 2 =? 0) = Z.even i.
Proof.
  intros Hi. unfold GoInt.rem. rewrite Z.rem_mod_nonneg by lia.
  rewrite Zmod_even. now destruct (Z.even i).
Qed.

(** Dealing by the parity of the position gives team A every other player
    from the first on and team B the players in between. *)
Lemma alternate_deal (l : list PlayerData) :
  forall (i : Z) (t : Teams), 0 <= i ->
  alternate i l t
  = mkTeams (teamA t ++ deal (Z.even i) l)
            (teamB t ++ deal (negb (Z.even i)) l)
            (skillSum (deal (Z.even i) l) (sumA t))
            (skillSum (deal (negb (Z.even i)) l) (sumB t)).
Proof.
  induction l as [| p rest IH]; intros i t Hi; cbn [alternate deal].
  - unfold skillSum. cbn [fold_left]. rewrite !app_nil_r. now destruct t.
  - rewrite IH by lia. rewrite rem2_even by exact Hi.
    replace (i + 1) with (Z.succ i) by lia.
    rewrite Z.even_succ, <- Z.negb_even.
    destruct (Z.even i); cbn [negb teamA teamB sumA sumB];
      unfold skillSum; cbn [fold_left]; rewrite <- !app_assoc; reflexivity.
Qed.

(** What [sort.Slice] promises for [higherSkill]. *)
Definition sortsBySkill (sortSlice : list PlayerData -> list PlayerData)
  : Prop :=
  forall l, Permutation (sortSlice l) l /\
            StronglySorted (fun a b => skill_score a >= skill_score b)
                           (sortSlice l).

Lemma insertionSort_sortsBySkill :
  sortsBySkill (GoSort.insertionSort higherSkill).
Proof.
  intros l. split; [apply insertionSort_perm |].
  apply (insertionSort_sorted higherSkill (fun _ => True)); unfold higherSkill.
  - intros x y _ _ H. rewrite Z.gtb_ltb in H. apply Z.ltb_ge in H. lia.
  - intros x y _ _ H. apply Z.gtb_lt in H. lia.
  - intros x y z _ _ _ H1 H2. lia.
  - apply Forall_forall. intros; exact I.
Qed.

End TeamSplitFacts.

Section GreedyFacts.
Import Skill.
Context {Player : Type}.

(** A score that is a number. *)
Definition isNumber (x : float) : Prop := PrimFloat.eqb x x = true.

(** What [sort.Slice] promises for [higherScore] when every score is a
    number. *)
Definition sortsByScore
           (sortSlice : list (Player * float) -> list (Player * float))
  : Prop :=
  forall l, Forall (fun a => isNumber (snd a)) l ->
            Permutation (sortSlice l) l /\
            StronglySorted
              (fun a b => PrimFloat.leb (snd b) (snd a) = true)
              (sortSlice l).

Lemma insertionSort_sortsByScore :
  sortsByScore (GoSort.insertionSort higherScore).
Proof.
  intros l Hl. split; [apply insertionSort_perm |].
  apply (insertionSort_sorted higherScore (fun a => isNumber (snd a)));
    unfold higherScore, isNumber.
  - intros x y Hx Hy H. now apply leb_total.
  - intros x y _ _ H. now apply ltb_leb.
  - intros x y z _ _ _ H1 H2. eapply leb_trans; eassumption.
  - exact Hl.
Qed.

(** [<=] on [float64] is [<] or [==], NaN included. *)
Lemma leb_ltb_eqb (x y : float) :
  PrimFloat.leb x y = PrimFloat.ltb x y || PrimFloat.eqb x y.
Proof.
  rewrite leb_spec, ltb_spec, eqb_spec. unfold SFleb, SFltb, SFeqb.
  now destruct (SFcompare (Prim2SF x) (Prim2SF y)) as [[] |].
Qed.

Variable Predict : Player -> float.
Variable sortSlice : list (Player * float) -> list (Player * float).

(** The exact search keeps nothing for a roster of odd size, and is not
    run for more than ten players: the greedy loop answers. *)
Lemma BalanceTeams_falls_back (players : list Player) :
  Nat.even (List.length players) = false \/ (10 < List.length players)%nat ->
  BalanceTeams Predict sortSlice players
  = (teamA (greedySplit Predict sortSlice players),
     teamB (greedySplit Predict sortSlice players)).
Proof.
  intros Hcase. unfold BalanceTeams.
  destruct (List.length players <=? 10)%nat eqn:Hle; [| reflexivity].
  apply Nat.leb_le in Hle. destruct Hcase as [Hodd | Hbig]; [| lia].
  unfold exactSearch. rewrite search_idle; [reflexivity |].
  intros m. apply Nat.eqb_neq. intros Hsame.
  pose proof (splitWith_lengths Predict (Z.testbit m) players) as Hlen.
  change (splitWith Predict (Z.testbit m) players)
    with (splitBy Predict m players) in Hlen.
  assert (En : List.length players
               = (2 * List.length (teamB (splitBy Predict m players)))%nat)
    by lia.
  rewrite En, Nat.even_mul in Hodd. discriminate.
Qed.

(** The entries of the slice [arr] carry the predicted score of their
    player. *)
Definition scored (arr : list (Player * float)) : Prop :=
  Forall (fun a => snd a = Predict (fst a)) arr.

Lemma scoreSum_snoc (team : list Player) (p : Player) :
  scoreSum Predict (team ++ [p])
  = PrimFloat.add (scoreSum Predict team) (Predict p).
Proof. unfold scoreSum. now rewrite fold_left_app. Qed.

(** The two running sums of the greedy loop are the score sums of the
    teams built so far, so that the loop follows the rule of the
    specification. *)
Lemma greedy_loop_lowerSumFirst (arr : list (Player * float)) :
  forall t : Split,
  scored arr ->
  sumA t = scoreSum Predict (teamA t) ->
  sumB t = scoreSum Predict (teamB t) ->
  (teamA (fold_left hand arr t), teamB (fold_left hand arr t))
  = lowerSumFirst Predict (map fst arr) (teamA t) (teamB t).
Proof.
  induction arr as [| a rest IH]; intros t Hs HA HB;
    cbn [fold_left map lowerSumFirst]; [reflexivity |].
  inversion Hs as [| a' rest' Ha Hrest]; subst.
  rewrite <- leb_ltb_eqb, <- HA, <- HB. unfold hand at 2 4.
  destruct (PrimFloat.leb (sumA t) (sumB t)).
  - rewrite IH; cbn [teamA teamB sumA sumB]; try assumption; [reflexivity |].
    now rewrite scoreSum_snoc, HA, Ha.
  - rewrite IH; cbn [teamA teamB sumA sumB]; try assumption; [reflexivity |].
    now rewrite scoreSum_snoc, HB, Ha.
Qed.

Lemma scored_sorted (arr : list (Player * float)) :
  scored arr ->
  StronglySorted (fun a b => PrimFloat.leb (snd b) (snd a) = true) arr ->
  StronglySorted (fun p q => PrimFloat.leb (Predict q) (Predict p) = true)
                 (map fst arr).
Proof.
  intros Hs HS. induction HS as [| a rest HS IH Hall]; cbn [map];
    [constructor |].
  inversion Hs as [| a' rest' Ha Hrest]; subst.
  constructor; [now apply IH |].
  rewrite Forall_map. rewrite Forall_forall in *.
  intros b Hb. rewrite <- Ha, <- (Hrest b Hb). now apply Hall.
Qed.

(** For a roster the exact search does not answer, [BalanceTeams] returns
    what the rule of the specification gives on the players in descending
    order of their predicted score. *)
Lemma BalanceTeams_lowerSumFirst (players : list Player) :
  sortsByScore sortSlice ->
  Forall (fun p => isNumber (Predict p)) players ->
  Nat.even (List.length players) = false \/ (10 < List.length players)%nat ->
  exists sorted : list Player,
    Permutation sorted players
    /\ StronglySorted
         (fun p q => PrimFloat.leb (Predict q) (Predict p) = true) sorted
    /\ BalanceTeams Predict sortSlice players
       = lowerSumFirst Predict sorted [] [].
Proof.
  intros Hsort Hnum Hcase.
  set (arr := map (fun p => (p, Predict p)) players).
  assert (Harr : Forall (fun a => isNumber (snd a)) arr)
    by (unfold arr; rewrite Forall_map; exact Hnum).
  destruct (Hsort arr Harr) as [HP HS].
  assert (Hsc : scored (sortSlice arr)).
  { unfold scored. rewrite Forall_forall. intros a Ha.
    apply (Permutation_in _ HP) in Ha. unfold arr in Ha.
    apply in_map_iff in Ha. destruct Ha as (p & <- & _). reflexivity. }
  exists (map fst (sortSlice arr)). split; [| split].
  - rewrite (Permutation_map fst HP). unfold arr.
    rewrite map_map. cbn [fst]. now rewrite map_id.
  - now apply scored_sorted.
  - rewrite BalanceTeams_falls_back by exact Hcase.
    unfold greedySplit. fold arr.
    apply (greedy_loop_lowerSumFirst (sortSlice arr) empty Hsc);
      reflexivity.
Qed.

End GreedyFacts.

(** The roster of the specification's example, once as rated players for
    [BalanceTeams] and once as entries of [allPlayerData]. *)
Definition ratedFour : list Skill.Rated :=
  [ Skill.mkRated "A" 1500%float; Skill.mkRated "B" 1300%float;
    Skill.mkRated "C" 1200%float; Skill.mkRated "D" 1000%float ].

Definition dataFour : list TeamSplit.PlayerData :=
  [ TeamSplit.mkPlayerData "A" 1500 []; TeamSplit.mkPlayerData "B" 1300 [];
    TeamSplit.mkPlayerData "C" 1200 []; TeamSplit.mkPlayerData "D" 1000 [] ].

(** The same roster with a fifth player, which the exact search cannot
    split into teams of equal sizes. *)
Definition ratedFive : list Skill.Rated :=
  ratedFour ++ [Skill.mkRated "E" 900%float].

(** C3 (the lower-sum rule is that of the greedy loop of [BalanceTeams],
    which answers only when the exact search does not: for a roster of odd
    size or of more than ten players; the team split of the collector and of
    the web service deals the sorted players out by position instead).  For
    such a roster with scores that are numbers, [BalanceTeams] returns what
    the rule gives on the players in descending order of their predicted
    score: each successive player joins the team whose score sum is lower,
    team A when the sums are level.  On the scores 1500, 1300, 1200, 1000,
    900 it returns team A = {1500, 1000, 900} and team B = {1300, 1200}.  On
    the scores 1500, 1300, 1200, 1000 the exact search answers, with team A
    = {1300, 1200} and team B = {1500, 1000}, both of sum 2500.  The team
    split takes the players sorted by descending skill score, gives team A
    every other player from the first on and team B the players in between;
    on the same four scores it yields team A = {1500, 1200} of sum 2700 and
    team B = {1300, 1000} of sum 2300. *)
Theorem C3_greedy_rule_and_alternating_deal
        {Player : Type} (Predict : Player -> float)
        (sortScored : list (Player * float) -> list (Player * float))
        (sortPlayers : list TeamSplit.PlayerData -> list TeamSplit.PlayerData)
        (players : list Player) (all : list TeamSplit.PlayerData) :
  sortsByScore sortScored -> sortsBySkill sortPlayers ->
  Forall (fun p => isNumber (Predict p)) players ->
  Nat.even (List.length players) = false \/ (10 < List.length players)%nat ->
  (exists sorted : list Player,
     Permutation sorted players
     /\ StronglySorted
          (fun p q => PrimFloat.leb (Predict q) (Predict p) = true) sorted
     /\ Skill.BalanceTeams Predict sortScored players
        = Skill.lowerSumFirst Predict sorted [] [])
  /\ (let teams := Skill.BalanceTeams Skill.rating
                     (GoSort.insertionSort Skill.higherScore) ratedFive in
      map Skill.rating (fst teams) = [1500%float; 1000%float; 900%float]
      /\ map Skill.rating (snd teams) = [1300%float; 1200%float])
  /\ (let teams := Skill.BalanceTeams Skill.rating
                     (GoSort.insertionSort Skill.higherScore) ratedFour in
      map Skill.rating (fst teams) = [1300%float; 1200%float]
      /\ map Skill.rating (snd teams) = [1500%float; 1000%float]
      /\ Skill.scoreSum Skill.rating (fst teams) = 2500%float
      /\ Skill.scoreSum Skill.rating (snd teams) = 2500%float)
  /\ (exists sorted,
        Permutation sorted all
        /\ StronglySorted
             (fun a b => TeamSplit.skill_score a >= TeamSplit.skill_score b)
             sorted
        /\ let t := TeamSplit.teamSplit sortPlayers all in
           TeamSplit.teamA t = TeamSplit.deal true sorted
           /\ TeamSplit.teamB t = TeamSplit.deal false sorted
           /\ TeamSplit.sumA t = TeamSplit.skillSum (TeamSplit.teamA t) 0
           /\ TeamSplit.sumB t = TeamSplit.skillSum (TeamSplit.teamB t) 0)
  /\ (let t := TeamSplit.teamSplit
                 (GoSort.insertionSort TeamSplit.higherSkill) dataFour in
      map TeamSplit.skill_score (TeamSplit.teamA t) = [1500; 1200]
      /\ map TeamSplit.skill_score (TeamSplit.teamB t) = [1300; 1000]
      /\ TeamSplit.sumA t = 2700 /\ TeamSplit.sumB t = 2300).
Proof.
  intros Hscored Hplayers Hnum Hcase.
  split; [| split; [| split; [| split]]].
  - now apply BalanceTeams_lowerSumFirst.
  - vm_compute. split; reflexivity.
  - vm_compute. split; [reflexivity |]. split; [reflexivity |].
    split; reflexivity.
  - destruct (Hplayers all) as [HP HS].
    exists (sortPlayers all). split; [exact HP | split; [exact HS |]].
    unfold TeamSplit.teamSplit. rewrite alternate_deal by lia.
    cbn [Z.even negb TeamSplit.teamA TeamSplit.teamB TeamSplit.sumA
         TeamSplit.sumB app]. repeat split.
  - vm_compute. repeat split.
Qed.

(** C3 does not hold for the team split of the collector: on the scores
    1500, 1300, 1200, 1000 it gives team A the first and the third player. *)
Lemma C3_team_split_deals_by_position :
  let t := TeamSplit.teamSplit (GoSort.insertionSort TeamSplit.higherSkill)
             dataFour in
  map TeamSplit.skill_score (TeamSplit.teamA t) = [1500; 1200]
  /\ map TeamSplit.skill_score (TeamSplit.teamA t) <> [1500; 1000]
  /\ TeamSplit.sumA t = 2700 /\ TeamSplit.sumB t = 2300
  /\ TeamSplit.sumA t - TeamSplit.sumB t <> 0.
Proof. vm_compute. repeat split; discriminate. Qed.

Lemma C3_greedy_and_deal_witness :
  exists sorted : list Skill.Rated,
    Permutation sorted ratedFive
    /\ StronglySorted
         (fun p q => PrimFloat.leb (Skill.rating q) (Skill.rating p) = true)
         sorted
    /\ Skill.BalanceTeams Skill.rating
         (GoSort.insertionSort Skill.higherScore) ratedFive
       = Skill.lowerSumFirst Skill.rating sorted [] [].
Proof.
  destruct (C3_greedy_rule_and_alternating_deal Skill.rating
              (GoSort.insertionSort Skill.higherScore)
              (GoSort.insertionSort TeamSplit.higherSkill)
              ratedFive dataFour
              insertionSort_sortsByScore insertionSort_sortsBySkill)
    as (H & _).
  - repeat constructor.
  - left. reflexivity.
  - exact H.
Defined.

(** C4 does not hold when no split has a difference that is a number
    below [MaxFloat64]: with four scores that are NaN the search keeps
    nothing and the greedy strategy returns one player against three. *)
Lemma C4_nan_scores_split_one_against_three :
  let roster := [ Skill.mkRated "A" nan; Skill.mkRated "B" nan;
                  Skill.mkRated "C" nan; Skill.mkRated "D" nan ] in
  let teams := Skill.BalanceTeams Skill.rating
                 (GoSort.insertionSort Skill.higherScore) roster in
  Nat.even (List.length roster) = true
  /\ List.length (fst teams) = 1%nat /\ List.length (snd teams) = 3%nat
  /\ List.length (fst teams) <> Nat.div2 (List.length roster).
Proof. vm_compute. repeat split; discriminate. Qed.

Lemma C4_exact_search_witness :
  exists best : Z -> bool,
    let t := Skill.splitWith Skill.rating best ratedFour in
    Skill.BalanceTeams Skill.rating (GoSort.insertionSort Skill.higherScore)
                       ratedFour
    = (Skill.teamA t, Skill.teamB t)
    /\ Permutation (Skill.teamA t ++ Skill.teamB t) ratedFour
    /\ List.length (Skill.teamA t) = Nat.div2 (List.length ratedFour)
    /\ List.length (Skill.teamB t) = Nat.div2 (List.length ratedFour)
    /\ forall sel,
         Skill.sameSize (Skill.splitWith Skill.rating sel ratedFour) = true ->
         PrimFloat.ltb
           (Skill.diffOf (Skill.splitWith Skill.rating sel ratedFour))
           (Skill.diffOf t) = false.
Proof.
  apply (C4_exact_search_minimal_else_greedy Skill.rating
           (GoSort.insertionSort Skill.higherScore)
           (insertionSort_perm Skill.higherScore) ratedFour).
  - reflexivity.
  - simpl. lia.
  - exists (Z.testbit 3). split; reflexivity.
Defined.

(** ** The lane-unique split *)

(** Ten players sorted by skill, two for each of the five lanes. *)
Definition tenPlayers : list TeamSplit.PlayerData :=
  [ TeamSplit.mkPlayerData "p0" 3000 ["TOP"];
    TeamSplit.mkPlayerData "p1" 2900 ["JUNGLE"];
    TeamSplit.mkPlayerData "p2" 2800 ["MIDDLE"];
    TeamSplit.mkPlayerData "p3" 2700 ["BOTTOM"];
    TeamSplit.mkPlayerData "p4" 2600 ["UTILITY"];
    TeamSplit.mkPlayerData "p5" 2500 ["TOP"];
    TeamSplit.mkPlayerData "p6" 2400 ["JUNGLE"];
    TeamSplit.mkPlayerData "p7" 2300 ["MIDDLE"];
    TeamSplit.mkPlayerData "p8" 2200 ["BOTTOM"];
    TeamSplit.mkPlayerData "p9" 2100 ["UTILITY"] ].

(** The same lanes with skills 100, 90, ..., 10. *)
Definition tenJuniors : list TeamSplit.PlayerData :=
  map (fun p => TeamSplit.mkPlayerData (TeamSplit.name p)
                  ((TeamSplit.skill_score p - 2000) / 10)
                  (TeamSplit.main_lanes p)) tenPlayers.

(** C5 at two failing inputs.  Inside [comb] team B is read off what is left
    of [arr] after the last member of team A, not off all ten players, so
    only the choice of the first five players is ever compared with a full
    team B.  On [tenPlayers] the block therefore shows the five strongest
    against the five weakest, 2500 apart, although the feasible split
    {p0, p1, p2, p8, p9} against {p3, ..., p7} is 500 apart; on [tenJuniors]
    a choice with an empty rest wins, and the block reports that no split
    exists although 32 splits are feasible.  In the earlier collector the
    same search panics. *)
Lemma C5_lane_unique_compares_with_rest_of_arr :
  TeamSplit.laneUnique tenPlayers
  = TeamSplit.Found
      [ TeamSplit.mkEntry "p0" "TOP" 3000; TeamSplit.mkEntry "p1" "JUNGLE" 2900;
        TeamSplit.mkEntry "p2" "MIDDLE" 2800;
        TeamSplit.mkEntry "p3" "BOTTOM" 2700;
        TeamSplit.mkEntry "p4" "UTILITY" 2600 ]
      [ TeamSplit.mkEntry "p5" "TOP" 2500; TeamSplit.mkEntry "p6" "JUNGLE" 2400;
        TeamSplit.mkEntry "p7" "MIDDLE" 2300;
        TeamSplit.mkEntry "p8" "BOTTOM" 2200;
        TeamSplit.mkEntry "p9" "UTILITY" 2100 ]
      14000 11500
  /\ In ([0; 1; 2; 8; 9]%nat, [3; 4; 5; 6; 7]%nat)
        (TeamSplit.feasibleSplits tenPlayers)
  /\ TeamSplit.absDiff tenPlayers [0; 1; 2; 8; 9]%nat [3; 4; 5; 6; 7]%nat = 500
  /\ TeamSplit.laneUnique tenJuniors = TeamSplit.NoSplit
  /\ List.length (TeamSplit.feasibleSplits tenJuniors) = 32%nat
  /\ TeamSplit.combEarlier tenPlayers (seq 0 10) 5 []
       (TeamSplit.mkBest (2 ^ 30) [] [] [] []) = None.
Proof.
  split; [vm_compute; reflexivity |].
  split; [vm_compute; tauto |].
  repeat split; vm_compute; reflexivity.
Qed.

(** * Part III. Further properties *)

(** ** More on the rank scale *)

Section RankOrderFacts.
Import RankScale.

Lemma tier_index (t : string) :
  In t tiers -> 1 <= lookupInt tierToInt t <= 10.
Proof.
  intros Ht. simpl in Ht.
  repeat (destruct Ht as [Ht | Ht]; [subst t; vm_compute; split; discriminate |]).
  contradiction.
Qed.

Lemma division_index (d : string) :
  In d divisions -> 1 <= lookupInt rankToInt d <= 4.
Proof.
  intros Hd. simpl in Hd.
  repeat (destruct Hd as [Hd | Hd]; [subst d; vm_compute; split; discriminate |]).
  contradiction.
Qed.

Lemma rankScore_closed (t d : string) (lp : Z) :
  1 <= lookupInt tierToInt t <= 10 -> 1 <= lookupInt rankToInt d <= 4 ->
  0 <= lp <= 99 ->
  rankScore t d lp
  = ((lookupInt tierToInt t - 1) * 4 + (lookupInt rankToInt d - 1)) * 100 + lp.
Proof.
  intros Ht Hd Hlp. unfold rankScore.
  generalize dependent (lookupInt tierToInt t).
  generalize dependent (lookupInt rankToInt d).
  intros di Hd ti Ht.
  unfold GoInt.add, GoInt.mul, GoInt.sub. unwrap_with nia. reflexivity.
Qed.

Lemma tier_of_index (ti : Z) :
  1 <= ti <= 10 ->
  In (lookupStr intToTier ti) tiers /\
  lookupInt tierToInt (lookupStr intToTier ti) = ti.
Proof.
  intros H.
  assert (C : ti = 1 \/ ti = 2 \/ ti = 3 \/ ti = 4 \/ ti = 5 \/ ti = 6 \/
              ti = 7 \/ ti = 8 \/ ti = 9 \/ ti = 10) by lia.
  repeat (destruct C as [-> | C]; [split; [vm_compute; tauto | reflexivity] |]).
  subst ti. split; [vm_compute; tauto | reflexivity].
Qed.

Lemma division_of_index (di : Z) :
  1 <= di <= 4 ->
  In (lookupStr intToRank di) divisions /\
  lookupInt rankToInt (lookupStr intToRank di) = di.
Proof.
  intros H.
  assert (C : di = 1 \/ di = 2 \/ di = 3 \/ di = 4) by lia.
  repeat (destruct C as [-> | C]; [split; [vm_compute; tauto | reflexivity] |]).
  subst di. split; [vm_compute; tauto | reflexivity].
Qed.

(** X1. For every score from 0 to 3999, [scoreToRank] gives one of the ten
    tiers, one of the four divisions and league points between 0 and 99, and
    [rankScore] of that triple is the score again. *)
Theorem X1_rankScore_scoreToRank_roundtrip (score : Z) :
  0 <= score < 4000 ->
  let '(tier, division, lp) := scoreToRank score in
  In tier tiers /\ In division divisions /\ 0 <= lp <= 99
  /\ rankScore tier division lp = score.
Proof.
  intros Hs.
  set (ti := score / 400 + 1).
  set (di := (score mod 400) / 100 + 1).
  set (lp := score mod 100).
  assert (H400 : 0 <= score mod 400 < 400) by (apply Z.mod_pos_bound; lia).
  assert (Hti : 1 <= ti <= 10).
  { unfold ti. assert (0 <= score / 400 < 10); [| lia].
    split; [apply Z.div_pos; lia | apply Z.div_lt_upper_bound; lia]. }
  assert (Hdi : 1 <= di <= 4).
  { unfold di. assert (0 <= (score mod 400) / 100 < 4); [| lia].
    split; [apply Z.div_pos; lia | apply Z.div_lt_upper_bound; lia]. }
  assert (Hlp : 0 <= lp <= 99).
  { unfold lp. pose proof (Z.mod_pos_bound score 100 ltac:(lia)). lia. }
  assert (E : score = ((ti - 1) * 4 + (di - 1)) * 100 + lp).
  { unfold ti, di, lp.
    pose proof (Z.div_mod score 400 ltac:(lia)) as D1.
    pose proof (Z.div_mod (score mod 400) 100 ltac:(lia)) as D2.
    assert (M : (score mod 400) mod 100 = score mod 100).
    { pose proof (Z.mod_pos_bound (score mod 400) 100 ltac:(lia)).
      apply (Z.mod_unique score 100
               (4 * (score / 400) + (score mod 400) / 100));
        [left |]; lia. }
    lia. }
  pose proof (scoreToRank_formula ti di lp Hti Hdi Hlp) as F.
  rewrite <- E in F. rewrite F.
  destruct (tier_of_index ti Hti) as [T1 T2].
  destruct (division_of_index di Hdi) as [D1 D2].
  split; [exact T1 |]. split; [exact D1 |]. split; [exact Hlp |].
  rewrite rankScore_closed; rewrite ?T2, ?D2; try assumption.
  symmetry. exact E.
Qed.

Lemma X1_roundtrip_witness :
  let '(tier, division, lp) := scoreToRank 3999 in
  In tier tiers /\ In division divisions /\ 0 <= lp <= 99
  /\ rankScore tier division lp = 3999.
Proof. apply (X1_rankScore_scoreToRank_roundtrip 3999). lia. Defined.

(** X2. On valid inputs [rankScore] keeps the order of the ranks: one rank
    scores below another exactly when its tier is lower, or the tiers are
    the same and its division is lower, or both are the same and its league
    points are fewer; and every such score lies between 0 and 3999. *)
Theorem X2_rankScore_keeps_the_order
        (t d t' d' : string) (lp lp' : Z) :
  In t tiers -> In d divisions -> 0 <= lp <= 99 ->
  In t' tiers -> In d' divisions -> 0 <= lp' <= 99 ->
  let ti := lookupInt tierToInt t in
  let di := lookupInt rankToInt d in
  let ti' := lookupInt tierToInt t' in
  let di' := lookupInt rankToInt d' in
  (rankScore t d lp < rankScore t' d' lp'
   <-> ti < ti' \/ (ti = ti' /\ (di < di' \/ (di = di' /\ lp < lp'))))
  /\ 0 <= rankScore t d lp < 4000.
Proof.
  intros Ht Hd Hlp Ht' Hd' Hlp' ti di ti' di'.
  pose proof (tier_index t Ht) as I1. pose proof (division_index d Hd) as I2.
  pose proof (tier_index t' Ht') as I3.
  pose proof (division_index d' Hd') as I4.
  rewrite !rankScore_closed by assumption.
  fold ti di ti' di'. fold ti di ti' di' in I1, I2, I3, I4.
  split; [split |]; lia.
Qed.

Lemma X2_order_witness :
  (rankScore "GOLD" "I" 99 < rankScore "PLATINUM" "IV" 0
   <-> 4 < 5 \/ (4 = 5 /\ (4 < 1 \/ (4 = 1 /\ 99 < 0))))
  /\ 0 <= rankScore "GOLD" "I" 99 < 4000.
Proof.
  apply (X2_rankScore_keeps_the_order "GOLD" "I" "PLATINUM" "IV" 99 0);
    try lia; simpl; tauto.
Defined.

End RankOrderFacts.

(** ** More on the limiter *)

Section LimiterMoreFacts.
Import Clock Limiter.

(** Time gone by on the clock over its [n] first readings when nobody
    sleeps. *)
Fixpoint elapsed (lag : Lag) (n : nat) : Z :=
  match n with
  | O => 0
  | S n' => elapsed lag n' + lag n'
  end.

Lemma Wait_room (fuel : nat) (lag : Lag) (c : Clock) (r : RiotLimiter)
      (s : Z) :
  len (secWin r) < 20 -> len (twoMin r) < 100 ->
  let now := base c + lag (reads c) in
  Wait (S fuel) lag c r s
  = Some (mkWaited
            (mkLimiter (prune (now - 1 * Second) (secWin r) ++ [now])
                       (prune (now - 120 * Second) (twoMin r) ++ [now]))
            s (mkClock now (S (reads c)))).
Proof.
  intros H1 H2 now. cbn [Wait Now]. fold now. unfold turn.
  pose proof (prune_len (now - 1 * Second) (secWin r)) as L1.
  pose proof (prune_len (now - 120 * Second) (twoMin r)) as L2.
  replace (len (prune (now - 1 * Second) (secWin r)) <? 20) with true
    by (symmetry; apply Z.ltb_lt; lia).
  replace (len (prune (now - 120 * Second) (twoMin r)) <? 100) with true
    by (symmetry; apply Z.ltb_lt; lia).
  reflexivity.
Qed.

Lemma len_snoc {A : Type} (l : list A) (x : A) : len (l ++ [x]) = len l + 1.
Proof. unfold len. rewrite length_app. cbn [List.length]. lia. Qed.

Lemma burst_calls (fuel : nat) (lag : Lag) (n : nat) :
  forall s : Run,
  len (secWin (lim s)) + Z.of_nat n <= 20 ->
  len (twoMin (lim s)) + Z.of_nat n <= 100 ->
  let s' := calls (S fuel) lag n s in
  List.length (log s') = (List.length (log s) + n)%nat
  /\ reads (clk s') = (reads (clk s) + n)%nat
  /\ base (clk s') + elapsed lag (reads (clk s))
     = base (clk s) + elapsed lag (reads (clk s) + n).
Proof.
  induction n as [| n IH]; intros s H1 H2.
  - cbn [calls]. rewrite !Nat.add_0_r. auto.
  - cbn [calls]. rewrite Wait_room by lia.
    cbn zeta. cbn [after clock base].
    set (now := base (clk s) + lag (reads (clk s))).
    pose proof (prune_len (now - 1 * Second) (secWin (lim s))) as L1.
    pose proof (prune_len (now - 120 * Second) (twoMin (lim s))) as L2.
    match goal with
    | |- context [calls _ _ n ?s1] =>
      specialize (IH s1); cbn [lim clk log secWin twoMin base reads] in IH
    end.
    rewrite !len_snoc in IH.
    destruct IH as (I1 & I2 & I3); [lia | lia |].
    rewrite I1, I2. rewrite length_app. cbn [List.length].
    split; [lia |]. split; [lia |].
    replace (reads (clk s) + S n)%nat with (S (reads (clk s)) + n)%nat by lia.
    cbn [elapsed] in I3. unfold now in *. lia.
Qed.

(** X3. The first twenty calls of [Wait] on a new limiter are each let
    through at their first turn, whatever the clock does: every call is
    recorded, the clock is read once per call, and no time is slept. *)
Theorem X3_first_twenty_calls_never_sleep (fuel : nat) (lag : Lag) (n : nat) :
  (1 <= fuel)%nat -> (n <= 20)%nat ->
  let s := calls fuel lag n fresh in
  List.length (log s) = n
  /\ reads (clk s) = n
  /\ base (clk s) = elapsed lag n.
Proof.
  intros Hf Hn.
  destruct fuel as [| fuel]; [lia |].
  destruct (burst_calls fuel lag n fresh) as (H1 & H2 & H3).
  - unfold len. simpl. lia.
  - unfold len. simpl. lia.
  - cbn zeta. cbn [fresh log clk reads base List.length elapsed] in *.
    rewrite H1, H2. split; [lia |]. split; [lia |].
    cbn [plus] in H3. lia.
Qed.

Lemma X3_first_twenty_witness :
  let s := calls 1 (fun k => Z.of_nat k) 20 fresh in
  List.length (log s) = 20%nat
  /\ reads (clk s) = 20%nat
  /\ base (clk s) = elapsed (fun k => Z.of_nat k) 20.
Proof.
  apply (X3_first_twenty_calls_never_sleep 1 (fun k => Z.of_nat k) 20); lia.
Defined.

(** *** The sleep of one call *)

Lemma prune_same (c : Z) (w : list Z) :
  len w <= len (prune c w) -> prune c w = w.
Proof.
  destruct w as [| t w]; [reflexivity |]. cbn [prune].
  destruct (t <? c); [| reflexivity].
  intros H. pose proof (prune_len c w). unfold len in *.
  cbn [List.length] in H. lia.
Qed.

Lemma windowWait_bounds (cap span t : Z) (w : list Z) :
  0 < cap -> 0 <= span -> Forall (fun u => u <= t) w ->
  0 <= windowWait cap span t w <= span.
Proof.
  intros Hcap Hspan Hpast. unfold windowWait.
  destruct (Z.leb_spec cap (len w)) as [Hfull | _]; [| lia].
  destruct w as [| h rest]; [unfold len in Hfull; simpl in Hfull; lia |].
  inversion Hpast as [| ? ? Hh _]; subst. cbn [hd].
  unfold Sub, GoInt.minInt, GoInt.maxInt.
  destruct (Z.gtb_spec
    (Z.max (- 2 ^ 63) (Z.min (2 ^ 63 - 1) (h + span - t))) 0); lia.
Qed.

(** Once the wait owed to a window has gone by, the window owes nothing
    more. *)
Lemma windowWait_paid (cap span t d t' : Z) (w : list Z) :
  0 < cap -> 0 <= span <= GoInt.maxInt -> len w <= cap ->
  Forall (fun u => u <= t) w ->
  windowWait cap span t w <= d -> t + d <= t' ->
  windowWait cap span t' (prune (t' - span) w) = 0.
Proof.
  intros Hcap Hspan Hlen Hpast Hd Ht'. unfold windowWait at 1.
  destruct (Z.leb_spec cap (len (prune (t' - span) w))) as [Hfull | _];
    [| reflexivity].
  rewrite prune_same by lia.
  pose proof (prune_len (t' - span) w) as L.
  unfold windowWait in Hd.
  destruct (Z.leb_spec cap (len w)) as [_ | Hroom]; [| lia].
  destruct w as [| h rest]; [unfold len in *; simpl in *; lia |].
  inversion Hpast as [| ? ? Hh _]; subst. cbn [hd] in *.
  unfold Sub, GoInt.minInt, GoInt.maxInt in *.
  destruct (Z.gtb_spec
    (Z.max (- 2 ^ 63) (Z.min (2 ^ 63 - 1) (h + span - t))) 0);
  destruct (Z.gtb_spec
    (Z.max (- 2 ^ 63) (Z.min (2 ^ 63 - 1) (h + span - t'))) 0); lia.
Qed.

Lemma turn_sleep (t : Z) (r : RiotLimiter) (r' : RiotLimiter) (d : Z) :
  turn t r = (r', Some d) ->
  let w1 := windowWait 20 (1 * Second) t (prune (t - 1 * Second) (secWin r)) in
  let w2 := windowWait 100 (120 * Second) t
                       (prune (t - 120 * Second) (twoMin r)) in
  r' = mkLimiter (prune (t - 1 * Second) (secWin r))
                 (prune (t - 120 * Second) (twoMin r))
  /\ d = Z.max (10 * Millisecond) (Z.max w1 w2).
Proof.
  unfold turn.
  destruct ((len (prune (t - 1 * Second) (secWin r)) <? 20)
            && (len (prune (t - 120 * Second) (twoMin r)) <? 100));
    [discriminate |].
  set (w1 := windowWait 20 (1 * Second) t (prune (t - 1 * Second) (secWin r))).
  set (w2 := windowWait 100 (120 * Second) t
                        (prune (t - 120 * Second) (twoMin r))).
  intros E. inversion E as [[E1 E2]]. split; [reflexivity |].
  clear E E1 E2.
  destruct (Z.gtb_spec w2 w1);
    match goal with
    | |- context [?x <? ?y] => destruct (Z.ltb_spec x y)
    end; unfold Millisecond; lia.
Qed.

(** What a call does on a steady clock: it records at its first turn
    without sleeping; or it sleeps once, at most 120 seconds, and records at
    the second turn; or it sleeps 10 milliseconds more and records at the
    third. *)
Lemma Wait_three_turns (lag : Lag) (c : Clock) (r : RiotLimiter) :
  steady lag -> LimOK (base c) r ->
  exists w, Wait 3 lag c r 0 = Some w
    /\ 0 <= slept w <= 120 * Second + 10 * Millisecond
    /\ base c + slept w <= base (clock w)
    /\ (reads c < reads (clock w) <= reads c + 3)%nat.
Proof.
  intros Hlag HO.
  assert (HS : 0 <= 1 * Second <= GoInt.maxInt /\
               0 <= 120 * Second <= GoInt.maxInt)
    by (unfold Second, GoInt.maxInt; lia).
  destruct HS as [HS1 HS2].
  cbn [Wait Now].
  set (t0 := base c + lag (reads c)).
  assert (Ht0 : base c <= t0) by (pose proof (Hlag (reads c)); lia).
  pose proof (turn_LimOK _ _ _ Ht0 HO) as HO1.
  destruct (turn t0 r) as [r1 [d0 |]] eqn:E0.
  2:{ eexists. split; [reflexivity |]. cbn [slept clock base reads].
      unfold Second, Millisecond. lia. }
  cbn [fst] in HO1.
  destruct (turn_sleep t0 r r1 d0 E0) as [Er1 Ed0]. cbn zeta in Ed0.
  destruct HO1 as [P1 P2 L1 L2]. rewrite Er1 in P1, P2, L1, L2.
  cbn [secWin twoMin] in P1, P2, L1, L2.
  set (sw := prune (t0 - 1 * Second) (secWin r)) in *.
  set (tm := prune (t0 - 120 * Second) (twoMin r)) in *.
  pose proof (windowWait_bounds 20 (1 * Second) t0 sw
                ltac:(lia) ltac:(lia) P1) as B1.
  pose proof (windowWait_bounds 100 (120 * Second) t0 tm
                ltac:(lia) ltac:(lia) P2) as B2.
  assert (Hd0 : 10 * Millisecond <= d0 <= 120 * Second)
    by (unfold Second, Millisecond in *; lia).
  cbn [Sleep base reads].
  set (t1 := t0 + Z.max 0 d0 + lag (S (reads c))).
  assert (Ht1 : t0 + d0 <= t1)
    by (pose proof (Hlag (S (reads c))); unfold t1; lia).
  assert (A0 : GoInt.add 0 d0 = d0).
  { unfold GoInt.add. apply wrap_inRange.
    unfold GoInt.inRange, GoInt.minInt, GoInt.maxInt, Second, Millisecond in *.
    lia. }
  rewrite A0.
  destruct (turn t1 r1) as [r2 [d1 |]] eqn:E1.
  2:{ eexists. split; [reflexivity |]. cbn [slept clock base reads].
      unfold Second, Millisecond in *. lia. }
  destruct (turn_sleep t1 r1 r2 d1 E1) as [Er2 Ed1]. cbn zeta in Ed1.
  rewrite Er1 in Ed1. cbn [secWin twoMin] in Ed1. fold sw tm in Ed1.
  rewrite (windowWait_paid 20 (1 * Second) t0 d0 t1 sw) in Ed1
    by (try assumption; lia).
  rewrite (windowWait_paid 100 (120 * Second) t0 d0 t1 tm) in Ed1
    by (try assumption; lia).
  assert (Hd1 : d1 = 10 * Millisecond) by (unfold Millisecond in *; lia).
  cbn [Sleep base reads].
  set (t2 := t1 + Z.max 0 d1 + lag (S (S (reads c)))).
  assert (Ht2 : t0 + d0 < t2 /\ t1 + d1 <= t2)
    by (pose proof (Hlag (S (S (reads c)))); unfold t2, Millisecond in *; lia).
  destruct Ht2 as [Ht2 Ht12].
  assert (A1 : GoInt.add d0 d1 = d0 + d1).
  { unfold GoInt.add. apply wrap_inRange.
    unfold GoInt.inRange, GoInt.minInt, GoInt.maxInt, Second, Millisecond in *.
    lia. }
  rewrite A1.
  pose proof (window_ready_after 20 _ t0 d0 _ ltac:(lia) HS1 L1 P1
                ltac:(lia)) as Ra.
  pose proof (window_ready_after 100 _ t0 d0 _ ltac:(lia) HS2 L2 P2
                ltac:(lia)) as Rb.
  specialize (Ra t2 Ht2). specialize (Rb t2 Ht2).
  assert (E2 : exists r3, turn t2 r2 = (r3, None)).
  { unfold turn. rewrite Er2, Er1. cbn [secWin twoMin].
    unfold sw, tm. rewrite !prune_prune by lia.
    fold sw tm. unfold sw, tm in Ra, Rb.
    rewrite prune_prune in Ra, Rb by lia.
    apply Z.ltb_lt in Ra. apply Z.ltb_lt in Rb.
    rewrite Ra, Rb. cbn [andb]. eexists. reflexivity. }
  destruct E2 as (r3 & E2). rewrite E2.
  eexists. split; [reflexivity |]. cbn [slept clock base reads].
  unfold Second, Millisecond in *. lia.
Qed.

(** X4. On a steady clock, with a well-formed limiter and a single caller,
    [Wait] returns after at most three turns, having slept between 0 and
    120 seconds plus 10 milliseconds; the clock has moved on by at least the
    time slept. *)
Theorem X4_wait_returns_having_slept_at_most_120s
        (lag : Lag) (fuel : nat) (c : Clock) (r : RiotLimiter) :
  steady lag -> (3 <= fuel)%nat -> LimOK (base c) r ->
  exists w, Wait fuel lag c r 0 = Some w
    /\ 0 <= slept w <= 120 * Second + 10 * Millisecond
    /\ base c + slept w <= base (clock w)
    /\ (reads c < reads (clock w) <= reads c + 3)%nat.
Proof.
  intros Hlag Hfuel HO.
  destruct (Wait_three_turns lag c r Hlag HO) as (w & E & H).
  exists w. split; [| exact H].
  replace fuel with ((fuel - 3) + 3)%nat by lia.
  induction (fuel - 3)%nat as [| k IH]; [exact E |].
  simpl plus. now apply Wait_more_fuel.
Qed.

Lemma X4_wait_witness :
  exists w, Wait 3 (fun _ => 0) (mkClock 0 0) NewRiotLimiter 0 = Some w
    /\ 0 <= slept w <= 120 * Second + 10 * Millisecond
    /\ base (mkClock 0 0) + slept w <= base (clock w)
    /\ (reads (mkClock 0 0) < reads (clock w) <= reads (mkClock 0 0) + 3)%nat.
Proof.
  apply (X4_wait_returns_having_slept_at_most_120s
           (fun _ => 0) 3 (mkClock 0 0) NewRiotLimiter).
  - intros k. lia.
  - lia.
  - apply LimOK_new.
Defined.

End LimiterMoreFacts.

Section LimiterStateFacts.
Import Clock Limiter.

Variable lag : Lag.
Hypothesis lag_steady : steady lag.

Lemma Wait_clock_mono (fuel : nat) :
  forall (c : Clock) (r : RiotLimiter) (s : Z) (w : Waited),
  Wait fuel lag c r s = Some w -> base c <= base (clock w).
Proof.
  induction fuel as [| fuel IH]; intros c r s w H; [discriminate |].
  cbn [Wait Now] in H. pose proof (lag_steady (reads c)) as Hk.
  destruct (turn (base c + lag (reads c)) r) as [r' [d |]].
  - apply IH in H. cbn [Sleep base] in H. lia.
  - inversion H; subst. cbn [clock base]. lia.
Qed.

Lemma Wait_LimOK (fuel : nat) :
  forall (c : Clock) (r : RiotLimiter) (s : Z) (w : Waited),
  LimOK (base c) r -> Wait fuel lag c r s = Some w ->
  LimOK (base (clock w)) (after w).
Proof.
  induction fuel as [| fuel IH]; intros c r s w HO H; [discriminate |].
  cbn [Wait Now] in H. pose proof (lag_steady (reads c)) as Hk.
  pose proof (turn_LimOK (base c) (base c + lag (reads c)) r
                ltac:(lia) HO) as HO1.
  destruct (turn (base c + lag (reads c)) r) as [r' [d |]]; cbn [fst] in HO1.
  - eapply IH; [| exact H]. cbn [Sleep base].
    eapply LimOK_later; [| exact HO1]. lia.
  - inversion H; subst. exact HO1.
Qed.

Lemma sorted_record (l : list Z) (x : Z) :
  StronglySorted Z.le l -> Forall (fun t => t <= x) l ->
  StronglySorted Z.le (l ++ [x]).
Proof.
  induction 1 as [| a l Hl IH Ha]; intros Hx; cbn [app].
  - repeat constructor.
  - inversion Hx as [| ? ? Hax Hlx]; subst. constructor.
    + now apply IH.
    + apply Forall_app. split; [exact Ha | now repeat constructor].
Qed.

(** What holds of a run between two calls. *)
Record RunOK (s : Run) : Prop := mkRunOK {
  run_inv : Inv (base (clk s)) (lim s) (log s);
  run_lim : LimOK (base (clk s)) (lim s);
  run_sorted : StronglySorted Z.le (log s)
}.

Lemma RunOK_fresh : RunOK fresh.
Proof.
  constructor; [apply Inv_init | apply LimOK_new | constructor].
Qed.

Lemma calls_RunOK (fuel n : nat) :
  forall s : Run, RunOK s -> RunOK (calls fuel lag n s).
Proof.
  induction n as [| n IH]; intros s HR; cbn [calls]; [exact HR |].
  destruct (Wait fuel lag (clk s) (lim s) 0) as [w |] eqn:HW; [| exact HR].
  apply IH. destruct HR as [HI HO HS].
  constructor; cbn [lim clk log].
  - eapply Wait_Inv; eassumption.
  - eapply Wait_LimOK; eassumption.
  - apply sorted_record; [exact HS |].
    eapply Forall_le_trans; [| exact (inv_past _ _ _ HI)].
    eapply Wait_clock_mono; exact HW.
Qed.

(** X5. After any number of calls on a steady clock the one-second window
    holds at most 20 instants and the two-minute window at most 100; the
    recorded instants are in ascending order and each window is a tail of
    the log, so the head of a window is its oldest entry. *)
Theorem X5_windows_bounded_and_in_order (fuel n : nat) :
  let s := calls fuel lag n fresh in
  len (secWin (lim s)) <= 20 /\ len (twoMin (lim s)) <= 100
  /\ StronglySorted Z.le (log s)
  /\ (exists old, log s = old ++ secWin (lim s))
  /\ (exists old, log s = old ++ twoMin (lim s)).
Proof.
  intros s. destruct (calls_RunOK fuel n fresh RunOK_fresh) as [HI HO HS].
  fold s in HI, HO, HS.
  destruct HO as [_ _ L1 L2].
  destruct HI as [_ (o1 & E1 & _) (o2 & E2 & _) _ _].
  split; [exact L1 |]. split; [exact L2 |]. split; [exact HS |].
  split; [now exists o1 | now exists o2].
Qed.

End LimiterStateFacts.

Lemma X5_windows_witness :
  let s := Limiter.calls 3 (fun _ => 0) 21 Limiter.fresh in
  Limiter.len (Limiter.secWin (Limiter.lim s)) <= 20
  /\ Limiter.len (Limiter.twoMin (Limiter.lim s)) <= 100
  /\ StronglySorted Z.le (Limiter.log s)
  /\ (exists old, Limiter.log s = old ++ Limiter.secWin (Limiter.lim s))
  /\ (exists old, Limiter.log s = old ++ Limiter.twoMin (Limiter.lim s)).
Proof.
  apply (X5_windows_bounded_and_in_order (fun _ => 0)).
  intros k. lia.
Defined.

(** ** More on the executor *)

Section ExecutorMoreFacts.
Import Clock Limiter Executor.

Variable lag : Lag.
Variable fuel : nat.

(** The reply is handed back to the caller: a 200 without transport error,
    or a 404. *)
Definition returned (reply : Reply) : bool :=
  match resp reply with
  | Some r => (negb (failed reply) && (StatusCode r =? 200))
              || (StatusCode r =? 404)
  | None => false
  end.

Definition is429 (reply : Reply) : bool :=
  match resp reply with
  | Some r => StatusCode r =? 429
  | None => false
  end.

(** [lastStatus] once the reply has been looked at. *)
Definition seenStatus (reply : Reply) (st : Loop) : Z :=
  match resp reply with
  | Some r => StatusCode r
  | None => lastStatus st
  end.

(** The three ways a turn of the loop can go. *)
Lemma attempt_cases (skip : bool) (maxRetry : Z) (reply : Reply) (st : Loop)
      (w : World) :
  attempt skip maxRetry reply st w
  = if returned reply
    then Exit (resp reply) None (count RecordCompleted (count RecordAttempt w))
    else if is429 reply
    then if skip then Exit None None (booked429 reply w)
         else Again (mkLoop (backoff st) (seenStatus reply st)
                            (GoInt.add (tries st) 1))
                    (nap (RateLimited (retryAfterWait (hintOf reply)))
                         (booked429 reply w))
    else giveUpOrBackOff skip maxRetry
           (mkLoop (backoff st) (seenStatus reply st) (GoInt.add (tries st) 1))
           (count RecordAttempt w).
Proof.
  unfold attempt, returned, is429, seenStatus, booked429, hintOf.
  destruct (resp reply) as [r |]; [| reflexivity].
  cbn [backoff tries lastStatus].
  destruct (negb (failed reply) && (StatusCode r =? 200)); cbn [orb];
    [reflexivity |].
  destruct (StatusCode r =? 404); [reflexivity |].
  destruct (StatusCode r =? 429); [reflexivity |].
  now destruct ((500 <=? StatusCode r) && (StatusCode r <? 600)).
Qed.

Lemma returned_status (reply : Reply) :
  returned reply = true ->
  exists r, resp reply = Some r /\ (StatusCode r = 200 \/ StatusCode r = 404).
Proof.
  unfold returned. destruct (resp reply) as [r |]; [| discriminate].
  intros H. exists r. split; [reflexivity |].
  apply orb_true_iff in H. destruct H as [H | H].
  - apply andb_true_iff in H. left. now apply Z.eqb_eq.
  - right. now apply Z.eqb_eq.
Qed.

(** What [limiter.Wait] and the bookkeeping around it leave untouched. *)
Lemma enter_keeps (w w1 : World) :
  enter fuel lag w = Some w1 ->
  naps w1 = naps w
  /\ players (counters w1) = players (counters w)
  /\ planned (counters w1) = planned (counters w)
  /\ completed (counters w1) = completed (counters w)
  /\ retries (counters w1) = retries (counters w)
  /\ wait429 (counters w1) = wait429 (counters w).
Proof.
  unfold enter. destruct (Wait fuel lag (wclock w) (limiter w) 0) as [wt |];
    [| discriminate].
  intros E. inversion E; subst. cbn [naps counters].
  unfold AddRateWait. destruct (slept wt >? 0); cbn; auto 10.
Qed.

(** *** The shape of the result *)

Definition shapeOK (skip : bool) (maxRetry : Z) (script : list Reply)
           (o : Outcome) : Prop :=
  match o with
  | Done (Some r) e =>
    e = None /\ (StatusCode r = 200 \/ StatusCode r = 404)
    /\ exists reply, In reply script /\ resp reply = Some r
  | Done None (Some _) => skip = false /\ 0 < maxRetry
  | Done None None => skip = true
  | Running | Waiting => True
  end.

Lemma shapeOK_later (skip : bool) (maxRetry : Z) (reply : Reply)
      (script : list Reply) (o : Outcome) :
  shapeOK skip maxRetry script o -> shapeOK skip maxRetry (reply :: script) o.
Proof.
  destruct o as [[r |] [e |] | |]; cbn [shapeOK]; auto.
  - intros (H1 & H2 & rp & H3 & H4). split; [exact H1 |].
    split; [exact H2 |]. exists rp. split; [now right | exact H4].
  - intros (H1 & H2 & rp & H3 & H4). split; [exact H1 |].
    split; [exact H2 |]. exists rp. split; [now right | exact H4].
Qed.

Lemma giveUpOrBackOff_shape (skip : bool) (maxRetry : Z) (st : Loop)
      (w : World) (script : list Reply) :
  match giveUpOrBackOff skip maxRetry st w with
  | Exit r e _ => shapeOK skip maxRetry script (Done r e)
  | Again _ _ => True
  end.
Proof.
  unfold giveUpOrBackOff. destruct skip; [reflexivity |].
  destruct (maxRetry >? 0) eqn:Hm; cbn [andb]; [| exact I].
  destruct (tries st >=? maxRetry); [| exact I].
  cbn [shapeOK]. split; [reflexivity |]. now apply Z.gtb_lt in Hm.
Qed.

Lemma retryLoop_shape (skip : bool) (maxRetry : Z) (script : list Reply) :
  forall (st : Loop) (w : World),
  shapeOK skip maxRetry script
          (fst (retryLoop fuel lag skip maxRetry script st w)).
Proof.
  induction script as [| reply rest IH]; intros st w; cbn [retryLoop].
  - exact I.
  - destruct (enter fuel lag w) as [w1 |]; [| exact I].
    rewrite attempt_cases.
    destruct (returned reply) eqn:Hret.
    + cbn [fst]. destruct (returned_status reply Hret) as (r & E & Hs).
      rewrite E. cbn [shapeOK]. split; [reflexivity |].
      split; [exact Hs |]. exists reply. split; [now left | exact E].
    + destruct (is429 reply).
      * destruct skip; [reflexivity |]. apply shapeOK_later, IH.
      * pose proof (giveUpOrBackOff_shape skip maxRetry
          (mkLoop (backoff st) (seenStatus reply st) (GoInt.add (tries st) 1))
          (count RecordAttempt w1) (reply :: rest)) as G.
        destruct (giveUpOrBackOff skip maxRetry _ _) as [st' w' | r e w'].
        -- apply shapeOK_later, IH.
        -- exact G.
Qed.

(** X6. [doRequestWithRetry] never returns both a response and an error.
    A response it returns is that of one of the replies and has status 200
    or 404; an error is returned only outside best-effort mode and with a
    positive [maxRetry]; the pair of two nils only in best-effort mode. *)
Theorem X6_result_is_response_or_error_never_both
        (SKIP : string) (maxRetry : Z) (script : list Reply) (w : World) :
  match fst (doRequestWithRetry fuel lag SKIP maxRetry script w) with
  | Done (Some r) e =>
    e = None /\ (StatusCode r = 200 \/ StatusCode r = 404)
    /\ exists reply, In reply script /\ resp reply = Some r
  | Done None (Some _) => SKIP <> "true" /\ 0 < maxRetry
  | Done None None => SKIP = "true"
  | Running | Waiting => True
  end.
Proof.
  unfold doRequestWithRetry.
  pose proof (retryLoop_shape (String.eqb SKIP "true") maxRetry script
                (mkLoop (1 * Second) 0 0) w) as H.
  destruct (fst (retryLoop fuel lag (String.eqb SKIP "true") maxRetry script
                           (mkLoop (1 * Second) 0 0) w))
    as [[r |] [e |] | |]; cbn [shapeOK] in H; try exact H; try exact I.
  - destruct H as [H1 H2]. split; [| exact H2].
    now apply String.eqb_neq.
  - now apply String.eqb_eq.
Qed.

(** *** The sleeps of the executor *)

Definition backoffSteps : list Z :=
  map (fun k => k * Second) [1; 2; 4; 8; 16; 32].

Definition napOK (n : Nap) : Prop :=
  match n with
  | BackOff d => In d backoffSteps
  | RateLimited d => d <> 0
  end.

Lemma nextBackoff_steps (b : Z) :
  In b backoffSteps -> In (nextBackoff b) backoffSteps.
Proof.
  unfold backoffSteps. cbn [map In]. intros H.
  repeat (destruct H as [H | H]; [subst b; vm_compute; tauto |]).
  contradiction.
Qed.

Lemma retryAfterWait_nonzero (ra : string) : retryAfterWait ra <> 0.
Proof.
  unfold retryAfterWait.
  match goal with
  | |- context [if ?x =? 0 then _ else _] => destruct (Z.eqb_spec x 0)
  end; [unfold Second; lia | assumption].
Qed.

Lemma retryLoop_naps (skip : bool) (maxRetry : Z) (script : list Reply) :
  forall (st : Loop) (w : World),
  In (backoff st) backoffSteps ->
  exists extra,
    naps (snd (retryLoop fuel lag skip maxRetry script st w)) = naps w ++ extra
    /\ Forall napOK extra.
Proof.
  induction script as [| reply rest IH]; intros st w Hb; cbn [retryLoop].
  - exists []. split; [now rewrite app_nil_r | constructor].
  - destruct (enter fuel lag w) as [w1 |] eqn:E1;
      [| exists []; split; [now rewrite app_nil_r | constructor]].
    destruct (enter_keeps w w1 E1) as (N1 & _).
    rewrite attempt_cases.
    destruct (returned reply).
    { exists []. cbn [snd count naps]. rewrite N1.
      split; [now rewrite app_nil_r | constructor]. }
    destruct (is429 reply).
    { destruct skip.
      - exists []. cbn [snd]. rewrite naps_booked429, N1.
        split; [now rewrite app_nil_r | constructor].
      - destruct (IH (mkLoop (backoff st) (seenStatus reply st)
                             (GoInt.add (tries st) 1))
                     (nap (RateLimited (retryAfterWait (hintOf reply)))
                          (booked429 reply w1)) Hb) as (extra & E & HF).
        exists (RateLimited (retryAfterWait (hintOf reply)) :: extra).
        rewrite E. cbn [nap naps]. rewrite naps_booked429, N1, <- app_assoc.
        split; [reflexivity |]. constructor; [| exact HF].
        apply retryAfterWait_nonzero. }
    unfold giveUpOrBackOff. cbn [tries backoff lastStatus].
    destruct skip.
    { exists []. cbn [snd count naps]. rewrite N1.
      split; [now rewrite app_nil_r | constructor]. }
    destruct ((maxRetry >? 0) && (GoInt.add (tries st) 1 >=? maxRetry)).
    { exists []. cbn [snd count naps]. rewrite N1.
      split; [now rewrite app_nil_r | constructor]. }
    destruct (IH (mkLoop (nextBackoff (backoff st)) (seenStatus reply st)
                         (GoInt.add (tries st) 1))
                 (nap (BackOff (backoff st)) (count RecordAttempt w1))
                 (nextBackoff_steps _ Hb)) as (extra & E & HF).
    exists (BackOff (backoff st) :: extra).
    rewrite E. cbn [nap count naps]. rewrite N1, <- app_assoc.
    split; [reflexivity |]. constructor; [exact Hb | exact HF].
Qed.

(** X9. Whatever the replies, the mode and [maxRetry], every backoff sleep
    of [doRequestWithRetry] lasts 1, 2, 4, 8, 16 or 32 seconds, and no sleep
    after a 429 is of zero length. *)
Theorem X9_backoff_sleeps_are_1_to_32_seconds
        (SKIP : string) (maxRetry : Z) (script : list Reply) (w : World) :
  exists extra,
    naps (snd (doRequestWithRetry fuel lag SKIP maxRetry script w))
    = naps w ++ extra
    /\ Forall (fun n => match n with
                        | BackOff d =>
                          In d (map (fun k => k * Second) [1; 2; 4; 8; 16; 32])
                        | RateLimited d => d <> 0
                        end) extra.
Proof.
  unfold doRequestWithRetry. apply retryLoop_naps.
  cbn [backoff]. vm_compute. tauto.
Qed.

(** *** The completion counter *)

Lemma retryLoop_completed (skip : bool) (maxRetry : Z) (script : list Reply) :
  forall (st : Loop) (w : World),
  let run := retryLoop fuel lag skip maxRetry script st w in
  completed (counters (snd run))
  = match fst run with
    | Done (Some _) _ => GoInt.add (completed (counters w)) 1
    | _ => completed (counters w)
    end
  /\ players (counters (snd run)) = players (counters w)
  /\ planned (counters (snd run)) = planned (counters w).
Proof.
  induction script as [| reply rest IH]; intros st w; cbn [retryLoop].
  - cbn. auto.
  - destruct (enter fuel lag w) as [w1 |] eqn:E1; [| cbn; auto].
    destruct (enter_keeps w w1 E1) as (_ & K1 & K2 & K3 & _).
    rewrite attempt_cases.
    destruct (returned reply) eqn:Hret.
    { destruct (returned_status reply Hret) as (r & E & _). rewrite E.
      cbn. rewrite K1, K2, K3. auto. }
    assert (B : forall c, completed (counters (booked429 reply c))
                          = completed (counters c)
                          /\ players (counters (booked429 reply c))
                             = players (counters c)
                          /\ planned (counters (booked429 reply c))
                             = planned (counters c)).
    { intros c. unfold booked429. cbn [count counters].
      unfold Add429Wait. destruct (_ >? 0); cbn; auto. }
    destruct (is429 reply).
    { destruct skip.
      - cbn [fst snd]. destruct (B w1) as (B1 & B2 & B3).
        rewrite B1, B2, B3, K1, K2, K3. auto.
      - cbn zeta in IH.
        match goal with
        | |- context [retryLoop _ _ _ _ rest ?st' ?w'] =>
          destruct (IH st' w') as (I1 & I2 & I3); rewrite I1, I2, I3
        end.
        cbn [nap counters]. destruct (B w1) as (B1 & B2 & B3).
        rewrite B1, B2, B3, K1, K2, K3. auto. }
    unfold giveUpOrBackOff. cbn [tries backoff lastStatus].
    destruct skip; [cbn; rewrite K1, K2, K3; auto |].
    destruct ((maxRetry >? 0) && (GoInt.add (tries st) 1 >=? maxRetry));
      [cbn; rewrite K1, K2, K3; auto |].
    cbn zeta in IH.
    match goal with
    | |- context [retryLoop _ _ _ _ rest ?st' ?w'] =>
      destruct (IH st' w') as (I1 & I2 & I3); rewrite I1, I2, I3
    end.
    cbn. rewrite K1, K2, K3. auto.
Qed.

(** X10. A call of [doRequestWithRetry] adds one to the completed counter
    exactly when it returns a response, and leaves the players and planned
    counters as they were. *)
Theorem X10_completed_counts_returned_responses
        (SKIP : string) (maxRetry : Z) (script : list Reply) (w : World) :
  let run := doRequestWithRetry fuel lag SKIP maxRetry script w in
  completed (counters (snd run))
  = match fst run with
    | Done (Some _) _ => GoInt.add (completed (counters w)) 1
    | _ => completed (counters w)
    end
  /\ players (counters (snd run)) = players (counters w)
  /\ planned (counters (snd run)) = planned (counters w).
Proof. unfold doRequestWithRetry. apply retryLoop_completed. Qed.

End ExecutorMoreFacts.

Section ExecutorAuxFacts.
Import Clock Limiter Executor.

Definition isBackOff (n : Nap) : bool :=
  match n with BackOff _ => true | RateLimited _ => false end.

Lemma is429_tooMany (reply : Reply) : is429 reply = true <-> tooMany reply.
Proof.
  unfold is429, tooMany. destruct (resp reply) as [r |].
  - rewrite Z.eqb_eq. split.
    + intros H. now exists r.
    + intros (r' & E & H). now inversion E; subst.
  - split; [discriminate | intros (r' & E & _); discriminate].
Qed.

Lemma tooMany_not_returned (reply : Reply) :
  tooMany reply -> returned reply = false.
Proof.
  intros (r & E & H). unfold returned. rewrite E, H.
  cbn [Z.eqb Pos.eqb]. now rewrite andb_false_r.
Qed.

Lemma add_one (x bound : Z) :
  0 <= x < bound -> bound <= GoInt.maxInt -> GoInt.add x 1 = x + 1.
Proof.
  intros Hx Hb. unfold GoInt.add. apply wrap_inRange.
  unfold GoInt.inRange, GoInt.minInt, GoInt.maxInt in *. lia.
Qed.

(** X12. A 429 whose Retry-After parses as a negative number of seconds
    is taken as it is: the executor goes round again at once, the clock is
    not moved and nothing is added to the 429-wait total. *)
Theorem X12_negative_hint_retries_at_once
        (maxRetry : Z) (reply : Reply) (v : Z) (st : Loop) (w : World) :
  tooMany reply -> Atoi (hintOf reply) = Some v -> - 9223372036 <= v < 0 ->
  exists st' w',
    attempt false maxRetry reply st w = Again st' w'
    /\ naps w' = naps w ++ [RateLimited (v * Second)]
    /\ base (wclock w') = base (wclock w)
    /\ wait429 (counters w') = wait429 (counters w).
Proof.
  intros H429 Ha Hv. rewrite (attempt_429 false) by exact H429.
  assert (E : retryAfterWait (hintOf reply) = v * Second).
  { unfold retryAfterWait.
    destruct (String.eqb_spec (hintOf reply) "") as [E0 | _].
    - rewrite E0 in Ha. discriminate.
    - rewrite Ha. unfold GoInt.mul.
      rewrite wrap_inRange
        by (unfold GoInt.inRange, GoInt.minInt, GoInt.maxInt, Second; lia).
      destruct (Z.eqb_spec (v * Second) 0) as [E | _]; [| reflexivity].
      unfold Second in E. lia. }
  rewrite E. eexists. eexists. split; [reflexivity |].
  cbn [nap naps wclock counters Sleep base napTime].
  rewrite naps_booked429. split; [reflexivity |].
  unfold booked429. cbn [count counters wclock].
  split; [unfold Second; lia |].
  unfold Add429Wait. rewrite E.
  replace (v * Second >? 0) with false
    by (symmetry; rewrite Z.gtb_ltb; apply Z.ltb_ge; unfold Second; lia).
  reflexivity.
Qed.

End ExecutorAuxFacts.

Section ExecutorBudgetFacts.
Import Clock Limiter Executor.

Variable lag : Lag.
Variable fuel : nat.
Hypothesis lag_steady : steady lag.
Hypothesis fuel_enough : (3 <= fuel)%nat.

(** Without a 429 among the replies the loop is over after at most
    [maxRetry - tries] turns. *)
Lemma retryLoop_bounded (maxRetry : Z) (script : list Reply) :
  forall (st : Loop) (w : World),
  WOK w -> maxRetry <= GoInt.maxInt ->
  0 <= tries st < maxRetry ->
  maxRetry - tries st <= Z.of_nat (List.length script) ->
  Forall (fun reply => ~ tooMany reply) script ->
  exists r e w' extra,
    retryLoop fuel lag false maxRetry script st w = (Done r e, w')
    /\ naps w' = naps w ++ extra
    /\ Z.of_nat (List.length extra) < maxRetry - tries st
    /\ forallb isBackOff extra = true.
Proof.
  induction script as [| reply rest IH]; intros st w HO Hmax Ht Hlen HF.
  - cbn [List.length] in Hlen. lia.
  - inversion HF as [| ? ? Hn HF']; subst.
    destruct (enter_total lag fuel lag_steady fuel_enough w HO)
      as (w1 & E1 & HO1 & N1 & _).
    cbn [retryLoop]. rewrite E1, attempt_cases.
    destruct (returned reply).
    { exists (resp reply), None, (count RecordCompleted (count RecordAttempt w1)), [].
      split; [reflexivity |]. cbn [count naps List.length forallb].
      rewrite N1, app_nil_r. split; [reflexivity |]. split; [lia | reflexivity]. }
    destruct (is429 reply) eqn:H429;
      [apply is429_tooMany in H429; contradiction |].
    unfold giveUpOrBackOff. cbn [tries backoff lastStatus].
    rewrite (add_one (tries st) maxRetry) by lia.
    replace (maxRetry >? 0) with true by (symmetry; apply Z.gtb_lt; lia).
    cbn [andb].
    destruct (Z.geb_spec (tries st + 1) maxRetry) as [Hge | Hlt].
    { exists None, (Some (seenStatus reply st)), (count RecordAttempt w1), [].
      split; [reflexivity |]. cbn [count naps List.length forallb].
      rewrite N1, app_nil_r. split; [reflexivity |]. split; [lia | reflexivity]. }
    cbn [List.length] in Hlen. rewrite Nat2Z.inj_succ in Hlen.
    destruct (IH (mkLoop (nextBackoff (backoff st)) (seenStatus reply st)
                         (tries st + 1))
                 (nap (BackOff (backoff st)) (count RecordAttempt w1)))
      as (r & e & w' & extra & E & N & L & B);
      try assumption; cbn [tries]; try lia.
    { apply (WOK_nap fuel fuel_enough), WOK_count, HO1. }
    exists r, e, w', (BackOff (backoff st) :: extra). cbn [tries] in L.
    split; [exact E |]. rewrite N. cbn [nap count naps List.length forallb].
    rewrite N1, <- app_assoc, Nat2Z.inj_succ.
    split; [reflexivity |]. split; [lia | exact B].
Qed.

(** X7. Outside best-effort mode, with a positive [maxRetry] and no 429
    among the replies, the call is over within [maxRetry] attempts: it
    returns, having slept fewer than [maxRetry] times, each time a
    backoff. *)
Theorem X7_returns_within_maxRetry_attempts
        (SKIP : string) (maxRetry : Z) (script : list Reply) (w : World) :
  SKIP <> "true" -> WOK w ->
  0 < maxRetry <= GoInt.maxInt ->
  maxRetry <= Z.of_nat (List.length script) ->
  Forall (fun reply => ~ tooMany reply) script ->
  exists r e w' extra,
    doRequestWithRetry fuel lag SKIP maxRetry script w = (Done r e, w')
    /\ naps w' = naps w ++ extra
    /\ Z.of_nat (List.length extra) < maxRetry
    /\ forallb isBackOff extra = true.
Proof.
  intros HS HO Hmax Hlen HF. unfold doRequestWithRetry.
  rewrite (skip_off SKIP HS).
  destruct (retryLoop_bounded maxRetry script (mkLoop (1 * Second) 0 0) w)
    as (r & e & w' & extra & E & N & L & B);
    try assumption; cbn [tries]; try lia.
  exists r, e, w', extra. cbn [tries] in L.
  split; [exact E |]. split; [exact N |]. split; [lia | exact B].
Qed.

(** A run of 429 replies leaves the backoff as it is and counts every one
    of them as a try. *)
Lemma retry_every_429_tries (maxRetry : Z) (limited : list Reply) :
  forall (rest : list Reply) (st : Loop) (w : World),
  WOK w -> Forall tooMany limited ->
  0 <= tries st ->
  tries st + Z.of_nat (List.length limited) <= GoInt.maxInt ->
  exists w',
    retryLoop fuel lag false maxRetry (limited ++ rest) st w
    = retryLoop fuel lag false maxRetry rest
        (mkLoop (backoff st)
                (match limited with [] => lastStatus st | _ => 429 end)
                (tries st + Z.of_nat (List.length limited))) w'
    /\ WOK w'
    /\ naps w' = naps w ++
         map (fun rp => RateLimited (retryAfterWait (hintOf rp))) limited.
Proof.
  induction limited as [| rp limited IH]; intros rest st w HO HF Ht Hlen.
  - exists w. cbn [app map List.length]. rewrite app_nil_r, Z.add_0_r.
    split; [now destruct st | auto].
  - inversion HF as [| ? ? Hrp HF']; subst.
    cbn [List.length] in Hlen. rewrite Nat2Z.inj_succ in Hlen.
    destruct (enter_total lag fuel lag_steady fuel_enough w HO)
      as (w1 & E1 & HO1 & N1 & _).
    cbn [app retryLoop]. rewrite E1, (attempt_429 false) by exact Hrp.
    set (w2 := nap _ _).
    assert (HO2 : WOK w2) by (apply (WOK_nap fuel fuel_enough); exact HO1).
    rewrite (add_one (tries st) (tries st + 1)) by lia.
    destruct (IH rest (mkLoop (backoff st) 429 (tries st + 1)) w2 HO2 HF')
      as (w' & E' & HO' & N'); cbn [tries]; try lia.
    exists w'. cbn [backoff lastStatus tries] in E'.
    split.
    + rewrite E'. f_equal. cbn [List.length]. rewrite Nat2Z.inj_succ.
      f_equal; [now destruct limited | lia].
    + split; [exact HO' |]. rewrite N'. unfold w2. cbn [nap naps map].
      rewrite naps_booked429, N1, <- app_assoc. reflexivity.
Qed.

(** A reply that is neither handed back nor a 429: a 5xx, any other status,
    or a transport failure. *)
Definition refused (reply : Reply) : Prop :=
  returned reply = false /\ is429 reply = false.

(** X8. Attempts answered by 429 count against [maxRetry]: after
    [maxRetry - 1] or more replies of 429, the first reply that is neither
    handed back nor a 429 ends the call with an error, without any backoff
    sleep.  The error carries the status of that reply, or the last status
    seen when the reply is a transport failure. *)
Theorem X8_rate_limited_attempts_use_up_the_budget
        (SKIP : string) (maxRetry : Z) (limited : list Reply) (bad : Reply)
        (more : list Reply) (w : World) :
  SKIP <> "true" -> WOK w ->
  Forall tooMany limited -> refused bad ->
  0 < maxRetry <= Z.of_nat (List.length limited) + 1 ->
  Z.of_nat (List.length limited) < GoInt.maxInt ->
  exists w',
    doRequestWithRetry fuel lag SKIP maxRetry (limited ++ bad :: more) w
    = (Done None
            (Some (match resp bad, limited with
                   | Some r, _ => StatusCode r
                   | None, [] => 0
                   | None, _ => 429
                   end)), w')
    /\ naps w' = naps w ++
         map (fun rp => RateLimited (retryAfterWait (hintOf rp))) limited.
Proof.
  intros HS HO HF [Hret H429] Hmax Hlen. unfold doRequestWithRetry.
  rewrite (skip_off SKIP HS).
  destruct (retry_every_429_tries maxRetry limited (bad :: more)
              (mkLoop (1 * Second) 0 0) w HO HF)
    as (w1 & E1 & HO1 & N1); cbn [tries]; try lia.
  rewrite E1. cbn [backoff lastStatus tries Z.add].
  destruct (enter_total lag fuel lag_steady fuel_enough w1 HO1)
    as (w2 & E2 & HO2 & N2 & _).
  cbn [retryLoop]. rewrite E2, attempt_cases, Hret, H429.
  unfold giveUpOrBackOff. cbn [tries backoff lastStatus].
  rewrite (add_one _ (Z.of_nat (List.length limited) + 1)) by lia.
  replace (maxRetry >? 0) with true by (symmetry; apply Z.gtb_lt; lia).
  replace (Z.of_nat (List.length limited) + 1 >=? maxRetry) with true
    by (symmetry; apply Z.geb_le; lia).
  cbn [andb].
  assert (Es : seenStatus bad
                 (mkLoop (1 * Second)
                         (match limited with [] => 0 | _ => 429 end)
                         (Z.of_nat (List.length limited)))
               = match resp bad, limited with
                 | Some r, _ => StatusCode r
                 | None, [] => 0
                 | None, _ => 429
                 end).
  { unfold seenStatus. cbn [lastStatus].
    destruct (resp bad); [reflexivity |]. now destruct limited. }
  rewrite Es. eexists. split; [reflexivity |].
  cbn [count naps]. now rewrite N2, N1.
Qed.

(** X11. In best-effort mode a 429 with a positive wait is booked, the
    429-wait total growing by the wait and the retry counter by one,
    although the executor returns at once and never sleeps that wait. *)
Theorem X11_best_effort_books_a_wait_it_never_sleeps
        (maxRetry : Z) (first : Reply) (more : list Reply) (w : World) :
  WOK w -> tooMany first -> 0 < retryAfterWait (hintOf first) ->
  exists w',
    doRequestWithRetry fuel lag "true" maxRetry (first :: more) w
    = (Done None None, w')
    /\ naps w' = naps w
    /\ wait429 (counters w')
       = GoInt.add (wait429 (counters w)) (retryAfterWait (hintOf first))
    /\ retries (counters w') = GoInt.add (retries (counters w)) 1.
Proof.
  intros HO Hfirst Hpos. unfold doRequestWithRetry.
  replace ("true" =? "true")%string with true by reflexivity.
  destruct (enter_total lag fuel lag_steady fuel_enough w HO)
    as (w1 & E1 & _).
  destruct (enter_keeps lag fuel w w1 E1) as (N1 & _ & _ & _ & R1 & W1).
  cbn [retryLoop]. rewrite E1, (attempt_429 true) by exact Hfirst.
  eexists. split; [reflexivity |].
  rewrite naps_booked429. split; [exact N1 |].
  unfold booked429. cbn [count counters]. unfold Add429Wait.
  replace (retryAfterWait (hintOf first) >? 0) with true
    by (symmetry; apply Z.gtb_lt; lia).
  cbn [wait429 retries RecordRetry RecordAttempt]. now rewrite W1, R1.
Qed.

End ExecutorBudgetFacts.

Section LegacyFacts.
Import Clock Executor.

(** A nil response never comes without an error. *)
Definition wellFormed (reply : Reply) : Prop :=
  resp reply = None -> failed reply = true.

Lemma legacyLoop_returns (skip : bool) (maxRetry : Z) (script : list Reply) :
  forall (i wait lastSt : Z) (slept : list Z),
  Forall wellFormed script -> maxRetry <= GoInt.maxInt -> 0 <= i ->
  maxRetry - i <= Z.of_nat (List.length script) ->
  exists r e more,
    legacyLoop skip maxRetry script i wait lastSt slept
    = (LDone r e, slept ++ more)
    /\ Z.of_nat (List.length more) <= Z.max 0 (maxRetry - i)
    /\ (e <> None ->
        r = None /\ skip = false
        /\ Z.of_nat (List.length more) = Z.max 0 (maxRetry - i)).
Proof.
  induction script as [| reply rest IH];
    intros i wait lastSt slept HF Hmax Hi Hlen.
  - cbn [List.length] in Hlen. cbn [legacyLoop].
    replace (i <? maxRetry) with false by (symmetry; apply Z.ltb_ge; lia).
    destruct skip; eexists; eexists; exists []; rewrite app_nil_r;
      (split; [reflexivity |]); cbn [List.length];
      (split; [lia |]); intros H; try congruence.
    split; [reflexivity |]. split; [reflexivity | lia].
  - cbn [legacyLoop].
    destruct (Z.ltb_spec i maxRetry) as [Hlt | Hge].
    2:{ destruct skip; eexists; eexists; exists []; rewrite app_nil_r;
          (split; [reflexivity |]); cbn [List.length];
          (split; [lia |]); intros H; try congruence.
        split; [reflexivity |]. split; [reflexivity | lia]. }
    inversion HF as [| ? ? Hwf HF']; subst.
    cbn [List.length] in Hlen. rewrite Nat2Z.inj_succ in Hlen.
    assert (A : GoInt.add i 1 = i + 1) by (apply (add_one i maxRetry); lia).
    assert (Next : forall wait' lastSt',
      exists r e more,
        legacyLoop skip maxRetry rest (GoInt.add i 1) wait' lastSt'
                   (slept ++ [wait])
        = (LDone r e, slept ++ more)
        /\ Z.of_nat (List.length more) <= Z.max 0 (maxRetry - i)
        /\ (e <> None ->
            r = None /\ skip = false
            /\ Z.of_nat (List.length more) = Z.max 0 (maxRetry - i))).
    { intros wait' lastSt'. rewrite A.
      destruct (IH (i + 1) wait' lastSt' (slept ++ [wait]) HF' Hmax
                   ltac:(lia) ltac:(lia)) as (r & e & more & E & L & K).
      exists r, e, (wait :: more). rewrite E, <- app_assoc.
      split; [reflexivity |]. cbn [List.length]. rewrite Nat2Z.inj_succ.
      split; [lia |]. intros He. destruct (K He) as (K1 & K2 & K3).
      split; [exact K1 |]. split; [exact K2 | lia]. }
    destruct (resp reply) as [r |] eqn:Er.
    + destruct (negb (failed reply) && (StatusCode r =? 200)).
      { eexists. eexists. exists []. rewrite app_nil_r.
        split; [reflexivity |]. cbn [List.length].
        split; [lia |]. intros H. congruence. }
      destruct (StatusCode r =? 404).
      { eexists. eexists. exists []. rewrite app_nil_r.
        split; [reflexivity |]. cbn [List.length].
        split; [lia |]. intros H. congruence. }
      destruct ((StatusCode r =? 429)
                || ((500 <=? StatusCode r) && (StatusCode r <? 600))).
      * destruct skip; [| apply Next].
        eexists. eexists. exists []. rewrite app_nil_r.
        split; [reflexivity |]. cbn [List.length].
        split; [lia |]. intros H. congruence.
      * apply Next.
    + rewrite (Hwf Er). cbn [negb]. apply Next.
Qed.

(** X13. The earlier executor returns within [maxRetry] attempts, and when
    it returns an error it has slept after every attempt, the last one
    included: [maxRetry] sleeps for [maxRetry] attempts. *)
Theorem X13_earlier_executor_sleeps_after_every_failure
        (SKIP : string) (maxRetry : Z) (script : list Reply) :
  Forall wellFormed script -> maxRetry <= GoInt.maxInt ->
  maxRetry <= Z.of_nat (List.length script) ->
  exists r e sleeps,
    legacyDoRequestWithRetry SKIP maxRetry script = (LDone r e, sleeps)
    /\ Z.of_nat (List.length sleeps) <= Z.max 0 maxRetry
    /\ (e <> None ->
        r = None /\ SKIP <> "true"
        /\ Z.of_nat (List.length sleeps) = Z.max 0 maxRetry).
Proof.
  intros HF Hmax Hlen. unfold legacyDoRequestWithRetry.
  destruct (legacyLoop_returns (String.eqb SKIP "true") maxRetry script
              0 (1 * Second) 0 [] HF Hmax ltac:(lia) ltac:(lia))
    as (r & e & more & E & L & K).
  exists r, e, more. cbn [app] in E. rewrite Z.sub_0_r in *.
  split; [exact E |]. split; [exact L |].
  intros He. destruct (K He) as (K1 & K2 & K3).
  split; [exact K1 |]. split; [now apply String.eqb_neq | exact K3].
Qed.

End LegacyFacts.

(** ** The linear model *)

Section SkillModelFacts.
Import SkillModel.

Lemma Vector_length (p : PlayerFeatures) : List.length (Vector p) = 23%nat.
Proof.
  unfold Vector. destruct (MasteryScores p) as [[m0 m1] m2].
  destruct (LaneDistribution p) as [[[[d0 d1] d2] d3] d4]. reflexivity.
Qed.

Lemma dotFrom_total (a : list float) :
  forall (b : list float) (s : float),
  (List.length a <= List.length b)%nat -> exists d, dotFrom s a b = Some d.
Proof.
  induction a as [| x a IH]; intros b s H; cbn [dotFrom].
  - now exists s.
  - destruct b as [| y b]; [cbn in H; lia |]. apply IH. cbn in H. lia.
Qed.

Lemma dotFrom_panics (a : list float) :
  forall (b : list float) (s : float),
  (List.length b < List.length a)%nat -> dotFrom s a b = None.
Proof.
  induction a as [| x a IH]; intros b s H; cbn [dotFrom].
  - cbn in H. lia.
  - destruct b as [| y b]; [reflexivity |]. apply IH. cbn in H. lia.
Qed.

Lemma addScaled_total (diff : float) (gradW : list float) :
  forall x, (List.length gradW <= List.length x)%nat ->
  exists g, addScaled diff gradW x = Some g
            /\ List.length g = List.length gradW.
Proof.
  induction gradW as [| g0 gradW IH]; intros x H; cbn [addScaled].
  - now exists [].
  - destruct x as [| xj x]; [cbn in H; lia |].
    destruct (IH x) as (g & E & L); [cbn in H; lia |].
    rewrite E. eexists. split; [reflexivity |]. cbn. now rewrite L.
Qed.

Lemma descend_total (n : float) (w : list float) :
  forall gradW, (List.length w <= List.length gradW)%nat ->
  exists w', descend n w gradW = Some w'
             /\ List.length w' = List.length w.
Proof.
  induction w as [| wj w IH]; intros gradW H; cbn [descend].
  - now exists [].
  - destruct gradW as [| g gradW]; [cbn in H; lia |].
    destruct (IH gradW) as (w' & E & L); [cbn in H; lia |].
    rewrite E. eexists. split; [reflexivity |]. cbn. now rewrite L.
Qed.

Lemma gradients_total (w : list float) (b : float)
      (players : list PlayerFeatures) :
  forall (labels : list float) (grad : list float * float),
  List.length players = List.length labels ->
  (List.length w <= 23)%nat -> (List.length (fst grad) <= 23)%nat ->
  exists gradW gradB,
    gradients w b players labels grad = Some (gradW, gradB)
    /\ List.length gradW = List.length (fst grad).
Proof.
  induction players as [| p players IH]; intros labels grad Hl Hw Hg;
    cbn [gradients].
  - destruct grad as [gw gb]. now exists gw, gb.
  - destruct labels as [| y labels]; [discriminate |].
    pose proof (Vector_length p) as Hv.
    destruct (dotFrom_total w (Vector p) 0%float ltac:(lia)) as (d & Ed).
    unfold dot. rewrite Ed.
    destruct (addScaled_total (PrimFloat.sub (PrimFloat.add d b) y)
                (fst grad) (Vector p) ltac:(lia)) as (g & Eg & Lg).
    rewrite Eg.
    destruct (IH labels (g, PrimFloat.add (snd grad)
                              (PrimFloat.sub (PrimFloat.add d b) y)))
      as (gradW & gradB & E & L); cbn [fst]; try lia.
    + cbn in Hl. lia.
    + exists gradW, gradB. split; [exact E |]. cbn [fst] in L. lia.
Qed.

Lemma epochs_total (k : nat) (n : float) (players : list PlayerFeatures)
      (labels : list float) :
  forall (w : list float) (b : float),
  List.length players = List.length labels ->
  List.length w = 23%nat ->
  exists w' b',
    runEpochs k 23 n players labels (w, b) = Some (w', b')
    /\ List.length w' = 23%nat.
Proof.
  induction k as [| k IH]; intros w b Hl Hw; cbn [runEpochs].
  - now exists w, b.
  - unfold epoch.
    destruct (gradients_total w b players labels
                (repeat 0%float 23, 0%float) Hl ltac:(lia))
      as (gradW & gradB & Eg & Lg);
      [cbn [fst]; rewrite repeat_length; lia |].
    rewrite Eg. cbn [fst] in Lg. rewrite repeat_length in Lg.
    destruct (descend_total n w gradW ltac:(lia)) as (w' & Ew & Lw).
    rewrite Ew. apply IH; [exact Hl | lia].
Qed.

(** X16. [TrainLinear] on a non-empty training set with as many labels as
    players does not panic and returns 23 weights, and [Predict] on the
    model it returns gives a score for every player. *)
Theorem X16_trained_model_has_23_weights_and_predicts
        (players : list PlayerFeatures) (labels : list float) :
  players <> [] -> List.length players = List.length labels ->
  exists m,
    TrainLinear players labels = Some m
    /\ List.length (Weights m) = 23%nat
    /\ forall p, exists s, Predict m p = Some s.
Proof.
  intros Hne Hl. unfold TrainLinear.
  destruct players as [| first rest]; [contradiction |].
  rewrite Hl, Nat.eqb_refl. cbn [negb]. rewrite Vector_length.
  destruct (epochs_total 1000 (ofInt (Z.of_nat (List.length labels)))
              (first :: rest) labels (repeat 0%float 23) 0%float Hl
              (repeat_length _ _)) as (w & b & E & L).
  rewrite E. eexists. split; [reflexivity |]. cbn [Weights].
  split; [exact L |]. intros p. unfold Predict. cbn [Weights Bias].
  rewrite L. cbn [Nat.eqb].
  destruct (dotFrom_total w (Vector p) 0%float) as (d & Ed);
    [rewrite Vector_length; lia |].
  unfold dot. rewrite Ed. eexists. reflexivity.
Qed.

(** X17. [Predict] is 0 on a model without weights, returns a score for 1
    to 23 weights (the features beyond the weights are left out), and
    panics on more than 23 weights. *)
Theorem X17_predict_panics_on_more_than_23_weights
        (m : SkillModel) (p : PlayerFeatures) :
  (Weights m = [] -> Predict m p = Some 0%float)
  /\ ((0 < List.length (Weights m) <= 23)%nat ->
      exists s, Predict m p = Some s)
  /\ ((23 < List.length (Weights m))%nat -> Predict m p = None).
Proof.
  unfold Predict, dot. pose proof (Vector_length p) as Hv.
  split; [| split].
  - intros E. now rewrite E.
  - intros H. destruct (List.length (Weights m)) eqn:El; [lia |].
    cbn [Nat.eqb].
    destruct (dotFrom_total (Weights m) (Vector p) 0%float ltac:(lia))
      as (d & Ed).
    rewrite Ed. eexists. reflexivity.
  - intros H. destruct (List.length (Weights m)) eqn:El; [lia |].
    cbn [Nat.eqb]. now rewrite dotFrom_panics by lia.
Qed.

End SkillModelFacts.

(** ** More on [BalanceTeams] *)

Section BalanceMoreFacts.
Import Skill.

Context {Player : Type}.
Variable Predict : Player -> float.
Variable sortSlice : list (Player * float) -> list (Player * float).
Hypothesis sortSlice_perm : forall l, Permutation (sortSlice l) l.

Lemma hand_parts (arr : list (Player * float)) :
  forall t : Split,
  Permutation (teamA (fold_left hand arr t) ++ teamB (fold_left hand arr t))
              ((teamA t ++ teamB t) ++ map fst arr).
Proof.
  induction arr as [| a arr IH]; intros t; cbn [fold_left map].
  - now rewrite app_nil_r.
  - rewrite IH. unfold hand.
    destruct (PrimFloat.leb (sumA t) (sumB t)); cbn [teamA teamB].
    + rewrite <- !app_assoc. apply Permutation_app_head.
      cbn [app]. apply Permutation_middle.
    + rewrite <- !app_assoc. reflexivity.
Qed.

Lemma greedySplit_parts (players : list Player) :
  Permutation (teamA (greedySplit Predict sortSlice players)
               ++ teamB (greedySplit Predict sortSlice players)) players.
Proof.
  unfold greedySplit. rewrite hand_parts. cbn [empty teamA teamB app].
  rewrite (Permutation_map fst (sortSlice_perm _)).
  rewrite map_map. cbn [fst]. now rewrite map_id.
Qed.

(** X14. Whatever the scores (NaN included) and the size of the roster,
    the two teams [BalanceTeams] returns are a partition of the roster:
    every player is in exactly one of them. *)
Theorem X14_BalanceTeams_returns_a_partition (players : list Player) :
  let teams := BalanceTeams Predict sortSlice players in
  Permutation (fst teams ++ snd teams) players.
Proof.
  cbn zeta. unfold BalanceTeams.
  destruct (List.length players <=? 10)%nat; [| apply greedySplit_parts].
  destruct (exactSearch_inv Predict players)
    as [[E _] | (m0 & _ & _ & E & _)]; rewrite E.
  - cbn [List.length Nat.ltb Nat.leb fst snd]. apply greedySplit_parts.
  - destruct (0 <? _)%nat; [| apply greedySplit_parts].
    cbn [fst snd]. apply (splitWith_parts Predict (Z.testbit m0)).
Qed.

End BalanceMoreFacts.

Lemma X14_partition_witness :
  let teams := Skill.BalanceTeams Skill.rating
                 (GoSort.insertionSort Skill.higherScore) ratedFour in
  Permutation (fst teams ++ snd teams) ratedFour.
Proof.
  apply (X14_BalanceTeams_returns_a_partition Skill.rating
           (GoSort.insertionSort Skill.higherScore)
           (insertionSort_perm Skill.higherScore) ratedFour).
Defined.

Section UntrainedFacts.
Import Skill.

Context {Player : Type}.
Variable sortSlice : list (Player * float) -> list (Player * float).
Hypothesis sortSlice_perm : forall l, Permutation (sortSlice l) l.

(** With every score at zero the first split of equal sizes met by the
    search is kept: the mask whose low half is set. *)
Lemma level_scores_split_in_order (players : list Player) :
  Nat.even (List.length players) = true -> (List.length players <= 10)%nat ->
  BalanceTeams (fun _ => 0%float) sortSlice players
  = (firstn (Nat.div2 (List.length players)) players,
     skipn (Nat.div2 (List.length players)) players).
Proof.
  intros Heven Hlen.
  destruct players as [| p0 players].
  { unfold BalanceTeams, greedySplit. cbn [map].
    rewrite (Permutation_nil (Permutation_sym (sortSlice_perm []))).
    reflexivity. }
  do 10 (destruct players as [| ? players];
         [first [discriminate Heven | vm_compute; reflexivity] |]).
  cbn [List.length] in Hlen. lia.
Qed.

End UntrainedFacts.

Section ScoreExtFacts.
Import Skill.

Context {Player : Type}.
Variables P1 P2 : Player -> float.
Variable sortSlice : list (Player * float) -> list (Player * float).
Hypothesis same_scores : forall p, P1 p = P2 p.

Lemma splitFrom_scores (sel : Z -> bool) (players : list Player) :
  forall (i : Z) (t : Split),
  splitFrom P1 sel i players t = splitFrom P2 sel i players t.
Proof.
  induction players as [| p rest IH]; intros i t; cbn [splitFrom];
    [reflexivity |].
  unfold toA, toB. rewrite same_scores. apply IH.
Qed.

Lemma consider_scores (players : list Player)
      (best : float * list Player * list Player) (mask : Z) :
  consider P1 players best mask = consider P2 players best mask.
Proof.
  unfold consider, splitBy, splitWith. now rewrite splitFrom_scores.
Qed.

Lemma search_scores (players : list Player) (todo : list Z) :
  forall best,
  fold_left (consider P1 players) todo best
  = fold_left (consider P2 players) todo best.
Proof.
  induction todo as [| m rest IH]; intros best; cbn [fold_left];
    [reflexivity |].
  now rewrite consider_scores, IH.
Qed.

Lemma BalanceTeams_scores (players : list Player) :
  BalanceTeams P1 sortSlice players = BalanceTeams P2 sortSlice players.
Proof.
  unfold BalanceTeams, exactSearch, greedySplit.
  rewrite search_scores.
  now rewrite (map_ext (fun p => (p, P1 p)) (fun p => (p, P2 p)))
    by (intros p; now rewrite same_scores).
Qed.

End ScoreExtFacts.

(** ** More on the team split *)

Section DealFacts.
Import TeamSplit.

Lemma deal_parts (l : list PlayerData) :
  forall first : bool,
  Permutation (deal first l ++ deal (negb first) l) l
  /\ List.length (deal true l) = Nat.div2 (S (List.length l))
  /\ List.length (deal false l) = Nat.div2 (List.length l).
Proof.
  induction l as [| p rest IH]; intros first.
  - destruct first; cbn; auto.
  - destruct (IH true) as (P1 & L1 & L2). destruct (IH false) as (P2 & _).
    split; [| split].
    + destruct first; cbn [deal negb app].
      * now constructor.
      * cbn [negb] in P1. symmetry. apply Permutation_cons_app.
        symmetry. exact P1.
    + cbn [deal List.length]. rewrite L2. reflexivity.
    + cbn [deal List.length]. rewrite L1. reflexivity.
Qed.

Definition scores (l : list PlayerData) : list Z := map skill_score l.

Lemma skillSum_exact (l : list PlayerData) :
  forall from : Z,
  Forall (fun p => 0 <= skill_score p) l -> 0 <= from ->
  from + Aggregator.sumZ (scores l) <= GoInt.maxInt ->
  skillSum l from = from + Aggregator.sumZ (scores l).
Proof.
  unfold skillSum, scores.
  induction l as [| p rest IH]; intros from HF H0 Hmax;
    cbn [fold_left map Aggregator.sumZ fold_right] in *.
  - lia.
  - inversion HF as [| ? ? Hp HF']; subst.
    assert (Hs : 0 <= Aggregator.sumZ (map skill_score rest)).
    { clear -HF'. induction HF' as [| q l Hq _ IHl]; cbn; [lia |].
      unfold Aggregator.sumZ in IHl. lia. }
    unfold Aggregator.sumZ in Hs.
    assert (E : GoInt.add from (skill_score p) = from + skill_score p).
    { unfold GoInt.add. apply wrap_inRange.
      unfold GoInt.inRange, GoInt.minInt, GoInt.maxInt in *. lia. }
    rewrite E, IH; try assumption; unfold Aggregator.sumZ; lia.
Qed.

Lemma sumZ_perm (l l' : list Z) :
  Permutation l l' -> Aggregator.sumZ l = Aggregator.sumZ l'.
Proof.
  unfold Aggregator.sumZ.
  induction 1; cbn [fold_right]; lia.
Qed.

Lemma sumZ_app (l l' : list Z) :
  Aggregator.sumZ (l ++ l') = Aggregator.sumZ l + Aggregator.sumZ l'.
Proof.
  unfold Aggregator.sumZ. induction l as [| x l IH]; cbn [app fold_right]; lia.
Qed.

Lemma sumZ_nonneg (l : list Z) :
  Forall (fun x => 0 <= x) l -> 0 <= Aggregator.sumZ l.
Proof.
  unfold Aggregator.sumZ. induction 1; cbn [fold_right]; lia.
Qed.

(** On a list in descending order of non-negative scores, the players at
    the even positions outscore those at the odd positions by at most the
    first score. *)
Lemma deal_gap (l : list PlayerData) :
  StronglySorted (fun a b => skill_score a >= skill_score b) l ->
  Forall (fun p => 0 <= skill_score p) l ->
  0 <= Aggregator.sumZ (scores (deal true l))
       - Aggregator.sumZ (scores (deal false l))
    <= match l with [] => 0 | p :: _ => skill_score p end.
Proof.
  unfold scores, Aggregator.sumZ.
  induction 1 as [| p rest Hs IH Hp]; intros HF;
    cbn [deal map fold_right]; [lia |].
  inversion HF as [| ? ? H0 HF']; subst. specialize (IH HF').
  destruct rest as [| q rest']; cbn [deal map fold_right] in *; [lia |].
  inversion Hp as [| ? ? Hpq _]; subst. lia.
Qed.

Lemma teamSplit_parts
      (sortSlice : list PlayerData -> list PlayerData)
      (allPlayerData : list PlayerData) :
  sortsBySkill sortSlice ->
  let t := teamSplit sortSlice allPlayerData in
  let n := List.length allPlayerData in
  Permutation (teamA t ++ teamB t) allPlayerData
  /\ List.length (teamA t) = Nat.div2 (S n)
  /\ List.length (teamB t) = Nat.div2 n.
Proof.
  intros Hsort t n. destruct (Hsort allPlayerData) as [HP _].
  unfold t, teamSplit. rewrite alternate_deal by lia.
  cbn [Z.even negb teamA teamB app].
  destruct (deal_parts (sortSlice allPlayerData) true) as (P & L1 & L2).
  cbn [negb] in P. rewrite (Permutation_length HP) in L1, L2.
  split; [now rewrite P |]. split; assumption.
Qed.

(** X18. The team split hands every player to exactly one team; team A
    gets the half rounded up and team B the half rounded down.  When the
    skill scores are non-negative and their total fits an [int], the two
    sums are the true sums, team A's sum is never below team B's, and the
    gap is at most the highest score. *)
Theorem X18_team_split_is_fair_to_within_the_top_score
        (sortSlice : list PlayerData -> list PlayerData)
        (allPlayerData : list PlayerData) :
  sortsBySkill sortSlice ->
  let t := teamSplit sortSlice allPlayerData in
  let n := List.length allPlayerData in
  Permutation (teamA t ++ teamB t) allPlayerData
  /\ List.length (teamA t) = Nat.div2 (S n)
  /\ List.length (teamB t) = Nat.div2 n
  /\ (Forall (fun p => 0 <= skill_score p) allPlayerData ->
      Aggregator.sumZ (scores allPlayerData) <= GoInt.maxInt ->
      sumA t = Aggregator.sumZ (scores (teamA t))
      /\ sumB t = Aggregator.sumZ (scores (teamB t))
      /\ 0 <= sumA t - sumB t
      /\ forall top, 0 <= top ->
                     Forall (fun p => skill_score p <= top) allPlayerData ->
                     sumA t - sumB t <= top).
Proof.
  intros Hsort t n. destruct (Hsort allPlayerData) as [HP HS].
  unfold t, teamSplit. rewrite alternate_deal by lia.
  cbn [Z.even negb teamA teamB sumA sumB app].
  set (sorted := sortSlice allPlayerData) in *.
  destruct (deal_parts sorted true) as (P & L1 & L2). cbn [negb] in P.
  rewrite (Permutation_length HP) in L1, L2. fold n in L1, L2.
  split; [now rewrite P |]. split; [exact L1 |]. split; [exact L2 |].
  intros H0 Hmax.
  assert (H0s : Forall (fun p => 0 <= skill_score p) sorted).
  { apply Forall_forall. intros p Hp.
    apply (proj1 (Forall_forall _ _) H0).
    eapply Permutation_in; [exact HP | exact Hp]. }
  assert (Htot : Aggregator.sumZ (scores (deal true sorted))
                 + Aggregator.sumZ (scores (deal false sorted))
                 = Aggregator.sumZ (scores allPlayerData)).
  { rewrite <- sumZ_app. unfold scores. rewrite <- map_app.
    apply sumZ_perm, Permutation_map. now rewrite P. }
  assert (HA : Forall (fun p => 0 <= skill_score p) (deal true sorted)).
  { apply Forall_forall. intros p Hp.
    apply (proj1 (Forall_forall _ _) H0s).
    eapply Permutation_in; [exact P |]. apply in_or_app. now left. }
  assert (HB : Forall (fun p => 0 <= skill_score p) (deal false sorted)).
  { apply Forall_forall. intros p Hp.
    apply (proj1 (Forall_forall _ _) H0s).
    eapply Permutation_in; [exact P |]. apply in_or_app. now right. }
  assert (NA : 0 <= Aggregator.sumZ (scores (deal true sorted))).
  { apply sumZ_nonneg. unfold scores. now rewrite Forall_map. }
  assert (NB : 0 <= Aggregator.sumZ (scores (deal false sorted))).
  { apply sumZ_nonneg. unfold scores. now rewrite Forall_map. }
  rewrite (skillSum_exact (deal true sorted) 0) by (try assumption; lia).
  rewrite (skillSum_exact (deal false sorted) 0) by (try assumption; lia).
  rewrite !Z.add_0_l.
  pose proof (deal_gap sorted HS H0s) as G.
  split; [reflexivity |]. split; [reflexivity |]. split; [lia |].
  intros top H0top Htop.
  assert (Hhd : match sorted with [] => 0 | p :: _ => skill_score p end <= top).
  { clear G. destruct sorted as [| p rest]; [exact H0top |].
    apply (proj1 (Forall_forall _ _) Htop).
    eapply Permutation_in; [exact HP |]. now left. }
  lia.
Qed.

Lemma X18_team_split_witness :
  let t := teamSplit (GoSort.insertionSort higherSkill) dataFour in
  sumA t = Aggregator.sumZ (scores (teamA t))
  /\ sumB t = Aggregator.sumZ (scores (teamB t))
  /\ 0 <= sumA t - sumB t
  /\ forall top, 0 <= top ->
                 Forall (fun p => skill_score p <= top) dataFour ->
                 sumA t - sumB t <= top.
Proof.
  apply (X18_team_split_is_fair_to_within_the_top_score
           (GoSort.insertionSort higherSkill) dataFour
           insertionSort_sortsBySkill).
  - repeat constructor; vm_compute; discriminate.
  - vm_compute. discriminate.
Defined.

End DealFacts.

(** ** More on the lane-unique split *)

Section LaneUniqueFacts.
Import TeamSplit.

(** The calls of [leaf] made by [comb], in order: each with its [acc] and
    its [arr]. *)
Fixpoint leavesOf (arr : list nat) (n : Z) (acc : list nat)
  : list (list nat * list nat) :=
  if Nat.eqb (List.length acc) 5 then [(acc, arr)]
  else if n =? 0 then []
  else
    match arr with
    | [] => []
    | x :: rest => leavesOf rest (n - 1) (acc ++ [x]) ++ leavesOf rest n acc
    end.

Definition visit (all : list PlayerData) (best : Best)
           (l : list nat * list nat) : Best :=
  leaf all (snd l) (fst l) best.

Lemma comb_leaves (all : list PlayerData) (arr : list nat) :
  forall (n : Z) (acc : list nat) (best : Best),
  comb all arr n acc best = fold_left (visit all) (leavesOf arr n acc) best.
Proof.
  induction arr as [| x rest IH]; intros n acc best; cbn [comb leavesOf];
    destruct (Nat.eqb (List.length acc) 5); try reflexivity;
    destruct (n =? 0); try reflexivity.
  rewrite fold_left_app, <- !IH. reflexivity.
Qed.

(** The part of [arr] a choice of team A is compared with: the indices
    after its last member. *)
Definition restAfter (a : list nat) : list nat :=
  seq (S (last a 0%nat)) (9 - last a 0%nat).

Lemma leaves_of_ten :
  leavesOf (seq 0 10) 5 []
  = map (fun a => (a, restAfter a)) (choose 5 (seq 0 10)).
Proof. vm_compute. reflexivity. Qed.

(** *** The choices of [k] elements of a list *)

Lemma choose_sound (l : list nat) :
  forall (k : nat) (a : list nat),
  In a (choose k l) ->
  List.length a = k /\ incl a l
  /\ (StronglySorted lt l -> StronglySorted lt a).
Proof.
  induction l as [| x rest IH]; intros k a Hin.
  - destruct k; cbn [choose In] in Hin; [| contradiction].
    destruct Hin as [<- | []]. split; [reflexivity |].
    split; [intros y [] | intros _; constructor].
  - destruct k as [| k]; cbn [choose In] in Hin.
    + destruct Hin as [<- | []]. split; [reflexivity |].
      split; [intros y [] | intros _; constructor].
    + apply in_app_or in Hin. destruct Hin as [Hin | Hin].
      * apply in_map_iff in Hin. destruct Hin as (a' & <- & Ha').
        destruct (IH k a' Ha') as (L & I & Hsa).
        split; [cbn; now rewrite L |]. split.
        -- intros y [<- | Hy]; [now left | right; now apply I].
        -- intros Hs. inversion Hs as [| ? ? Hrest Hx]; subst.
           constructor; [now apply Hsa |].
           apply Forall_forall. intros y Hy.
           apply (proj1 (Forall_forall _ _) Hx). now apply I.
      * destruct (IH (S k) a Hin) as (L & I & Hsa).
        split; [exact L |]. split.
        -- intros y Hy. right. now apply I.
        -- intros Hs. inversion Hs; subst. now apply Hsa.
Qed.

Lemma choose_complete (l : list nat) :
  forall a : list nat,
  StronglySorted lt l -> StronglySorted lt a -> incl a l ->
  In a (choose (List.length a) l).
Proof.
  induction l as [| x rest IH]; intros a Hl Ha Hincl.
  - destruct a as [| y a']; [now left |].
    destruct (Hincl y (or_introl eq_refl)).
  - inversion Hl as [| ? ? Hrest Hx]; subst.
    destruct a as [| y a']; [now left |].
    inversion Ha as [| ? ? Ha' Hy]; subst.
    cbn [List.length choose]. apply in_or_app.
    destruct (Nat.eq_dec y x) as [-> | Hne].
    + left. apply in_map, IH; try assumption.
      intros z Hz. destruct (Hincl z (or_intror Hz)) as [E | Hin];
        [| exact Hin].
      subst z. pose proof (proj1 (Forall_forall _ _) Hy x Hz). lia.
    + right. apply (IH (y :: a')); try assumption.
      intros z Hz. destruct (Hincl z Hz) as [E | Hin]; [| exact Hin].
      subst z. destruct Hz as [E | Hz]; [congruence |].
      destruct (Hincl y (or_introl eq_refl)) as [E | Hin]; [congruence |].
      pose proof (proj1 (Forall_forall _ _) Hx y Hin).
      pose proof (proj1 (Forall_forall _ _) Hy x Hz). lia.
Qed.

Lemma NoDup_map_cons (x : nat) (l : list (list nat)) :
  NoDup l -> NoDup (map (cons x) l).
Proof.
  induction 1 as [| a l Ha Hl IH]; cbn [map]; constructor; [| exact IH].
  intros Hin. apply in_map_iff in Hin. destruct Hin as (b & E & Hb).
  inversion E; subst. contradiction.
Qed.

Lemma choose_NoDup (l : list nat) :
  forall k : nat, NoDup l -> NoDup (choose k l).
Proof.
  induction l as [| x rest IH]; intros k Hl.
  - destruct k; cbn [choose]; repeat constructor. intros [].
  - destruct k as [| k]; cbn [choose].
    + repeat constructor. intros [].
    + inversion Hl as [| ? ? Hx Hrest]; subst.
      apply NoDup_app.
      * now apply NoDup_map_cons, IH.
      * now apply IH.
      * intros a Ha Hb. apply in_map_iff in Ha.
        destruct Ha as (a' & <- & _).
        destruct (choose_sound rest (S k) (x :: a') Hb) as (_ & I & _).
        apply Hx, I. now left.
Qed.

Lemma seq_sorted (n start : nat) : StronglySorted lt (seq start n).
Proof.
  revert start. induction n as [| n IH]; intros start; cbn [seq];
    constructor; [apply IH |].
  apply Forall_forall. intros y Hy. apply in_seq in Hy. lia.
Qed.

(** X19. [comb] calls the leaf exactly once for each of the 252 choices
    of five of the ten indices, in lexicographic order, each time with the
    indices after the last member of the choice as [arr]. *)
Theorem X19_comb_visits_each_choice_of_five_once
        (all : list PlayerData) (best : Best) :
  comb all (seq 0 10) 5 [] best
  = fold_left (fun b a => leaf all (restAfter a) a b)
              (choose 5 (seq 0 10)) best
  /\ List.length (choose 5 (seq 0 10)) = 252%nat
  /\ NoDup (choose 5 (seq 0 10))
  /\ forall a, In a (choose 5 (seq 0 10)) <->
               List.length a = 5%nat
               /\ StronglySorted lt a /\ Forall (fun i => (i < 10)%nat) a.
Proof.
  split; [| split; [| split]].
  - rewrite comb_leaves, leaves_of_ten.
    generalize (choose 5 (seq 0 10)). intros l. revert best.
    induction l as [| a l IH]; intros best; cbn [map fold_left];
      [reflexivity | apply IH].
  - vm_compute. reflexivity.
  - apply choose_NoDup, seq_NoDup.
  - intros a. split.
    + intros Hin.
      destruct (choose_sound (seq 0 10) 5 a Hin) as (L & I & Hs).
      split; [exact L |]. split; [apply Hs, seq_sorted |].
      apply Forall_forall. intros i Hi. apply I, in_seq in Hi. lia.
    + intros (L & Hs & F). rewrite <- L.
      apply choose_complete; [apply seq_sorted | exact Hs |].
      intros i Hi. apply in_seq.
      pose proof (proj1 (Forall_forall _ _) F i Hi) as Hb.
      cbn beta in Hb. lia.
Qed.

(** *** What the search can end with *)

Lemma setAt_end (pre : list string) (lane x : string) (suf : list string) :
  setAt (List.length pre) lane (pre ++ x :: suf) = pre ++ lane :: suf.
Proof.
  induction pre as [| y pre IH]; cbn [List.length app setAt];
    [reflexivity | now rewrite IH].
Qed.

(** The lanes taken by the members of a team, in order; [None] when a
    member is left without a lane. *)
Fixpoint picks (all : list PlayerData) (members : list nat) (m : list string)
  : option (list string) :=
  match members with
  | [] => Some []
  | idx :: rest =>
    match firstFree (main_lanes (playerAt all idx)) m with
    | Some lane =>
      match picks all rest (lane :: m) with
      | Some ps => Some (lane :: ps)
      | None => None
      end
    | None => None
    end
  end.

Lemma assign_picks (all : list PlayerData) (members : list nat) :
  forall (pre suf m roles' : list string),
  assign all members (List.length pre) m (pre ++ suf) = (true, roles') ->
  (List.length members <= List.length suf)%nat ->
  exists picked,
    picks all members m = Some picked
    /\ roles' = pre ++ picked ++ skipn (List.length members) suf.
Proof.
  induction members as [| idx rest IH]; intros pre suf m roles' E Hlen;
    cbn [assign picks] in *.
  - inversion E; subst. exists []. split; reflexivity.
  - destruct (firstFree (main_lanes (playerAt all idx)) m) as [lane |];
      [| discriminate].
    destruct suf as [| x suf]; [cbn in Hlen; lia |].
    rewrite setAt_end in E.
    replace (S (List.length pre)) with (List.length (pre ++ [lane])) in E
      by (rewrite length_app; cbn; lia).
    replace (pre ++ lane :: suf) with ((pre ++ [lane]) ++ suf) in E
      by (now rewrite <- app_assoc).
    destruct (IH _ _ _ _ E) as (ps & Ep & Er); [cbn in Hlen; lia |].
    rewrite Ep. exists (lane :: ps). split; [reflexivity |].
    rewrite Er, <- app_assoc. reflexivity.
Qed.

Lemma firstFree_spec (lanes m : list string) (lane : string) :
  firstFree lanes m = Some lane -> In lane lanes /\ ~ In lane m.
Proof.
  induction lanes as [| l lanes IH]; cbn [firstFree]; [discriminate |].
  destruct (used l m) eqn:Hu.
  - intros E. destruct (IH E). split; [now right | assumption].
  - intros E. inversion E; subst. split; [now left |].
    intros Hin. unfold used in Hu.
    assert (existsb (String.eqb lane) m = true); [| congruence].
    apply existsb_exists. exists lane. split; [exact Hin |].
    apply String.eqb_refl.
Qed.

Lemma picks_valid (all : list PlayerData) (members : list nat) :
  forall (m picked : list string),
  picks all members m = Some picked ->
  Forall2 (fun idx lane => In lane (main_lanes (playerAt all idx)))
          members picked
  /\ NoDup picked
  /\ Forall (fun lane => ~ In lane m) picked.
Proof.
  induction members as [| idx rest IH]; intros m picked E; cbn [picks] in E.
  - inversion E; subst. repeat constructor.
  - destruct (firstFree (main_lanes (playerAt all idx)) m) as [lane |] eqn:Ef;
      [| discriminate].
    destruct (picks all rest (lane :: m)) as [ps |] eqn:Ep; [| discriminate].
    inversion E; subst.
    destruct (firstFree_spec _ _ _ Ef) as [Hin Hfree].
    destruct (IH _ _ Ep) as (F2 & ND & NI).
    split; [now constructor |]. split.
    + constructor; [| exact ND]. intros Hl.
      apply (proj1 (Forall_forall _ _) NI lane Hl). now left.
    + constructor; [exact Hfree |].
      eapply Forall_impl; [| exact NI]. cbn. intros l H Hm. apply H.
      now right.
Qed.

(** What [best] holds while the leaves [seen] have been visited: nothing,
    or the teams and the roles of a leaf seen whose two assignments went
    through. *)
Definition fromLeaf (all : list PlayerData)
           (seen : list (list nat * list nat)) (best : Best) : Prop :=
  (bestA best = [] /\ bestB best = [])
  \/ exists acc arr,
       In (acc, arr) seen
       /\ bestA best = acc /\ bestB best = others arr acc
       /\ assign all acc 0 [] (repeat "" 5) = (true, bestAroles best)
       /\ assign all (others arr acc) 0 [] (repeat "" 5)
          = (true, bestBroles best).

Lemma fromLeaf_more (all : list PlayerData)
      (seen more : list (list nat * list nat)) (best : Best) :
  fromLeaf all seen best -> fromLeaf all (seen ++ more) best.
Proof.
  intros [H | (acc & arr & Hin & H)]; [now left |].
  right. exists acc, arr. split; [apply in_or_app; now left | exact H].
Qed.

Lemma visit_fromLeaf (all : list PlayerData)
      (seen : list (list nat * list nat)) (best : Best)
      (l : list nat * list nat) :
  fromLeaf all seen best -> fromLeaf all (seen ++ [l]) (visit all best l).
Proof.
  intros HI. destruct l as [acc arr]. unfold visit, leaf. cbn [fst snd].
  destruct (assign all acc 0 [] (repeat "" 5)) as [okA rolesA] eqn:EA.
  destruct (assign all (others arr acc) 0 [] (repeat "" 5))
    as [okB rolesB] eqn:EB.
  destruct okA, okB; cbn [andb]; try (now apply fromLeaf_more).
  match goal with
  | |- context [if ?c then _ else _] => destruct c
  end; [| now apply fromLeaf_more].
  right. exists acc, arr. cbn [bestA bestB bestAroles bestBroles].
  split; [apply in_or_app; right; now left |]. auto.
Qed.

Lemma fold_fromLeaf (all : list PlayerData)
      (todo : list (list nat * list nat)) :
  forall seen best,
  fromLeaf all seen best ->
  fromLeaf all (seen ++ todo) (fold_left (visit all) todo best).
Proof.
  induction todo as [| l rest IH]; intros seen best HI; cbn [fold_left].
  - now rewrite app_nil_r.
  - replace (seen ++ l :: rest) with ((seen ++ [l]) ++ rest)
      by (now rewrite <- app_assoc).
    apply IH. now apply visit_fromLeaf.
Qed.

Definition sameList (a b : list nat) : bool :=
  Nat.eqb (List.length a) (List.length b)
  && forallb (fun xy => Nat.eqb (fst xy) (snd xy)) (combine a b).

Lemma sameList_eq (a : list nat) :
  forall b, sameList a b = true -> a = b.
Proof.
  unfold sameList.
  induction a as [| x a IH]; intros [| y b] H; cbn in H; try discriminate;
    [reflexivity |].
  apply andb_true_iff in H. destruct H as [Hl H].
  apply andb_true_iff in H. destruct H as [Hxy H].
  apply Nat.eqb_eq in Hxy. subst y. f_equal. apply IH.
  now rewrite Hl, H.
Qed.

(** Only the first leaf has five players left in its [arr]. *)
Lemma full_teamB (acc arr : list nat) :
  In (acc, arr) (leavesOf (seq 0 10) 5 []) ->
  List.length (others arr acc) = 5%nat ->
  acc = seq 0 5 /\ others arr acc = seq 5 5.
Proof.
  intros Hin Hlen.
  assert (Hall : forallb (fun l =>
             implb (Nat.eqb (List.length (others (snd l) (fst l))) 5)
                   (sameList (fst l) (seq 0 5)
                    && sameList (others (snd l) (fst l)) (seq 5 5)))
             (leavesOf (seq 0 10) 5 []) = true)
    by (vm_compute; reflexivity).
  pose proof (proj1 (forallb_forall _ _) Hall (acc, arr) Hin) as H.
  cbn [fst snd] in H. rewrite Hlen in H. cbn [Nat.eqb implb] in H.
  apply andb_true_iff in H. destruct H as [H1 H2].
  split; now apply sameList_eq.
Qed.

Lemma laneUnique_found (all : list PlayerData) (outA outB : list Entry)
      (sA sB : Z) :
  laneUnique all = Found outA outB sA sB ->
  List.length all = 10%nat
  /\ exists rolesA rolesB,
       picks all (seq 0 5) [] = Some rolesA
       /\ picks all (seq 5 5) [] = Some rolesB
       /\ outA = entries all (seq 0 5) rolesA
       /\ outB = entries all (seq 5 5) rolesB
       /\ sA = total all (seq 0 5) /\ sB = total all (seq 5 5).
Proof.
  intros H. unfold laneUnique in H.
  destruct (Nat.eqb (List.length all) 10) eqn:Hten; [| discriminate].
  apply Nat.eqb_eq in Hten. split; [exact Hten |].
  rewrite comb_leaves in H.
  pose proof (fold_fromLeaf all (leavesOf (seq 0 10) 5 []) []
                (mkBest (2 ^ 30) [] [] [] [])
                (or_introl (conj eq_refl eq_refl))) as HI.
  cbn [app] in HI.
  set (best := fold_left (visit all) (leavesOf (seq 0 10) 5 [])
                         (mkBest (2 ^ 30) [] [] [] [])) in *.
  destruct (Nat.eqb (List.length (bestA best)) 5) eqn:LA; [| discriminate].
  destruct (Nat.eqb (List.length (bestB best)) 5) eqn:LB; [| discriminate].
  cbn [andb] in H. inversion H; subst. clear H.
  apply Nat.eqb_eq in LA. apply Nat.eqb_eq in LB.
  destruct HI as [[E _] | (acc & arr & Hin & EA & EB & AA & AB)].
  { rewrite E in LA. discriminate. }
  rewrite EB in LB.
  destruct (full_teamB acc arr Hin LB) as [Eacc Eoth].
  rewrite Eoth in *. rewrite Eacc in *.
  destruct (assign_picks all (seq 0 5) [] (repeat "" 5) [] _ AA)
    as (pa & Pa & Ra); [cbn; lia |].
  destruct (assign_picks all (seq 5 5) [] (repeat "" 5) [] _ AB)
    as (pb & Pb & Rb); [cbn; lia |].
  cbn [app List.length seq skipn repeat] in Ra, Rb.
  rewrite app_nil_r in Ra, Rb.
  exists pa, pb. rewrite EA, EB, Ra, Rb. auto 10.
Qed.

Ltac ten_players all Hten :=
  do 10 (destruct all as [| ? all]; [discriminate Hten |]);
  destruct all; [| discriminate Hten].

Ltac five_roles roles HF :=
  pose proof (Forall2_length HF) as Hlen_roles;
  do 5 (destruct roles as [| ? roles]; [discriminate Hlen_roles |]);
  destruct roles; [| discriminate Hlen_roles]; clear Hlen_roles.

(** X20. Whenever the lane-unique block shows a split, team A is the
    first five players of the sorted roster and team B the last five, in
    that order, with the sums of their skill scores. *)
Theorem X20_lane_unique_shows_first_five_against_last_five
        (all : list PlayerData) (outA outB : list Entry) (sA sB : Z) :
  laneUnique all = Found outA outB sA sB ->
  map (fun e => (Name e, Skill e)) outA
  = map (fun p => (name p, skill_score p)) (firstn 5 all)
  /\ map (fun e => (Name e, Skill e)) outB
     = map (fun p => (name p, skill_score p)) (skipn 5 all)
  /\ sA = skillSum (firstn 5 all) 0
  /\ sB = skillSum (skipn 5 all) 0.
Proof.
  intros H.
  destruct (laneUnique_found all outA outB sA sB H)
    as (Hten & ra & rb & Pa & Pb & -> & -> & -> & ->).
  destruct (picks_valid all _ _ _ Pa) as (Fa & _).
  destruct (picks_valid all _ _ _ Pb) as (Fb & _).
  clear H Pa Pb. ten_players all Hten.
  five_roles ra Fa. five_roles rb Fb.
  unfold total, skillSum, entries, playerAt.
  cbn [fold_left seq firstn skipn nth combine map fst snd Name Skill].
  split; [reflexivity |]. split; [reflexivity |].
  split; reflexivity.
Qed.

(** X21. In a split shown by the lane-unique block no role is given
    twice within a team, and the role of each player is one of the main
    lanes of that player. *)
Theorem X21_lane_unique_roles_are_distinct_main_lanes
        (all : list PlayerData) (outA outB : list Entry) (sA sB : Z) :
  laneUnique all = Found outA outB sA sB ->
  NoDup (map Role outA) /\ NoDup (map Role outB)
  /\ Forall2 (fun e p => In (Role e) (main_lanes p)) outA (firstn 5 all)
  /\ Forall2 (fun e p => In (Role e) (main_lanes p)) outB (skipn 5 all).
Proof.
  intros H.
  destruct (laneUnique_found all outA outB sA sB H)
    as (Hten & ra & rb & Pa & Pb & -> & -> & -> & ->).
  destruct (picks_valid all _ _ _ Pa) as (Fa & Na & _).
  destruct (picks_valid all _ _ _ Pb) as (Fb & Nb & _).
  clear H Pa Pb. ten_players all Hten.
  pose proof Fa as Fa'. pose proof Fb as Fb'.
  five_roles ra Fa'. five_roles rb Fb'.
  split; [exact Na |]. split; [exact Nb |].
  cbn [seq] in Fa, Fb.
  repeat match goal with
         | H : Forall2 _ (_ :: _) (_ :: _) |- _ =>
           inversion H; subst; clear H
         end.
  unfold playerAt in *. cbn [nth] in *.
  unfold entries.
  split; cbn [combine map seq firstn skipn nth fst snd Role];
    repeat (apply Forall2_cons; [assumption |]); apply Forall2_nil.
Qed.

End LaneUniqueFacts.

Lemma X20_lane_unique_witness :
  map (fun e => (TeamSplit.Name e, TeamSplit.Skill e))
      [ TeamSplit.mkEntry "p0" "TOP" 3000; TeamSplit.mkEntry "p1" "JUNGLE" 2900;
        TeamSplit.mkEntry "p2" "MIDDLE" 2800;
        TeamSplit.mkEntry "p3" "BOTTOM" 2700;
        TeamSplit.mkEntry "p4" "UTILITY" 2600 ]
  = map (fun p => (TeamSplit.name p, TeamSplit.skill_score p))
        (firstn 5 tenPlayers)
  /\ map (fun e => (TeamSplit.Name e, TeamSplit.Skill e))
      [ TeamSplit.mkEntry "p5" "TOP" 2500; TeamSplit.mkEntry "p6" "JUNGLE" 2400;
        TeamSplit.mkEntry "p7" "MIDDLE" 2300;
        TeamSplit.mkEntry "p8" "BOTTOM" 2200;
        TeamSplit.mkEntry "p9" "UTILITY" 2100 ]
     = map (fun p => (TeamSplit.name p, TeamSplit.skill_score p))
           (skipn 5 tenPlayers)
  /\ 14000 = TeamSplit.skillSum (firstn 5 tenPlayers) 0
  /\ 11500 = TeamSplit.skillSum (skipn 5 tenPlayers) 0.
Proof.
  apply (X20_lane_unique_shows_first_five_against_last_five tenPlayers).
  vm_compute. reflexivity.
Defined.

(** ** The pass over the match details *)

Section CollectorFacts.
Import Collector.

Definition keys {K : Type} (m : list (K * Z)) : list K := map fst m.
Definition counts {K : Type} (m : list (K * Z)) : list Z := map snd m.

Section Bump.
Context {K : Type}.
Variable eqb : K -> K -> bool.
Hypothesis eqb_spec : forall a b, eqb a b = true <-> a = b.

Lemma bump_keys (k : K) (m : list (K * Z)) :
  (In k (keys m) /\ keys (bump eqb k m) = keys m)
  \/ (~ In k (keys m) /\ keys (bump eqb k m) = keys m ++ [k]).
Proof.
  unfold keys. induction m as [| [k' v] m IH]; cbn [bump map fst In app].
  - right. split; [tauto | reflexivity].
  - destruct (eqb k k') eqn:E.
    + left. apply eqb_spec in E. subst. split; [now left | reflexivity].
    + assert (k' <> k).
      { intros ->. assert (eqb k k = true) by now apply eqb_spec.
        congruence. }
      destruct IH as [[H1 H2] | [H1 H2]]; [left | right]; cbn [map fst];
        rewrite H2; split; try reflexivity; tauto.
Qed.

Lemma bump_NoDup (k : K) (m : list (K * Z)) :
  NoDup (keys m) -> NoDup (keys (bump eqb k m)).
Proof.
  intros H. destruct (bump_keys k m) as [[_ E] | [Hn E]]; rewrite E.
  - exact H.
  - apply NoDup_app; [exact H | repeat constructor; intros [] |].
    intros x Hx [<- | []]. contradiction.
Qed.

Lemma bump_counts (k : K) (m : list (K * Z)) (n : Z) :
  Forall (fun v => 1 <= v) (counts m) ->
  Aggregator.sumZ (counts m) = n -> n < GoInt.maxInt ->
  Forall (fun v => 1 <= v) (counts (bump eqb k m))
  /\ Aggregator.sumZ (counts (bump eqb k m)) = n + 1.
Proof.
  unfold counts, Aggregator.sumZ. revert n.
  induction m as [| [k' v] m IH]; intros n HF Hs Hn;
    cbn [bump map snd fold_right] in *.
  - split; [repeat constructor; vm_compute; discriminate |].
    subst n. reflexivity.
  - inversion HF as [| ? ? Hv HF']; subst.
    assert (Hrest : 0 <= fold_right Z.add 0 (map snd m)).
    { clear -HF'. induction HF' as [| x l Hx _ IHl]; cbn [fold_right]; lia. }
    destruct (eqb k k'); cbn [map snd fold_right].
    + assert (E : GoInt.add v 1 = v + 1).
      { unfold GoInt.add. apply wrap_inRange.
        unfold GoInt.inRange, GoInt.minInt, GoInt.maxInt in *. lia. }
      rewrite E. split; [constructor; [lia | exact HF'] | lia].
    + destruct (IH (fold_right Z.add 0 (map snd m)) HF' eq_refl ltac:(lia))
        as [F' S'].
      split; [constructor; assumption | lia].
Qed.

End Bump.

Lemma Zeqb_spec (a b : Z) : Z.eqb a b = true <-> a = b.
Proof. apply Z.eqb_eq. Qed.

Lemma Seqb_spec (a b : string) : String.eqb a b = true <-> a = b.
Proof. apply String.eqb_eq. Qed.

(** The appearances of the player in the matches that count, each with
    the queue of its match. *)
Definition appearances (puuid : string) (details : list (option MatchDetail))
  : list (Z * Participant) :=
  flat_map (fun detail =>
              match detail with
              | Some d =>
                if counted (QueueID d)
                then map (fun p => (QueueID d, p))
                         (filter (fun p => String.eqb (PUUID p) puuid)
                                 (Participants d))
                else []
              | None => []
              end) details.

Definition ranked (apps : list (Z * Participant)) : list (Z * Participant) :=
  filter (fun a => fst a =? 420) apps.

Definition won (apps : list (Z * Participant)) : list (Z * Participant) :=
  filter (fun a => Win (snd a)) apps.

(** What holds of the tally after [n] appearances. *)
Record TallyOK (n : Z) (t : Tally) : Prop := mkTallyOK {
  ok_champs : Aggregator.sumZ (counts (championCount t)) = n;
  ok_lanes : Aggregator.sumZ (counts (laneCount t)) = n;
  ok_champ_pos : Forall (fun v => 1 <= v) (counts (championCount t));
  ok_lane_pos : Forall (fun v => 1 <= v) (counts (laneCount t));
  ok_champ_keys : NoDup (keys (championCount t));
  ok_lane_keys : NoDup (keys (laneCount t));
  ok_lane_named : ~ In "" (keys (laneCount t))
}.

Lemma tallyParticipant_OK (puuid : string) (q : Z) (t : Tally)
      (p : Participant) (n r w : Z) :
  TallyOK n t -> n < GoInt.maxInt ->
  rankedCount t = r -> rankedWin t = w -> 0 <= w <= r -> r <= n ->
  PUUID p = puuid ->
  let t' := tallyParticipant puuid q t p in
  TallyOK (n + 1) t'
  /\ rankedCount t' = r + (if q =? 420 then 1 else 0)
  /\ rankedWin t' = w + (if (q =? 420) && Win p then 1 else 0).
Proof.
  intros [H1 H2 H3 H4 H5 H6 H7] Hn Hr Hw Hwr Hrn Hp.
  unfold tallyParticipant. rewrite Hp, String.eqb_refl.
  set (lane := if String.eqb (TeamPosition p) "" then "UNKNOWN"
               else TeamPosition p).
  assert (Hlane : lane <> "").
  { unfold lane. destruct (String.eqb_spec (TeamPosition p) "");
      [discriminate | assumption]. }
  destruct (bump_counts Z.eqb (ChampionID p) _ n H3 H1 Hn) as [C1 C2].
  destruct (bump_counts String.eqb lane _ n H4 H2 Hn) as [L1 L2].
  pose proof (bump_NoDup Z.eqb Zeqb_spec (ChampionID p) _ H5) as C3.
  pose proof (bump_NoDup String.eqb Seqb_spec lane _ H6) as L3.
  assert (L4 : ~ In "" (keys (bump String.eqb lane (laneCount t)))).
  { destruct (bump_keys String.eqb Seqb_spec lane (laneCount t))
      as [[_ E] | [_ E]]; rewrite E; [exact H7 |].
    intros Hin. apply in_app_or in Hin.
    destruct Hin as [Hin | [E' | []]]; [contradiction | congruence]. }
  assert (Er : GoInt.add r 1 = r + 1).
  { unfold GoInt.add. apply wrap_inRange.
    unfold GoInt.inRange, GoInt.minInt, GoInt.maxInt in *. lia. }
  assert (Ew : GoInt.add w 1 = w + 1).
  { unfold GoInt.add. apply wrap_inRange.
    unfold GoInt.inRange, GoInt.minInt, GoInt.maxInt in *. lia. }
  cbn zeta. rewrite Hr, Hw.
  destruct (q =? 420); cbn [andb].
  - split; [constructor; assumption |].
    cbn [rankedCount rankedWin]. rewrite Er.
    split; [reflexivity |]. destruct (Win p); [exact Ew | lia].
  - split; [constructor; assumption |].
    cbn [rankedCount rankedWin]. split; lia.
Qed.

Lemma tallyParticipant_other (puuid : string) (q : Z) (t : Tally)
      (p : Participant) :
  String.eqb (PUUID p) puuid = false -> tallyParticipant puuid q t p = t.
Proof. intros H. unfold tallyParticipant. now rewrite H. Qed.

Definition visitApp (puuid : string) (t : Tally) (a : Z * Participant)
  : Tally :=
  tallyParticipant puuid (fst a) t (snd a).

Lemma tallyMatch_apps (puuid : string) (ps : list Participant) (q : Z) :
  forall t,
  fold_left (tallyParticipant puuid q) ps t
  = fold_left (visitApp puuid)
      (map (fun p => (q, p))
           (filter (fun p => String.eqb (PUUID p) puuid) ps)) t.
Proof.
  induction ps as [| p ps IH]; intros t; cbn [fold_left filter map];
    [reflexivity |].
  destruct (String.eqb (PUUID p) puuid) eqn:E.
  - cbn [map fold_left]. unfold visitApp at 2. cbn [fst snd]. apply IH.
  - rewrite tallyParticipant_other by exact E. apply IH.
Qed.

Lemma firstPass_apps (puuid : string) (details : list (option MatchDetail)) :
  forall t,
  fold_left (tallyMatch puuid) details t
  = fold_left (visitApp puuid) (appearances puuid details) t.
Proof.
  induction details as [| d details IH]; intros t;
    cbn [fold_left appearances flat_map]; [reflexivity |].
  rewrite fold_left_app. fold (appearances puuid details). rewrite <- IH.
  f_equal. unfold tallyMatch. destruct d as [d |]; [| reflexivity].
  destruct (counted (QueueID d)); [apply tallyMatch_apps | reflexivity].
Qed.

Lemma appearances_mine (puuid : string)
      (details : list (option MatchDetail)) :
  Forall (fun a => PUUID (snd a) = puuid /\ counted (fst a) = true)
         (appearances puuid details).
Proof.
  unfold appearances. apply Forall_forall. intros a Ha.
  apply in_flat_map in Ha. destruct Ha as (d & _ & Ha).
  destruct d as [d |]; [| destruct Ha].
  destruct (counted (QueueID d)) eqn:Hc; [| destruct Ha].
  apply in_map_iff in Ha. destruct Ha as (p & <- & Hp).
  apply filter_In in Hp. destruct Hp as [_ Hp]. cbn [fst snd].
  split; [now apply String.eqb_eq | exact Hc].
Qed.

Lemma fold_apps_OK (puuid : string) (apps : list (Z * Participant)) :
  forall (t : Tally) (n : Z),
  Forall (fun a => PUUID (snd a) = puuid) apps ->
  TallyOK n t -> 0 <= n ->
  n + Z.of_nat (List.length apps) <= GoInt.maxInt ->
  0 <= rankedWin t <= rankedCount t -> rankedCount t <= n ->
  let t' := fold_left (visitApp puuid) apps t in
  TallyOK (n + Z.of_nat (List.length apps)) t'
  /\ rankedCount t'
     = rankedCount t + Z.of_nat (List.length (ranked apps))
  /\ rankedWin t'
     = rankedWin t + Z.of_nat (List.length (won (ranked apps))).
Proof.
  induction apps as [| a apps IH]; intros t n HF HO Hn Hmax Hw Hr;
    cbn [fold_left List.length ranked won filter].
  - rewrite !Z.add_0_r. auto.
  - inversion HF as [| ? ? Ha HF']; subst.
    cbn [List.length] in Hmax. rewrite Nat2Z.inj_succ in Hmax.
    destruct (tallyParticipant_OK (PUUID (snd a)) (fst a) t (snd a) n
                (rankedCount t) (rankedWin t) HO ltac:(lia)
                eq_refl eq_refl Hw Hr eq_refl) as (O1 & R1 & W1).
    fold (visitApp (PUUID (snd a)) t a) in O1, R1, W1.
    set (dr := if fst a =? 420 then 1 else 0) in *.
    set (dw := if (fst a =? 420) && Win (snd a) then 1 else 0) in *.
    assert (B : 0 <= dw /\ dw <= dr /\ dr <= 1)
      by (unfold dw, dr; destruct (fst a =? 420), (Win (snd a));
          cbn [andb]; lia).
    destruct (IH (visitApp (PUUID (snd a)) t a) (n + 1) HF' O1
                 ltac:(lia) ltac:(lia) ltac:(lia) ltac:(lia))
      as (O2 & R2 & W2).
    cbn zeta. rewrite Nat2Z.inj_succ.
    replace (n + Z.succ (Z.of_nat (List.length apps)))
      with (n + 1 + Z.of_nat (List.length apps)) by lia.
    split; [exact O2 |]. rewrite R2, W2, R1, W1.
    fold (ranked apps). unfold dw, dr. clear B.
    unfold won.
    destruct (fst a =? 420); cbn [andb filter List.length].
    + destruct (Win (snd a)); cbn [List.length];
        rewrite ?Nat2Z.inj_succ; split; lia.
    + split; lia.
Qed.

(** X22. After the first pass over the match details the champion counts
    and the lane counts both add up to the number of appearances of the
    player in matches of the queues 400, 430 and 420; the ranked count is
    the number of those in queue 420 and the win count the number of wins
    among them, so wins never exceed ranked games; no key appears twice and
    no lane is the empty string. *)
Theorem X22_first_pass_counts_add_up
        (puuid : string) (details : list (option MatchDetail)) :
  let apps := appearances puuid details in
  let t := firstPass puuid details in
  Z.of_nat (List.length apps) <= GoInt.maxInt ->
  Aggregator.sumZ (counts (championCount t)) = Z.of_nat (List.length apps)
  /\ Aggregator.sumZ (counts (laneCount t)) = Z.of_nat (List.length apps)
  /\ rankedCount t = Z.of_nat (List.length (ranked apps))
  /\ rankedWin t = Z.of_nat (List.length (won (ranked apps)))
  /\ 0 <= rankedWin t <= rankedCount t
  /\ rankedCount t <= Z.of_nat (List.length apps)
  /\ NoDup (keys (championCount t)) /\ NoDup (keys (laneCount t))
  /\ ~ In "" (keys (laneCount t))
  /\ Forall (fun a => In (fst a) [400; 430; 420]) apps.
Proof.
  intros apps t Hmax. unfold t, firstPass. rewrite firstPass_apps.
  fold apps.
  assert (HO : TallyOK 0 noTally).
  { constructor; cbn; try constructor; tauto. }
  assert (HF : Forall (fun a => PUUID (snd a) = puuid) apps).
  { eapply Forall_impl; [| apply appearances_mine]. cbn. tauto. }
  destruct (fold_apps_OK puuid apps noTally 0 HF HO ltac:(lia) ltac:(lia)
              ltac:(cbn; lia) ltac:(cbn; lia)) as ([H1 H2 H3 H4 H5 H6 H7] & R & W).
  cbn [noTally rankedCount rankedWin] in R, W. rewrite Z.add_0_l in *.
  pose proof (filter_length_le (fun a : Z * Participant => fst a =? 420) apps)
    as B1.
  pose proof (filter_length_le (fun a : Z * Participant => Win (snd a))
                               (ranked apps)) as B2.
  fold (ranked apps) in B1. fold (won (ranked apps)) in B2.
  split; [exact H1 |]. split; [exact H2 |]. split; [exact R |].
  split; [exact W |]. split; [rewrite R, W; lia |].
  split; [rewrite R; lia |].
  split; [exact H5 |]. split; [exact H6 |]. split; [exact H7 |].
  eapply Forall_impl; [| apply appearances_mine]. cbn.
  intros a [_ Hc]. unfold counted in Hc.
  apply andb_true_iff in Hc. destruct Hc as [_ Hc].
  destruct (Z.eqb_spec (fst a) 400) as [-> | _]; [tauto |].
  destruct (Z.eqb_spec (fst a) 430) as [-> | _]; [tauto |].
  destruct (Z.eqb_spec (fst a) 420) as [-> | _]; [tauto |].
  discriminate.
Qed.

End CollectorFacts.

Section LaneFacts.
Import Collector.

(** What [sort.Slice] promises for [moreGames]. *)
Definition sortsByGames {K : Type}
           (sortSlice : list (K * Z) -> list (K * Z)) : Prop :=
  forall l, Permutation (sortSlice l) l /\
            StronglySorted (fun a b => snd a >= snd b) (sortSlice l).

Lemma insertionSort_sortsByGames {K : Type} :
  sortsByGames (GoSort.insertionSort (@moreGames K)).
Proof.
  intros l. split; [apply insertionSort_perm |].
  apply (insertionSort_sorted moreGames (fun _ => True)); unfold moreGames.
  - intros x y _ _ H. rewrite Z.gtb_ltb in H. apply Z.ltb_ge in H. lia.
  - intros x y _ _ H. apply Z.gtb_lt in H. lia.
  - intros x y z _ _ _ H1 H2. lia.
  - apply Forall_forall. intros; exact I.
Qed.

Lemma firstn_plus {A : Type} (n m : nat) (l : list A) :
  firstn (n + m) l = firstn n l ++ firstn m (skipn n l).
Proof.
  revert l. induction n as [| n IH]; intros l; cbn [plus firstn skipn app];
    [reflexivity |].
  destruct l as [| x l]; cbn [firstn skipn app].
  - now destruct m.
  - now rewrite IH.
Qed.

Lemma sorted_split {A : Type} (R : A -> A -> Prop) (l1 l2 : list A) :
  StronglySorted R (l1 ++ l2) ->
  forall a b, In a l1 -> In b l2 -> R a b.
Proof.
  induction l1 as [| x l1 IH]; intros HS a b Ha Hb; [destruct Ha |].
  cbn [app] in HS. inversion HS as [| ? ? Hrest Hx]; subst.
  destruct Ha as [<- | Ha].
  - apply (proj1 (Forall_forall _ _) Hx). apply in_or_app. now right.
  - now apply IH.
Qed.

Lemma lookup_entry (m : list (string * Z)) (k : string) (v : Z) :
  NoDup (keys m) -> In (k, v) m -> RankScale.lookupInt m k = v.
Proof.
  unfold keys. induction m as [| [k' v'] m IH]; intros HN Hin;
    [destruct Hin |].
  cbn [map fst] in HN. inversion HN as [| ? ? Hk HN']; subst.
  cbn [RankScale.lookupInt]. destruct Hin as [E | Hin].
  - inversion E; subst. now rewrite String.eqb_refl.
  - destruct (String.eqb_spec k k') as [-> | _]; [| now apply IH].
    exfalso. apply Hk. apply in_map_iff. now exists (k', v).
Qed.

(** The count of the entries at the front of the sorted statistics is at
    least the count of every lane left out. *)
Lemma front_outplays (m stats : list (string * Z)) (n : nat)
      (lane other : string) :
  Permutation stats m -> NoDup (keys m) ->
  StronglySorted (fun a b => snd a >= snd b) stats ->
  In lane (map fst (firstn n stats)) ->
  In other (keys m) -> ~ In other (map fst (firstn n stats)) ->
  RankScale.lookupInt m lane >= RankScale.lookupInt m other.
Proof.
  intros HP HN HS Hl Ho Hno.
  apply in_map_iff in Hl. destruct Hl as ([l vl] & El & Hl).
  cbn [fst] in El. subst l.
  apply in_map_iff in Ho. destruct Ho as ([o vo] & Eo & Ho).
  cbn [fst] in Eo. subst o.
  assert (Hlm : In (lane, vl) m).
  { eapply Permutation_in; [exact HP |].
    rewrite <- (firstn_skipn n stats). apply in_or_app. now left. }
  assert (Hos : In (other, vo) (skipn n stats)).
  { apply Permutation_sym in HP.
    pose proof (Permutation_in _ HP Ho) as Hin.
    rewrite <- (firstn_skipn n stats) in Hin. apply in_app_or in Hin.
    destruct Hin as [Hin | Hin]; [| exact Hin].
    exfalso. apply Hno. apply in_map_iff. now exists (other, vo). }
  rewrite (lookup_entry m lane vl HN Hlm).
  rewrite (lookup_entry m other vo HN Ho).
  rewrite <- (firstn_skipn n stats) in HS.
  exact (sorted_split _ _ _ HS (lane, vl) (other, vo) Hl Hos).
Qed.

(** X23. The main lanes are the two most played lanes and the sub lanes
    the next two: they are distinct lanes the player was counted on, at most
    two each, and a main (sub) lane has at least as many games as any lane
    that is not a main lane (neither main nor sub). *)
Theorem X23_main_lanes_are_the_two_most_played
        (range sortSlice : list (string * Z) -> list (string * Z))
        (t : Tally) :
  (forall l, Permutation (range l) l) -> sortsByGames sortSlice ->
  NoDup (keys (laneCount t)) ->
  let stats := laneStats range sortSlice t in
  let main := mainLanes stats in
  let sub := subLanes stats in
  let games := RankScale.lookupInt (laneCount t) in
  NoDup (main ++ sub)
  /\ incl (main ++ sub) (keys (laneCount t))
  /\ List.length main = Nat.min 2 (List.length (laneCount t))
  /\ List.length sub = Nat.min 2 (List.length (laneCount t) - 2)
  /\ (forall lane other,
        In lane main -> In other (keys (laneCount t)) -> ~ In other main ->
        games lane >= games other)
  /\ (forall lane other,
        In lane sub -> In other (keys (laneCount t)) ->
        ~ In other (main ++ sub) -> games lane >= games other).
Proof.
  intros Hrange Hsort HN stats main sub games.
  destruct (Hsort (range (laneCount t))) as [HP HS].
  fold (laneStats range sortSlice t) in HP, HS. fold stats in HP, HS.
  assert (HPm : Permutation stats (laneCount t))
    by (rewrite HP; apply Hrange).
  assert (E4 : main ++ sub = map fst (firstn 4 stats)).
  { unfold main, sub, mainLanes, subLanes. rewrite <- map_app.
    now rewrite <- (firstn_plus 2 2). }
  assert (HNs : NoDup (map fst stats)).
  { eapply Permutation_NoDup; [| exact HN].
    apply Permutation_sym. unfold keys. now apply Permutation_map. }
  pose proof (Permutation_length HPm) as HL.
  split; [| split; [| split; [| split; [| split]]]].
  - rewrite E4. rewrite <- (firstn_skipn 4 stats), map_app in HNs.
    now apply NoDup_app_remove_r in HNs.
  - rewrite E4. intros lane Hl. apply in_map_iff in Hl.
    destruct Hl as (a & <- & Ha). unfold keys. apply in_map.
    eapply Permutation_in; [exact HPm |].
    rewrite <- (firstn_skipn 4 stats). apply in_or_app. now left.
  - unfold main, mainLanes. rewrite length_map, length_firstn. lia.
  - unfold sub, subLanes. rewrite length_map, length_firstn, length_skipn.
    lia.
  - intros lane other Hl Ho Hno.
    exact (front_outplays _ stats 2 lane other HPm HN HS Hl Ho Hno).
  - intros lane other Hl Ho Hno. rewrite E4 in Hno.
    apply (front_outplays _ stats 4 lane other HPm HN HS); try assumption.
    rewrite <- E4. apply in_or_app. now right.
Qed.

End LaneFacts.

Section ChampionFacts.
Import Collector.

Variable championIDToName : list (Z * string).

Definition nameOf (id : Z) : string :=
  RankScale.lookupStr championIDToName id.

(** A list of names as [collect] keeps it. *)
Definition tidy (acc : list string) : Prop := NoDup acc /\ ~ In "" acc.

Lemma seen_false (name : string) (acc : list string) :
  seen name acc = false -> ~ In name acc.
Proof.
  unfold seen. intros H Hin.
  assert (existsb (String.eqb name) acc = true); [| congruence].
  apply existsb_exists. exists name. split; [exact Hin |].
  apply String.eqb_refl.
Qed.

Lemma collect_spec (cap : nat) (ids : list Z) :
  forall acc : list string,
  tidy acc ->
  exists more,
    collect championIDToName cap ids acc = acc ++ more
    /\ tidy (acc ++ more)
    /\ incl more (map nameOf ids)
    /\ (List.length (acc ++ more) <= Nat.max cap (List.length acc))%nat.
Proof.
  induction ids as [| id rest IH]; intros acc [HN H0]; cbn [collect].
  - exists []. rewrite app_nil_r. split; [reflexivity |].
    split; [now split |]. split; [intros x [] | lia].
  - destruct (Nat.ltb_spec (List.length acc) cap) as [Hlt | Hge].
    2:{ exists []. rewrite app_nil_r. split; [reflexivity |].
        split; [now split |]. split; [intros x [] | lia]. }
    fold (nameOf id).
    destruct (negb (String.eqb (nameOf id) "") && negb (seen (nameOf id) acc))
      eqn:Hnew.
    + apply andb_true_iff in Hnew. destruct Hnew as [Hne Hns].
      apply negb_true_iff in Hne, Hns.
      apply String.eqb_neq in Hne. apply seen_false in Hns.
      destruct (IH (acc ++ [nameOf id])) as (more & E & T & I & L).
      { split.
        - apply NoDup_app; [exact HN | repeat constructor; intros [] |].
          intros x Hx [<- | []]. contradiction.
        - intros Hin. apply in_app_or in Hin.
          destruct Hin as [Hin | [E | []]]; [contradiction | congruence]. }
      exists (nameOf id :: more). rewrite E, <- app_assoc. cbn [app].
      rewrite <- app_assoc in T, L. cbn [app] in T, L.
      split; [reflexivity |]. split; [exact T |]. split.
      * intros x [<- | Hx]; [now left | right; now apply I].
      * rewrite length_app in L. cbn [List.length] in L.
        rewrite length_app in *. cbn [List.length] in *. lia.
    + destruct (IH acc (conj HN H0)) as (more & E & T & I & L).
      exists more. split; [exact E |]. split; [exact T |].
      split; [| exact L]. intros x Hx. right. now apply I.
Qed.

Lemma tidy_nil : tidy [].
Proof. split; [constructor | intros []]. Qed.

(** X24. The main champions of the web service are distinct, never the
    empty name, at most six, and each is the name of a mastered or a played
    champion; the champions of a lane are distinct, named, at most three,
    and each is played on the lane or mastered. *)
Theorem X24_main_champions_are_distinct_named_and_at_most_six
        (sortMastery : list Aggregator.Mastery -> list Aggregator.Mastery)
        (range sortUsage : list (Z * Z) -> list (Z * Z))
        (masteries : option (list Aggregator.Mastery))
        (championCount : list (Z * Z))
        (laneChamps : list (Z * Z)) (held : list Aggregator.Mastery) :
  (forall l, Permutation (sortMastery l) l) ->
  (forall l, Permutation (range l) l) ->
  (forall l, Permutation (sortUsage l) l) ->
  let champs := mainChamps sortMastery range sortUsage championIDToName
                           masteries championCount in
  let mastered := match masteries with Some ms => ms | None => [] end in
  let onLane := getLaneChampions sortMastery range sortUsage championIDToName
                                 held laneChamps in
  (NoDup champs /\ ~ In "" champs /\ (List.length champs <= 6)%nat
   /\ incl champs (map nameOf (map Aggregator.ChampionID mastered
                               ++ map fst championCount)))
  /\ (NoDup onLane /\ ~ In "" onLane /\ (List.length onLane <= 3)%nat
      /\ incl onLane (map nameOf (map fst laneChamps
                                  ++ map Aggregator.ChampionID held))).
Proof.
  intros HsM Hr HsU champs mastered onLane. split.
  - unfold champs, mainChamps.
    set (a := match masteries with
              | Some ms => collect championIDToName 3
                             (map Aggregator.ChampionID (sortMastery ms)) []
              | None => []
              end).
    assert (Ha : tidy a /\ (List.length a <= 3)%nat
                 /\ incl a (map nameOf (map Aggregator.ChampionID mastered))).
    { unfold a, mastered. destruct masteries as [ms |].
      - destruct (collect_spec 3 (map Aggregator.ChampionID (sortMastery ms))
                    [] tidy_nil) as (more & E & T & I & L).
        rewrite E. cbn [app List.length Nat.max] in *.
        split; [exact T |]. split; [lia |].
        intros x Hx. apply I in Hx. apply in_map_iff in Hx.
        destruct Hx as (id & <- & Hid). apply in_map.
        eapply Permutation_in; [| exact Hid].
        apply Permutation_map, HsM.
      - split; [apply tidy_nil |]. split; [cbn; lia | intros x []]. }
    destruct Ha as (Ta & La & Ia).
    destruct (Nat.ltb_spec (List.length a) 6) as [_ | Hge]; [| lia].
    destruct (collect_spec 6 (map fst (sortUsage (range championCount))) a Ta)
      as (more & E & [TN T0] & I & L).
    rewrite E. split; [exact TN |]. split; [exact T0 |].
    split; [pose proof (Nat.max_spec 6 (List.length a)); lia |].
    rewrite map_app. intros x Hx. apply in_or_app. apply in_app_or in Hx.
    destruct Hx as [Hx | Hx]; [left; now apply Ia | right].
    apply I in Hx. apply in_map_iff in Hx.
    destruct Hx as (id & <- & Hid). apply in_map.
    eapply Permutation_in; [| exact Hid].
    apply Permutation_map. rewrite HsU. apply Hr.
  - unfold onLane, getLaneChampions.
    destruct (collect_spec 3 (map fst (sortUsage (range laneChamps)))
                [] tidy_nil) as (r & E & Tr & Ir & Lr).
    rewrite E. cbn [app List.length Nat.max] in *.
    assert (Ir' : incl r (map nameOf (map fst laneChamps))).
    { intros x Hx. apply Ir in Hx. apply in_map_iff in Hx.
      destruct Hx as (id & <- & Hid). apply in_map.
      eapply Permutation_in; [| exact Hid].
      apply Permutation_map. rewrite HsU. apply Hr. }
    destruct ((List.length r <? 3)%nat && (0 <? List.length held)%nat).
    + destruct (collect_spec 3 (map Aggregator.ChampionID (sortMastery held))
                  r Tr) as (more & E2 & [TN T0] & I2 & L2).
      rewrite E2. split; [exact TN |]. split; [exact T0 |].
      split; [pose proof (Nat.max_spec 3 (List.length r)); lia |].
      rewrite map_app. intros x Hx. apply in_or_app. apply in_app_or in Hx.
      destruct Hx as [Hx | Hx]; [left; now apply Ir' | right].
      apply I2 in Hx. apply in_map_iff in Hx.
      destruct Hx as (id & <- & Hid). apply in_map.
      eapply Permutation_in; [| exact Hid].
      apply Permutation_map, HsM.
    + destruct Tr as [TN T0]. split; [exact TN |]. split; [exact T0 |].
      split; [lia |]. rewrite map_app. intros x Hx. apply in_or_app.
      left. now apply Ir'.
Qed.

End ChampionFacts.

Section LimitFacts.
Import Collector.

Lemma envLimit_positive (ml : string) : 0 < envLimit ml.
Proof.
  unfold envLimit. destruct (String.eqb ml ""); [lia |].
  destruct (Executor.Atoi ml) as [n |]; [| lia].
  destruct (Z.gtb_spec n 0); lia.
Qed.

Lemma clampLimit_bounds (matchLimit n : Z) :
  0 <= n -> 0 <= clampLimit matchLimit n <= n.
Proof.
  intros Hn. unfold clampLimit.
  destruct (Z.leb_spec matchLimit 0); cbn [orb]; [lia |].
  destruct (Z.gtb_spec matchLimit n); lia.
Qed.

Lemma limitsUsed_spec (lengths : list Z) :
  forall matchLimit : Z,
  Forall (fun n => 0 <= n) lengths ->
  Forall2 (fun used n => 0 <= used <= n) (limitsUsed matchLimit lengths)
          lengths
  /\ forall before after i,
       nth_error (matchLimit :: limitsUsed matchLimit lengths) i
       = Some before ->
       nth_error (limitsUsed matchLimit lengths) i = Some after ->
       (0 < before -> after <= before)
       /\ (before <= 0 -> nth_error lengths i = Some after).
Proof.
  induction lengths as [| n rest IH]; intros matchLimit HF;
    cbn [limitsUsed].
  - split; [constructor |]. intros before after i _ H.
    destruct i; discriminate.
  - inversion HF as [| ? ? Hn HF']; subst.
    destruct (IH (clampLimit matchLimit n) HF') as [F2 Step].
    pose proof (clampLimit_bounds matchLimit n Hn) as B.
    split; [now constructor |].
    intros before after i Hb Ha. destruct i as [| i].
    + cbn [nth_error] in *. inversion Hb; inversion Ha; subst.
      unfold clampLimit.
      destruct (Z.leb_spec before 0); cbn [orb]; [split; [lia | reflexivity] |].
      destruct (Z.gtb_spec before n); split; intros; try lia; reflexivity.
    + cbn [nth_error] in Hb, Ha. cbn [nth_error].
      exact (Step before after i Hb Ha).
Qed.

(** X25. The number of match details asked for never exceeds the length
    of the match list: the collector asks for the smaller of the list and a
    positive MATCH_LIMIT; the web service clamps its limit to each player's
    list, carries it on to the next player, so that it never grows again,
    except that after a player without matches the next player is analysed
    over the whole list. *)
Theorem X25_match_limits_stay_inside_the_match_list
        (ml : string) (matchLimit : Z) (lengths : list Z) (matchIDs : Z) :
  Forall (fun n => 0 <= n) lengths -> 0 <= matchIDs ->
  (0 <= maxMatches ml matchIDs <= matchIDs
   /\ maxMatches ml matchIDs <= envLimit ml /\ 0 < envLimit ml)
  /\ Forall2 (fun used n => 0 <= used <= n) (limitsUsed matchLimit lengths)
             lengths
  /\ forall before after i,
       nth_error (matchLimit :: limitsUsed matchLimit lengths) i
       = Some before ->
       nth_error (limitsUsed matchLimit lengths) i = Some after ->
       (0 < before -> after <= before)
       /\ (before <= 0 -> nth_error lengths i = Some after).
Proof.
  intros HF Hn. split; [| now apply limitsUsed_spec].
  pose proof (envLimit_positive ml) as Hp. unfold maxMatches.
  destruct (Z.ltb_spec matchIDs (envLimit ml)); lia.
Qed.

Lemma last_cons (x d : Z) (l : list Z) : last (x :: l) d = last l x.
Proof.
  revert x d. induction l as [| y l IH]; intros x d; [reflexivity |].
  change (last (x :: y :: l) d) with (last (y :: l) d).
  now rewrite !(IH y).
Qed.

(** X26. The limit a request is analysed with is the latest positive
    [MatchLimit] sent so far, by this request or by an earlier one, and the
    limit of the environment when there is none; it is positive whenever
    the limit of the environment is. *)
Theorem X26_request_limit_outlives_the_request
        (matchLimit : Z) (reqLimits : list Z) (k : nat) (used : Z) :
  nth_error (served matchLimit reqLimits) k = Some used ->
  used = last (filter (fun r => r >? 0) (firstn (S k) reqLimits)) matchLimit
  /\ (0 < matchLimit -> 0 < used).
Proof.
  revert matchLimit k.
  induction reqLimits as [| r rest IH]; intros matchLimit k H;
    cbn [served] in H.
  - destruct k; discriminate.
  - destruct k as [| k]; cbn [nth_error] in H.
    + inversion H; subst. unfold serveLimit. cbn [firstn filter].
      destruct (Z.gtb_spec r 0); cbn [last]; split; try reflexivity; lia.
    + destruct (IH _ _ H) as [E P]. unfold serveLimit in *.
      change (firstn (S (S k)) (r :: rest)) with (r :: firstn (S k) rest).
      cbn [filter]. destruct (Z.gtb_spec r 0) as [Hr | Hr].
      * rewrite last_cons. split; [exact E | intros _; apply P; lia].
      * split; [exact E | exact P].
Qed.

End LimitFacts.

(** ** The web service *)

Section WebServiceFacts.
Import WebService.

Definition commaFree (s : string) : Prop :=
  ~ In ","%char (list_ascii_of_string s).

Lemma beforeComma_spec (s : string) :
  commaFree (beforeComma s)
  /\ (s = beforeComma s
      \/ exists rest, s = (beforeComma s ++ String ","%char rest)%string).
Proof.
  unfold commaFree. induction s as [| c s [IH1 IH2]]; cbn [beforeComma].
  - split; [intros [] | now left].
  - destruct (Ascii.eqb_spec c ","%char) as [-> | Hne].
    + split; [intros [] | right; now exists s].
    + split.
      * cbn [list_ascii_of_string]. intros [E | Hin]; [congruence | tauto].
      * destruct IH2 as [E | (rest & E)].
        -- left. now rewrite <- E.
        -- right. exists rest. cbn [append]. now rewrite <- E.
Qed.

(** X27. [clientIP] gives the part of X-Forwarded-For before its first
    comma when that header is set, else X-Real-IP when set, else the remote
    address. *)
Theorem X27_clientIP_takes_the_first_forwarded_address (r : Request) :
  (XForwardedFor r <> "" ->
   commaFree (clientIP r)
   /\ (XForwardedFor r = clientIP r
       \/ exists rest,
            XForwardedFor r
            = (clientIP r ++ String ","%char rest)%string))
  /\ (XForwardedFor r = "" -> XRealIP r <> "" -> clientIP r = XRealIP r)
  /\ (XForwardedFor r = "" -> XRealIP r = "" -> clientIP r = RemoteAddr r).
Proof.
  unfold clientIP. split; [| split].
  - intros H. apply String.eqb_neq in H. rewrite H. cbn [negb].
    apply beforeComma_spec.
  - intros H1 H2. rewrite H1. apply String.eqb_neq in H2. now rewrite H2.
  - intros H1 H2. now rewrite H1, H2.
Qed.

Definition isWrite (c : Call) : bool :=
  match c with Write _ => true | WriteHeader _ => false end.

Definition written (calls : list Call) : Z :=
  fold_right (fun c acc => match c with Write n => n + acc | _ => acc end)
             0 calls.

Lemma written_cons (c : Call) (calls : list Call) :
  written (c :: calls)
  = match c with Write n => n + written calls | _ => written calls end.
Proof. reflexivity. Qed.

Lemma written_nonneg (calls : list Call) :
  Forall (fun c => match c with Write n => 0 <= n | _ => True end) calls ->
  0 <= written calls.
Proof.
  induction 1 as [| c l Hc _ IH]; [cbn; lia |].
  rewrite written_cons. destruct c; lia.
Qed.

Lemma fold_call_nbytes (calls : list Call) :
  forall lw : loggingResponseWriter,
  Forall (fun c => match c with Write n => 0 <= n | _ => True end) calls ->
  0 <= nbytes lw -> nbytes lw + written calls <= GoInt.maxInt ->
  nbytes (fold_left call calls lw) = nbytes lw + written calls.
Proof.
  induction calls as [| c calls IH]; intros lw HF H0 Hmax;
    cbn [fold_left]; [cbn; lia |].
  inversion HF as [| ? ? Hc HF']; subst.
  pose proof (written_nonneg calls HF') as Hw.
  rewrite written_cons in *.
  destruct c as [code | n]; cbn [call].
  - rewrite IH; cbn [nbytes]; try assumption; lia.
  - assert (E : GoInt.add (nbytes lw) n = nbytes lw + n).
    { unfold GoInt.add. apply wrap_inRange.
      unfold GoInt.inRange, GoInt.minInt, GoInt.maxInt in *. lia. }
    rewrite IH; cbn [nbytes]; rewrite ?E; try assumption; lia.
Qed.

Lemma fold_call_status_writes (calls : list Call) :
  forall lw : loggingResponseWriter,
  forallb isWrite calls = true ->
  status (fold_left call calls lw)
  = match calls with
    | [] => status lw
    | _ => if status lw =? 0 then 200 else status lw
    end.
Proof.
  induction calls as [| c calls IH]; intros lw H; cbn [fold_left];
    [reflexivity |].
  cbn [forallb] in H. apply andb_true_iff in H. destruct H as [Hc H].
  destruct c as [code | n]; [discriminate |].
  rewrite IH by exact H. cbn [call status].
  destruct calls; [reflexivity |].
  destruct (Z.eqb_spec (status lw) 0) as [E | E]; [reflexivity |].
  now apply Z.eqb_neq in E as ->.
Qed.

(** X28. The status kept by [loggingResponseWriter] is the code of the
    last [WriteHeader] when Writes follow it, 200 when there are only
    Writes, and 0 when the handler wrote nothing; the byte count is the sum
    of what the wrapped writer reported. *)
Theorem X28_logged_status_is_the_last_header_written
        (before after : list Call) (code : Z) :
  forallb isWrite after = true ->
  (code <> 0 ->
   status (logged (before ++ WriteHeader code :: after)) = code)
  /\ status (logged after) = match after with [] => 0 | _ => 200 end
  /\ (Forall (fun c => match c with Write n => 0 <= n | _ => True end)
             (before ++ after) ->
      written (before ++ after) <= GoInt.maxInt ->
      nbytes (logged (before ++ after)) = written (before ++ after)).
Proof.
  intros Hw. unfold logged. split; [| split].
  - intros Hc. rewrite fold_left_app. cbn [fold_left call].
    rewrite fold_call_status_writes by exact Hw. cbn [status].
    destruct after; [reflexivity |].
    now apply Z.eqb_neq in Hc as ->.
  - rewrite fold_call_status_writes by exact Hw. cbn [status Z.eqb].
    reflexivity.
  - intros HF Hmax. rewrite fold_call_nbytes; cbn [nbytes]; try assumption;
      lia.
Qed.

(** *** The roster *)

Section RosterFacts.
Variable newRequest : string -> bool.
Variable sortSlice : list TeamSplit.PlayerData -> list TeamSplit.PlayerData.

(** The body of the player ends the loop. *)
Definition stops (o : PlayerOutcome) : bool :=
  match o with Broken | Panics => true | _ => false end.

(** How the body of each player ends when the loop gets to it. *)
Fixpoint verdicts (matchLimit : Z) (runs : list PlayerRun)
  : list PlayerOutcome :=
  match runs with
  | [] => []
  | run :: rest =>
    outcome newRequest matchLimit run
    :: verdicts (match outcome newRequest matchLimit run with
                 | Analysed _ =>
                   Collector.clampLimit
                     matchLimit (Z.of_nat (List.length (matchIDs run)))
                 | _ => matchLimit
                 end) rest
  end.

(** The first player whose body ends the loop. *)
Definition firstStop (matchLimit : Z) (runs : list PlayerRun)
  : option PlayerOutcome :=
  find stops (verdicts matchLimit runs).

Definition analysedOf (matchLimit : Z) (runs : list PlayerRun)
  : list TeamSplit.PlayerData :=
  flat_map (fun o => match o with Analysed pd => [pd] | _ => [] end)
           (verdicts matchLimit runs).

Lemma gather_spec (runs : list PlayerRun) :
  forall matchLimit acc,
  gather newRequest matchLimit runs acc
  = match firstStop matchLimit runs with
    | Some Panics => Panicked
    | Some _ => Returned
    | None => Collected (acc ++ analysedOf matchLimit runs)
    end.
Proof.
  unfold firstStop, analysedOf.
  induction runs as [| run rest IH]; intros matchLimit acc;
    cbn [gather verdicts find flat_map].
  - now rewrite app_nil_r.
  - destruct (outcome newRequest matchLimit run) as [| | | pd];
      cbn [stops app]; try reflexivity.
    + apply IH.
    + rewrite IH, <- app_assoc. reflexivity.
Qed.

(** A player whose account is not found leaves the limit as it is. *)
Lemma verdicts_missing (runs : list PlayerRun) :
  forall matchLimit,
  Forall (fun run =>
            newRequest (accountURL (player run)) = true
            /\ Executor.webAccountSite (fst (account run)) (snd (account run))
               = Executor.SkipPlayer) runs ->
  verdicts matchLimit runs = repeat Missing (List.length runs).
Proof.
  induction runs as [| run rest IH]; intros matchLimit H;
    cbn [verdicts List.length repeat]; [reflexivity |].
  inversion H as [| run' rest' [Hr Hs] Hrest]; subst.
  assert (E : outcome newRequest matchLimit run = Missing)
    by (unfold outcome; now rewrite Hr, Hs).
  rewrite E. f_equal. now apply IH.
Qed.

(** X29. [analyze] returns an error at once when fewer than two players
    are asked for.  Otherwise the first player whose body does not run to
    its end decides: an account or match-list step that fails gives an
    error, and a request that cannot be built, as for a name that does not
    parse as part of a URL, a panic.  When every body runs to its end or
    skips an unknown account (404), the two teams are a partition of the
    players analysed, in sizes that differ by at most one, and the
    lane-unique block is tried exactly when ten players were analysed; a
    request of two or more players that are all unknown yields two empty
    teams, not an error. *)
Theorem X29_analyze_checks_the_request_not_the_accounts_found
        (matchLimit : Z) (runs : list PlayerRun) :
  sortsBySkill sortSlice ->
  let result := analyze newRequest sortSlice matchLimit runs in
  ((List.length runs < 2)%nat -> result = Error)
  /\ ((2 <= List.length runs)%nat ->
      (result = Error <-> firstStop matchLimit runs = Some Broken)
      /\ (result = Panic <-> firstStop matchLimit runs = Some Panics)
      /\ ((exists teams lane_unique, result = Ok teams lane_unique)
          <-> firstStop matchLimit runs = None))
  /\ (forall teams lane_unique,
        result = Ok teams lane_unique ->
        Permutation (TeamSplit.teamA teams ++ TeamSplit.teamB teams)
                    (analysedOf matchLimit runs)
        /\ List.length (TeamSplit.teamA teams)
           = Nat.div2 (S (List.length (analysedOf matchLimit runs)))
        /\ List.length (TeamSplit.teamB teams)
           = Nat.div2 (List.length (analysedOf matchLimit runs))
        /\ (lane_unique = TeamSplit.NotTen
            <-> List.length (analysedOf matchLimit runs) <> 10%nat))
  /\ ((2 <= List.length runs)%nat ->
      Forall (fun run =>
                newRequest (accountURL (player run)) = true
                /\ Executor.webAccountSite (fst (account run))
                                           (snd (account run))
                   = Executor.SkipPlayer) runs ->
      result = Ok (TeamSplit.mkTeams [] [] 0 0) TeamSplit.NotTen)
  /\ (forall run rest,
        runs = run :: rest -> (1 <= List.length rest)%nat ->
        newRequest (accountURL (player run)) = false ->
        result = Panic).
Proof.
  intros Hsort result. subst result. unfold analyze.
  rewrite gather_spec. cbn [app].
  split; [| split; [| split; [| split]]].
  - intros Hlt. now apply Nat.ltb_lt in Hlt as ->.
  - intros Hge.
    replace (List.length runs <? 2)%nat with false
      by (symmetry; apply Nat.ltb_ge; lia).
    assert (Hfind : forall o, firstStop matchLimit runs = Some o ->
                               o = Broken \/ o = Panics).
    { intros o Ho. unfold firstStop in Ho. apply find_some in Ho.
      destruct Ho as [_ Ho]. destruct o; [discriminate | now left
                                          | now right | discriminate]. }
    destruct (firstStop matchLimit runs) as [o |].
    + destruct (Hfind o eq_refl) as [-> | ->].
      * split; [split; [reflexivity | reflexivity] |].
        split; [split; discriminate |].
        split; [intros (t & l & H); discriminate | discriminate].
      * split; [split; discriminate |].
        split; [split; reflexivity |].
        split; [intros (t & l & H); discriminate | discriminate].
    + split; [split; discriminate |].
      split; [split; discriminate |].
      split; [reflexivity | intros _; eexists; eexists; reflexivity].
  - intros teams lu H.
    destruct (List.length runs <? 2)%nat; [discriminate |].
    destruct (firstStop matchLimit runs) as [[| | |] |]; try discriminate.
    inversion H; subst. clear H.
    destruct (teamSplit_parts sortSlice (analysedOf matchLimit runs) Hsort)
      as (P & L1 & L2).
    split; [exact P |]. split; [exact L1 |]. split; [exact L2 |].
    unfold TeamSplit.laneUnique.
    destruct (Hsort (analysedOf matchLimit runs)) as [HP _].
    rewrite (Permutation_length HP).
    destruct (Nat.eqb_spec (List.length (analysedOf matchLimit runs)) 10)
      as [E | E].
    + split; [| intros; contradiction].
      destruct (_ && _); discriminate.
    + split; [intros _; exact E | reflexivity].
  - intros Hlen Hall.
    replace (List.length runs <? 2)%nat with false
      by (symmetry; apply Nat.ltb_ge; lia).
    unfold firstStop, analysedOf.
    rewrite (verdicts_missing runs matchLimit Hall).
    clear Hall Hlen. generalize (List.length runs). intros n.
    assert (Hf : forall k, find stops (repeat Missing k) = None)
      by (intros k; induction k as [| k IH]; [reflexivity | exact IH]).
    assert (Ha : forall k,
               flat_map (fun o => match o with
                                  | Analysed pd => [pd]
                                  | _ => []
                                  end) (repeat Missing k) = [])
      by (intros k; induction k as [| k IH]; [reflexivity | exact IH]).
    rewrite Hf, Ha. unfold TeamSplit.teamSplit.
    destruct (Hsort []) as [HP _].
    rewrite (Permutation_nil (Permutation_sym HP)). reflexivity.
  - intros run rest -> Hlen Hbad.
    cbn [List.length].
    replace (S (List.length rest) <? 2)%nat with false
      by (symmetry; apply Nat.ltb_ge; lia).
    assert (E : outcome newRequest matchLimit run = Panics)
      by (unfold outcome; now rewrite Hbad).
    unfold firstStop. cbn [verdicts find]. rewrite E. reflexivity.
Qed.

End RosterFacts.

End WebServiceFacts.

(** ** Across the components *)

Section NotFoundFacts.
Import Clock Limiter Executor.

Variable lag : Lag.
Variable fuel : nat.
Hypothesis lag_steady : steady lag.
Hypothesis fuel_enough : (3 <= fuel)%nat.

(** X30. A reply of status 404 is handed back by [doRequestWithRetry] at
    once, as a response without error, after one attempt and without any
    sleep, and counted as completed, whatever the mode and [maxRetry].  The
    collector's account, match-list, rank and mastery callers then stop the
    program; the web service's account caller skips the player and its
    match-list caller fails the analysis. *)
Theorem X30_not_found_is_handed_back_and_callers_differ
        (SKIP : string) (maxRetry : Z) (r : Response) (err : bool)
        (more : list Reply) (w : World) :
  WOK w -> StatusCode r = 404 ->
  (exists w',
     doRequestWithRetry fuel lag SKIP maxRetry (mkReply (Some r) err :: more) w
     = (Done (Some r) None, w')
     /\ naps w' = naps w
     /\ attempts (counters w') = GoInt.add (attempts (counters w)) 1
     /\ completed (counters w') = GoInt.add (completed (counters w)) 1)
  /\ cliPlayerSite (Some r) None = Fatal
  /\ cliDetailSite (Some r) None = SkipItem
  /\ cliLenientSite (Some r) None = SkipItem
  /\ webAccountSite (Some r) None = SkipPlayer
  /\ webMatchListSite (Some r) None = Failed
  /\ webItemSite (Some r) None = SkipItem
  /\ webOptionalSite (Some r) None = Defaulted.
Proof.
  intros HO H404. split.
  - unfold doRequestWithRetry.
    destruct (enter_total lag fuel lag_steady fuel_enough w HO)
      as (w1 & E1 & _ & N1 & A1).
    destruct (enter_keeps lag fuel w w1 E1) as (_ & _ & _ & C1 & _).
    cbn [retryLoop]. rewrite E1, attempt_cases.
    unfold returned. cbn [resp failed]. rewrite H404.
    cbn [Z.eqb Pos.eqb]. rewrite orb_true_r.
    eexists. split; [reflexivity |]. cbn [count naps counters].
    split; [exact N1 |].
    cbn [RecordCompleted RecordAttempt attempts completed].
    now rewrite A1, C1.
  - unfold cliPlayerSite, cliDetailSite, cliLenientSite, webAccountSite,
      webMatchListSite, webItemSite, webOptionalSite, is200.
    rewrite H404. cbn [Z.eqb Pos.eqb negb andb]. repeat split.
Qed.

End NotFoundFacts.

Section UntrainedModelFacts.
Import SkillModel.

(** X15. [TrainLinear] given no players, or labels of another length than
    the players, returns the model without weights; that model predicts 0
    for every player, and [BalanceTeams] then puts the first half of a
    roster of even size up to 10 in team A and the second half in team B. *)
Theorem X15_untrained_model_splits_the_roster_in_order
        (sortSlice : list (PlayerFeatures * float)
                     -> list (PlayerFeatures * float))
        (training : list PlayerFeatures) (labels : list float)
        (roster : list PlayerFeatures) :
  (forall l, Permutation (sortSlice l) l) ->
  training = [] \/ List.length training <> List.length labels ->
  Nat.even (List.length roster) = true -> (List.length roster <= 10)%nat ->
  exists m,
    TrainLinear training labels = Some m
    /\ (forall p, Predict m p = Some 0%float)
    /\ forall score : PlayerFeatures -> float,
         (forall p, Predict m p = Some (score p)) ->
         Skill.BalanceTeams score sortSlice roster
         = (firstn (Nat.div2 (List.length roster)) roster,
            skipn (Nat.div2 (List.length roster)) roster).
Proof.
  intros Hperm Hun Heven Hlen. exists (mkSkillModel [] 0%float).
  split; [| split].
  - unfold TrainLinear. destruct training as [| first rest]; [reflexivity |].
    destruct Hun as [E | Hne]; [discriminate |].
    apply Nat.eqb_neq in Hne. now rewrite Hne.
  - intros p. reflexivity.
  - intros score Hscore.
    rewrite (BalanceTeams_scores score (fun _ => 0%float) sortSlice).
    + now apply level_scores_split_in_order.
    + intros p. specialize (Hscore p). cbn in Hscore. congruence.
Qed.

End UntrainedModelFacts.

(** ** The properties above at concrete inputs *)

(** Replies and inputs the witnesses are run on. *)
Definition reply500 : Executor.Reply :=
  Executor.mkReply (Some (Executor.mkResponse 500 "")) false.

Definition reply429 (hint : string) : Executor.Reply :=
  Executor.mkReply (Some (Executor.mkResponse 429 hint)) false.

Lemma idle_steady : Clock.steady (fun _ => 0).
Proof. intros k. lia. Qed.

Lemma three_turns : (3 <= 3)%nat.
Proof. lia. Qed.

Lemma X7_bounded_attempts_witness :
  exists r e w' extra,
    Executor.doRequestWithRetry 3 (fun _ => 0) "" 2 [reply500; reply500]
      (Executor.newWorld 1) = (Executor.Done r e, w')
    /\ Executor.naps w' = Executor.naps (Executor.newWorld 1) ++ extra
    /\ Z.of_nat (List.length extra) < 2
    /\ forallb isBackOff extra = true.
Proof.
  apply (X7_returns_within_maxRetry_attempts (fun _ => 0) 3 idle_steady
           three_turns "" 2 [reply500; reply500] (Executor.newWorld 1)).
  - discriminate.
  - apply WOK_new.
  - split; [lia | vm_compute; discriminate].
  - simpl. lia.
  - repeat constructor; intros (r & E & H); inversion E; subst;
      discriminate H.
Defined.

Lemma X8_budget_witness :
  exists w',
    Executor.doRequestWithRetry 3 (fun _ => 0) "" 2
      ([reply429 "1"] ++ reply500 :: []) (Executor.newWorld 1)
    = (Executor.Done None (Some 500), w')
    /\ Executor.naps w'
       = Executor.naps (Executor.newWorld 1)
         ++ map (fun rp => Executor.RateLimited
                             (Executor.retryAfterWait (hintOf rp)))
                [reply429 "1"].
Proof.
  apply (X8_rate_limited_attempts_use_up_the_budget (fun _ => 0) 3
           idle_steady three_turns "" 2 [reply429 "1"] reply500 []
           (Executor.newWorld 1)).
  - discriminate.
  - apply WOK_new.
  - repeat constructor. eexists. split; reflexivity.
  - split; reflexivity.
  - simpl. lia.
  - vm_compute. reflexivity.
Defined.

Lemma X11_best_effort_witness :
  exists w',
    Executor.doRequestWithRetry 3 (fun _ => 0) "true" 3 [reply429 "5"]
      (Executor.newWorld 1)
    = (Executor.Done None None, w')
    /\ Executor.naps w' = Executor.naps (Executor.newWorld 1)
    /\ Executor.wait429 (Executor.counters w')
       = GoInt.add (Executor.wait429 (Executor.counters (Executor.newWorld 1)))
                   (Executor.retryAfterWait (hintOf (reply429 "5")))
    /\ Executor.retries (Executor.counters w')
       = GoInt.add (Executor.retries (Executor.counters (Executor.newWorld 1)))
                   1.
Proof.
  apply (X11_best_effort_books_a_wait_it_never_sleeps (fun _ => 0) 3
           idle_steady three_turns 3 (reply429 "5") []
           (Executor.newWorld 1)).
  - apply WOK_new.
  - eexists. split; reflexivity.
  - vm_compute. reflexivity.
Defined.

Lemma X12_negative_hint_witness :
  exists st' w',
    Executor.attempt false 3 (reply429 "-5") (Executor.mkLoop 1000000000 0 0)
                     (Executor.newWorld 1)
    = Executor.Again st' w'
    /\ Executor.naps w'
       = Executor.naps (Executor.newWorld 1)
         ++ [Executor.RateLimited (-5 * Clock.Second)]
    /\ Clock.base (Executor.wclock w')
       = Clock.base (Executor.wclock (Executor.newWorld 1))
    /\ Executor.wait429 (Executor.counters w')
       = Executor.wait429 (Executor.counters (Executor.newWorld 1)).
Proof.
  apply (X12_negative_hint_retries_at_once 3 (reply429 "-5") (-5)).
  - eexists. split; reflexivity.
  - reflexivity.
  - lia.
Defined.

Lemma X13_earlier_executor_witness :
  exists r e sleeps,
    Executor.legacyDoRequestWithRetry "" 2 [reply500; reply500]
    = (Executor.LDone r e, sleeps)
    /\ Z.of_nat (List.length sleeps) <= Z.max 0 2
    /\ (e <> None ->
        r = None /\ "" <> "true"
        /\ Z.of_nat (List.length sleeps) = Z.max 0 2).
Proof.
  apply (X13_earlier_executor_sleeps_after_every_failure ""
           2 [reply500; reply500]).
  - repeat constructor; intros H; discriminate H.
  - vm_compute. discriminate.
  - simpl. lia.
Defined.

(** The zero value of [PlayerFeatures]. *)
Definition blankPlayer : SkillModel.PlayerFeatures :=
  SkillModel.mkPlayerFeatures 0 0 0 0%float 0 0%float 0%float 0%float 0%float
    0%float 0%float 0%float 0%float 0%float 0%float
    (0%float, 0%float, 0%float)
    (0%float, 0%float, 0%float, 0%float, 0%float).

Lemma X15_untrained_model_witness :
  exists m,
    SkillModel.TrainLinear [] [1500%float] = Some m
    /\ (forall p, SkillModel.Predict m p = Some 0%float)
    /\ forall score : SkillModel.PlayerFeatures -> float,
         (forall p, SkillModel.Predict m p = Some (score p)) ->
         Skill.BalanceTeams score (GoSort.insertionSort Skill.higherScore)
                            [blankPlayer; blankPlayer]
         = (firstn (Nat.div2 (List.length [blankPlayer; blankPlayer]))
                   [blankPlayer; blankPlayer],
            skipn (Nat.div2 (List.length [blankPlayer; blankPlayer]))
                  [blankPlayer; blankPlayer]).
Proof.
  apply (X15_untrained_model_splits_the_roster_in_order
           (GoSort.insertionSort Skill.higherScore) [] [1500%float]
           [blankPlayer; blankPlayer]).
  - apply insertionSort_perm.
  - left. reflexivity.
  - reflexivity.
  - simpl. lia.
Defined.

Lemma X16_trained_model_witness :
  exists m,
    SkillModel.TrainLinear [blankPlayer] [1500%float] = Some m
    /\ List.length (SkillModel.Weights m) = 23%nat
    /\ forall p, exists s, SkillModel.Predict m p = Some s.
Proof.
  apply (X16_trained_model_has_23_weights_and_predicts [blankPlayer]
           [1500%float]).
  - discriminate.
  - reflexivity.
Defined.

Lemma X17_predict_witness :
  SkillModel.Predict
    (SkillModel.mkSkillModel (repeat 1%float 24) 0%float) blankPlayer = None.
Proof.
  apply (X17_predict_panics_on_more_than_23_weights
           (SkillModel.mkSkillModel (repeat 1%float 24) 0%float) blankPlayer).
  simpl. lia.
Defined.

Lemma X21_lane_unique_roles_witness :
  let outA :=
    [ TeamSplit.mkEntry "p0" "TOP" 3000; TeamSplit.mkEntry "p1" "JUNGLE" 2900;
      TeamSplit.mkEntry "p2" "MIDDLE" 2800;
      TeamSplit.mkEntry "p3" "BOTTOM" 2700;
      TeamSplit.mkEntry "p4" "UTILITY" 2600 ] in
  let outB :=
    [ TeamSplit.mkEntry "p5" "TOP" 2500; TeamSplit.mkEntry "p6" "JUNGLE" 2400;
      TeamSplit.mkEntry "p7" "MIDDLE" 2300;
      TeamSplit.mkEntry "p8" "BOTTOM" 2200;
      TeamSplit.mkEntry "p9" "UTILITY" 2100 ] in
  NoDup (map TeamSplit.Role outA) /\ NoDup (map TeamSplit.Role outB)
  /\ Forall2 (fun e p => In (TeamSplit.Role e) (TeamSplit.main_lanes p))
             outA (firstn 5 tenPlayers)
  /\ Forall2 (fun e p => In (TeamSplit.Role e) (TeamSplit.main_lanes p))
             outB (skipn 5 tenPlayers).
Proof.
  apply (X21_lane_unique_roles_are_distinct_main_lanes tenPlayers _ _
           14000 11500).
  vm_compute. reflexivity.
Defined.

(** Two matches of the player "me": a ranked win in the top lane and an
    ARAM game, and a match whose details could not be had. *)
Definition sampleDetails : list (option Collector.MatchDetail) :=
  [ Some (Collector.mkMatchDetail 420
            [ Collector.mkParticipant "me" 1 "TOP" true;
              Collector.mkParticipant "you" 2 "" false ]);
    None;
    Some (Collector.mkMatchDetail 450
            [ Collector.mkParticipant "me" 3 "" false ]) ].

Lemma X22_first_pass_witness :
  let apps := appearances "me" sampleDetails in
  let t := Collector.firstPass "me" sampleDetails in
  Aggregator.sumZ (counts (Collector.championCount t))
  = Z.of_nat (List.length apps)
  /\ Aggregator.sumZ (counts (Collector.laneCount t))
     = Z.of_nat (List.length apps)
  /\ Collector.rankedCount t = Z.of_nat (List.length (ranked apps))
  /\ Collector.rankedWin t = Z.of_nat (List.length (won (ranked apps)))
  /\ 0 <= Collector.rankedWin t <= Collector.rankedCount t
  /\ Collector.rankedCount t <= Z.of_nat (List.length apps)
  /\ NoDup (keys (Collector.championCount t))
  /\ NoDup (keys (Collector.laneCount t))
  /\ ~ In "" (keys (Collector.laneCount t))
  /\ Forall (fun a => In (fst a) [400; 430; 420]) apps.
Proof.
  apply (X22_first_pass_counts_add_up "me" sampleDetails).
  vm_compute. discriminate.
Defined.

Definition sampleTally : Collector.Tally :=
  Collector.mkTally [] [("TOP", 3); ("MIDDLE", 1); ("UTILITY", 2)] 0 0.

Lemma X23_main_lanes_witness :
  let stats := Collector.laneStats (fun l => l)
                 (GoSort.insertionSort Collector.moreGames) sampleTally in
  let main := Collector.mainLanes stats in
  let sub := Collector.subLanes stats in
  let games := RankScale.lookupInt (Collector.laneCount sampleTally) in
  NoDup (main ++ sub)
  /\ incl (main ++ sub) (keys (Collector.laneCount sampleTally))
  /\ List.length main
     = Nat.min 2 (List.length (Collector.laneCount sampleTally))
  /\ List.length sub
     = Nat.min 2 (List.length (Collector.laneCount sampleTally) - 2)
  /\ (forall lane other,
        In lane main -> In other (keys (Collector.laneCount sampleTally)) ->
        ~ In other main -> games lane >= games other)
  /\ (forall lane other,
        In lane sub -> In other (keys (Collector.laneCount sampleTally)) ->
        ~ In other (main ++ sub) -> games lane >= games other).
Proof.
  apply (X23_main_lanes_are_the_two_most_played (fun l => l)
           (GoSort.insertionSort Collector.moreGames) sampleTally).
  - intros l. apply Permutation_refl.
  - apply insertionSort_sortsByGames.
  - repeat constructor; simpl; intuition discriminate.
Defined.

Definition sampleNames : list (Z * string) :=
  [(1, "Annie"); (2, "Olaf"); (3, "Galio")].

Definition sampleMasteries : list Aggregator.Mastery :=
  [ Aggregator.mkMastery 2 5 1000; Aggregator.mkMastery 9 7 5000;
    Aggregator.mkMastery 1 4 300 ].

Lemma X24_main_champions_witness :
  let champs := Collector.mainChamps
                  (GoSort.insertionSort Aggregator.morePoints) (fun l => l)
                  (GoSort.insertionSort Collector.moreGames) sampleNames
                  (Some sampleMasteries) [(3, 4); (2, 1)] in
  NoDup champs /\ ~ In "" champs /\ (List.length champs <= 6)%nat
  /\ incl champs
          (map (nameOf sampleNames)
               (map Aggregator.ChampionID sampleMasteries
                ++ map fst [(3, 4); (2, 1)])).
Proof.
  apply (X24_main_champions_are_distinct_named_and_at_most_six sampleNames
           (GoSort.insertionSort Aggregator.morePoints) (fun l => l)
           (GoSort.insertionSort Collector.moreGames)
           (Some sampleMasteries) [(3, 4); (2, 1)] [] []).
  - apply insertionSort_perm.
  - intros l. apply Permutation_refl.
  - apply insertionSort_perm.
Defined.

Lemma X25_match_limits_witness :
  Forall2 (fun used n => 0 <= used <= n)
          (Collector.limitsUsed 3 [10; 0; 7]) [10; 0; 7].
Proof.
  apply (X25_match_limits_stay_inside_the_match_list "5" 3 [10; 0; 7] 4).
  - repeat constructor; lia.
  - lia.
Defined.

Lemma X26_request_limit_witness :
  5 = last (filter (fun r => r >? 0) (firstn 3 [0; 5; 0])) 10
  /\ (0 < 10 -> 0 < 5).
Proof.
  apply (X26_request_limit_outlives_the_request 10 [0; 5; 0] 2 5).
  reflexivity.
Defined.

Definition forwarded : WebService.Request :=
  WebService.mkRequest "1.2.3.4, 5.6.7.8" "" "9.9.9.9:80".

Lemma X27_clientIP_witness :
  commaFree (WebService.clientIP forwarded)
  /\ (WebService.XForwardedFor forwarded = WebService.clientIP forwarded
      \/ exists rest,
           WebService.XForwardedFor forwarded
           = (WebService.clientIP forwarded ++ String ","%char rest)%string).
Proof.
  apply (X27_clientIP_takes_the_first_forwarded_address forwarded).
  discriminate.
Defined.

Lemma X28_logged_status_witness :
  WebService.status
    (WebService.logged
       ([WebService.Write 2] ++ WebService.WriteHeader 404
                             :: [WebService.Write 3])) = 404.
Proof.
  apply (X28_logged_status_is_the_last_header_written
           [WebService.Write 2] [WebService.Write 3] 404).
  - reflexivity.
  - discriminate.
Defined.

(** A [newRequest] that refuses a URL with an ASCII control character, as
    [url.Parse] does, and builds every other request. *)
Definition noControlByte (url : string) : bool :=
  forallb (fun c => let n := N_of_ascii c in
                    negb ((n <? 32)%N || (n =? 127)%N))
          (list_ascii_of_string url).

(** A player whose account lookup came back as 404, and one whose name
    holds a tab. *)
Definition unknownPlayer : WebService.PlayerRun :=
  WebService.mkPlayerRun (WebService.mkPlayer "nobody" "JP1")
                         (Some (Executor.mkResponse 404 ""), None) true ""
                         (None, None) true [] [] TeamSplit.nobody.

Definition tabPlayer : WebService.PlayerRun :=
  WebService.mkPlayerRun (WebService.mkPlayer (String "009"%char "a") "JP1")
                         (Some (Executor.mkResponse 200 ""), None) true ""
                         (Some (Executor.mkResponse 200 ""), None) true [] []
                         TeamSplit.nobody.

Lemma X29_analyze_witness :
  WebService.analyze noControlByte
                     (GoSort.insertionSort TeamSplit.higherSkill) 10
                     [unknownPlayer; unknownPlayer]
  = WebService.Ok (TeamSplit.mkTeams [] [] 0 0) TeamSplit.NotTen
  /\ WebService.analyze noControlByte
                        (GoSort.insertionSort TeamSplit.higherSkill) 10
                        [tabPlayer; unknownPlayer]
     = WebService.Panic.
Proof.
  split.
  - apply (X29_analyze_checks_the_request_not_the_accounts_found
             noControlByte (GoSort.insertionSort TeamSplit.higherSkill) 10
             [unknownPlayer; unknownPlayer] insertionSort_sortsBySkill).
    + simpl. lia.
    + repeat constructor.
  - apply (X29_analyze_checks_the_request_not_the_accounts_found
             noControlByte (GoSort.insertionSort TeamSplit.higherSkill) 10
             [tabPlayer; unknownPlayer] insertionSort_sortsBySkill)
      with (run := tabPlayer) (rest := [unknownPlayer]).
    + reflexivity.
    + simpl. lia.
    + reflexivity.
Defined.

Lemma X30_not_found_witness :
  (exists w',
     Executor.doRequestWithRetry 3 (fun _ => 0) "" 3
       (Executor.mkReply (Some (Executor.mkResponse 404 "")) false :: [])
       (Executor.newWorld 1)
     = (Executor.Done (Some (Executor.mkResponse 404 "")) None, w')
     /\ Executor.naps w' = Executor.naps (Executor.newWorld 1)
     /\ Executor.attempts (Executor.counters w')
        = GoInt.add
            (Executor.attempts (Executor.counters (Executor.newWorld 1))) 1
     /\ Executor.completed (Executor.counters w')
        = GoInt.add
            (Executor.completed (Executor.counters (Executor.newWorld 1))) 1)
  /\ Executor.cliPlayerSite (Some (Executor.mkResponse 404 "")) None
     = Executor.Fatal
  /\ Executor.cliDetailSite (Some (Executor.mkResponse 404 "")) None
     = Executor.SkipItem
  /\ Executor.cliLenientSite (Some (Executor.mkResponse 404 "")) None
     = Executor.SkipItem
  /\ Executor.webAccountSite (Some (Executor.mkResponse 404 "")) None
     = Executor.SkipPlayer
  /\ Executor.webMatchListSite (Some (Executor.mkResponse 404 "")) None
     = Executor.Failed
  /\ Executor.webItemSite (Some (Executor.mkResponse 404 "")) None
     = Executor.SkipItem
  /\ Executor.webOptionalSite (Some (Executor.mkResponse 404 "")) None
     = Executor.Defaulted.
Proof.
  apply (X30_not_found_is_handed_back_and_callers_differ (fun _ => 0) 3
           idle_steady three_turns "" 3 (Executor.mkResponse 404 "") false []
           (Executor.newWorld 1)).
  - apply WOK_new.
  - reflexivity.
Defined.
